(** * certbot_manager.py: the certificate provisioning service

    A shallow embedding of [src/certbot/files/certbot_manager.py] together
    with the parts of the Python runtime its behaviour rests on
    ([str] methods, [pathlib], [csv.DictReader], [subprocess.run],
    [time.sleep], signal handlers), followed by the properties of the
    service loop.

    Conventions.
    - A Python [str] is a [string]; a character stands for the code point
      of the same number, so the model covers text over U+0000..U+00FF.
    - The outside world (file system, DNS, the certbot tool, signals) is a
      record of oracles indexed by a clock that advances by one at every
      call into the world.
    - Output with [print] and [log] never fails; the timestamp and the
      decoration of a line are left out, its content is kept as a
      constructor of [printed] or [logmsg].
    - The runtime is CPython 3.11 on Linux. *)

From Stdlib Require Import List String Ascii ZArith NArith Lia Bool Arith.
Import ListNotations.
Open Scope list_scope.
Open Scope string_scope.

(* ================================================================= *)
(** ** Python strings *)

Module PyStr.

Definition code (c : ascii) : N := N_of_ascii c.

(** [str.isspace] on one character: U+0009..U+000D, U+001C..U+0020,
    U+0085 and U+00A0. *)
Definition isspace (c : ascii) : bool :=
  let n := code c in
  (((9 <=? n) && (n <=? 13)) || ((28 <=? n) && (n <=? 32))
   || (n =? 133) || (n =? 160))%N.

(** [str.lower] on one character: A..Z and the capital letters of
    U+00C0..U+00DE (all but the multiplication sign U+00D7). *)
Definition lower_char (c : ascii) : ascii :=
  let n := code c in
  if (((65 <=? n) && (n <=? 90))
      || ((192 <=? n) && (n <=? 222) && negb (n =? 215)))%N
  then ascii_of_N (n + 32) else c.

Fixpoint lower (s : string) : string :=
  match s with
  | EmptyString => EmptyString
  | String c s' => String (lower_char c) (lower s')
  end.

Fixpoint lstrip (s : string) : string :=
  match s with
  | EmptyString => EmptyString
  | String c s' => if isspace c then lstrip s' else s
  end.

Fixpoint rstrip (s : string) : string :=
  match s with
  | EmptyString => EmptyString
  | String c s' =>
      match rstrip s' with
      | EmptyString => if isspace c then EmptyString else String c EmptyString
      | r => String c r
      end
  end.

(** [s.strip()] *)
Definition strip (s : string) : string := rstrip (lstrip s).

(** [s.split(sep)] for a one-character separator: never empty, the
    pieces between the separators in order. *)
Fixpoint split (sep : ascii) (s : string) : list string :=
  match s with
  | EmptyString => [EmptyString]
  | String c s' =>
      if Ascii.eqb c sep then EmptyString :: split sep s'
      else match split sep s' with
           | h :: t => String c h :: t
           | [] => [String c EmptyString]
           end
  end.

(** [sep.join(parts)] *)
Definition join (sep : string) (parts : list string) : string :=
  String.concat sep parts.

(** [s.startswith(p)] *)
Definition startswith (p s : string) : bool := String.prefix p s.

(** [s.endswith("/")]-style test on the last character. *)
Fixpoint endswith_char (c : ascii) (s : string) : bool :=
  match s with
  | EmptyString => false
  | String d EmptyString => Ascii.eqb d c
  | String _ s' => endswith_char c s'
  end.

(** [needle in hay] *)
Fixpoint contains (needle hay : string) : bool :=
  String.prefix needle hay ||
  match hay with
  | EmptyString => false
  | String _ hay' => contains needle hay'
  end.

(** [c in s] for one character. *)
Fixpoint has_char (c : ascii) (s : string) : bool :=
  match s with
  | EmptyString => false
  | String d s' => Ascii.eqb d c || has_char c s'
  end.

(** What an f-string prints for a value that is a [str] or [None]. *)
Definition format (v : option string) : string :=
  match v with Some s => s | None => "None" end.

Definition LF : ascii := ascii_of_N 10.
Definition CR : ascii := ascii_of_N 13.

(** The lines a text-mode file opened with the default [newline=None]
    yields when iterated: CR LF and a lone CR are read as LF, and every
    line keeps its LF (the last line may lack one). *)
Fixpoint text_lines_from (s : string) (after_cr : bool) : list string :=
  match s with
  | EmptyString => []
  | String c s' =>
      if Ascii.eqb c LF then
        if after_cr then text_lines_from s' false
        else String LF EmptyString :: text_lines_from s' false
      else if Ascii.eqb c CR then
        String LF EmptyString :: text_lines_from s' true
      else
        match text_lines_from s' false with
        | [] => [String c EmptyString]
        | h :: t => String c h :: t
        end
  end.

End PyStr.


(* ================================================================= *)
(** ** pathlib on a POSIX system *)

Module PosixPath.

(** [posixpath.join(a, b)] *)
Definition posixpath_join (a b : string) : string :=
  if PyStr.startswith "/" b then b
  else if String.eqb a "" || PyStr.endswith_char "/" a then a ++ b
  else a ++ "/" ++ b.

(** [posixpath.splitroot] without the (always empty) drive: the root
    and what follows it.  Exactly two leading slashes are kept as a
    root of their own; one, or three and more, make the root "/". *)
Definition splitroot (p : string) : string * string :=
  match p with
  | String "/" (String "/" (String "/" r)) => ("/", String "/" (String "/" r))
  | String "/" (String "/" r) => ("//", r)
  | String "/" r => ("/", r)
  | _ => ("", p)
  end.

(** A parsed path: its root and its components. *)
Record Path : Type := mkPath { root : string; parts : list string }.

Definition is_part (x : string) : bool :=
  negb (String.eqb x "") && negb (String.eqb x ".").

(** [PurePosixPath._parse_path] *)
Definition parse (raw : string) : Path :=
  if String.eqb raw "" then mkPath "" []
  else
    let '(rt, rel) := splitroot raw in
    mkPath rt (filter is_part (PyStr.split "/" rel)).

(** [Path(raw)] *)
Definition of_string (raw : string) : Path := parse raw.

(** [str(path)] *)
Definition to_string (p : Path) : string :=
  if String.eqb (root p) "" then
    match parts p with
    | [] => "."
    | ps => PyStr.join "/" ps
    end
  else root p ++ PyStr.join "/" (parts p).

(** [path / segment] *)
Definition truediv (p : Path) (segment : string) : Path :=
  parse (posixpath_join (to_string p) segment).

(** [path.name]: the last component, or the empty string. *)
Definition name (p : Path) : string := last (parts p) "".

End PosixPath.

(* ================================================================= *)
(** ** Exceptions *)

(** The exceptions below [Exception] that the service can meet.
    [EnvironmentError] stands for every exception class the world can
    raise from a call ([OSError] and its subclasses such as
    [FileNotFoundError] and [socket.gaierror], [UnicodeDecodeError], ...);
    all of them derive from [Exception]. *)
Inductive py_exception : Type :=
| CalledProcessError (returncode : Z) (cmd : list string) (stdout stderr : string)
| KeyError (key : string)
| AttributeError (msg : string)
| TypeError (msg : string)
| ValueError (msg : string)
| OverflowError (msg : string)
| CsvError (msg : string)
| EnvironmentError (cls msg : string).

(** An exception in flight.  [SystemExit] derives from [BaseException]
    only, so that [except Exception] does not catch it. *)
Inductive exn : Type :=
| PyExc (e : py_exception)
| SystemExit (code : Z).

(* ================================================================= *)
(** ** csv.reader and csv.DictReader *)

Module Csv.

(** The dialect in use: [excel] with [skipinitialspace=True]. *)
Definition delimiter : ascii := ",".
Definition quotechar : ascii := ascii_of_N 34.
Definition doublequote : bool := true.
Definition skipinitialspace : bool := true.
Definition strict : bool := false.
Definition field_limit : N := 131072.

(** The states of the reader; the dialect has no escape character, so
    the three escape states of [_csv.c] are never entered and are left
    out. *)
Inductive ParserState : Type :=
| START_RECORD | START_FIELD | IN_FIELD | IN_QUOTED_FIELD
| QUOTE_IN_QUOTED_FIELD | EAT_CRNL.

Record Reader : Type := mkReader {
  state : ParserState;
  fields : list string;   (* the fields saved so far, in order *)
  field : string          (* the field being read *)
}.

(** [parse_reset] *)
Definition parse_reset : Reader := mkReader START_RECORD [] "".

(** [parse_save_field] *)
Definition parse_save_field (r : Reader) : Reader :=
  mkReader (state r) (fields r ++ [field r])%list "".

Definition set_state (s : ParserState) (r : Reader) : Reader :=
  mkReader s (fields r) (field r).

(** [parse_add_char] *)
Definition parse_add_char (c : ascii) (r : Reader) : py_exception + Reader :=
  if (field_limit <=? N.of_nat (String.length (field r)))%N
  then inl (CsvError "field larger than field limit (131072)")
  else inr (mkReader (state r) (fields r) (field r ++ String c "")).

Definition is_newline (c : ascii) : bool :=
  Ascii.eqb c PyStr.LF || Ascii.eqb c PyStr.CR.

Definition after_line_end (c : option ascii) : ParserState :=
  match c with None => START_RECORD | Some _ => EAT_CRNL end.

Definition is_line_end (c : option ascii) : bool :=
  match c with None => true | Some a => is_newline a end.

Definition is_char (a : ascii) (c : option ascii) : bool :=
  match c with None => false | Some b => Ascii.eqb a b end.

Definition add_then (s : ParserState) (c : option ascii) (r : Reader)
  : py_exception + Reader :=
  match c with
  | None => inr r
  | Some a =>
      match parse_add_char a r with
      | inl e => inl e
      | inr r' => inr (set_state s r')
      end
  end.

(** The [START_FIELD] case of [parse_process_char], which the
    [START_RECORD] case falls through to. *)
Definition start_field (c : option ascii) (r : Reader) : py_exception + Reader :=
  if is_line_end c then
    inr (set_state (after_line_end c) (parse_save_field r))
  else if is_char quotechar c then
    inr (set_state IN_QUOTED_FIELD r)
  else if is_char " " c && skipinitialspace then
    inr r
  else if is_char delimiter c then
    inr (parse_save_field r)
  else
    add_then IN_FIELD c r.

(** [parse_process_char]; [None] is the end-of-line mark [EOL] the
    reader feeds after the characters of each line. *)
Definition parse_process_char (c : option ascii) (r : Reader)
  : py_exception + Reader :=
  match state r with
  | START_RECORD =>
      match c with
      | None => inr r
      | Some a =>
          if is_newline a then inr (set_state EAT_CRNL r)
          else start_field c (set_state START_FIELD r)
      end
  | START_FIELD => start_field c r
  | IN_FIELD =>
      if is_line_end c then
        inr (set_state (after_line_end c) (parse_save_field r))
      else if is_char delimiter c then
        inr (set_state START_FIELD (parse_save_field r))
      else add_then IN_FIELD c r
  | IN_QUOTED_FIELD =>
      match c with
      | None => inr r
      | Some a =>
          if Ascii.eqb a quotechar then
            if doublequote then inr (set_state QUOTE_IN_QUOTED_FIELD r)
            else inr (set_state IN_FIELD r)
          else add_then IN_QUOTED_FIELD c r
      end
  | QUOTE_IN_QUOTED_FIELD =>
      if is_char quotechar c then add_then IN_QUOTED_FIELD c r
      else if is_char delimiter c then
        inr (set_state START_FIELD (parse_save_field r))
      else if is_line_end c then
        inr (set_state (after_line_end c) (parse_save_field r))
      else if negb strict then add_then IN_FIELD c r
      else inl (CsvError "delimiter expected after quotechar")
  | EAT_CRNL =>
      match c with
      | None => inr (set_state START_RECORD r)
      | Some a =>
          if is_newline a then inr r
          else inl (CsvError "new-line character seen in unquoted field")
      end
  end.

(** The inner loop of [Reader_iternext]: the characters of one line. *)
Fixpoint feed_chars (line : string) (r : Reader) : py_exception + Reader :=
  match line with
  | EmptyString => inr r
  | String c rest =>
      match parse_process_char (Some c) r with
      | inl e => inl e
      | inr r' => feed_chars rest r'
      end
  end.

(** One line and the [EOL] after it. *)
Definition feed_line (line : string) (r : Reader) : py_exception + Reader :=
  match feed_chars line r with
  | inl e => inl e
  | inr r' => parse_process_char None r'
  end.

(** What iterating a [csv.reader] over [lines] yields: the records
    produced, in order, and the exception that ends the iteration if
    there is one.  [r] is the reader inside the current record; a new
    record starts from [parse_reset]. *)
Fixpoint records_from (lines : list string) (r : Reader)
  : list (list string) * option py_exception :=
  match lines with
  | [] =>
      (* end of input inside a record: the pending field is saved *)
      if negb (String.eqb (field r) "")
         || match state r with IN_QUOTED_FIELD => true | _ => false end
      then ([fields (parse_save_field r)], None)
      else ([], None)
  | line :: rest =>
      match feed_line line r with
      | inl e => ([], Some e)
      | inr r' =>
          match state r' with
          | START_RECORD =>
              let '(recs, err) := records_from rest parse_reset in
              (fields r' :: recs, err)
          | _ => records_from rest r'
          end
      end
  end.

(** [csv.reader(f, skipinitialspace=True)] *)
Definition reader (lines : list string) : list (list string) * option py_exception :=
  records_from lines parse_reset.

(** The same when the iteration over the lines does not end but raises
    [stop] after [lines]: the exception passes through the reader, and
    the record it was reading is lost. *)
Fixpoint records_until (lines : list string) (stop : py_exception) (r : Reader)
  : list (list string) * option py_exception :=
  match lines with
  | [] => ([], Some stop)
  | line :: rest =>
      match feed_line line r with
      | inl e => ([], Some e)
      | inr r' =>
          match state r' with
          | START_RECORD =>
              let '(recs, err) := records_until rest stop parse_reset in
              (fields r' :: recs, err)
          | _ => records_until rest stop r'
          end
      end
  end.

(** A row of a [DictReader]: keys in insertion order, a value is a
    [str] or [None] (the [restval] of a short row).  The surplus
    fields of a long row are stored under the key [None], which no
    string key reaches, and are left out. *)
Definition Row : Type := list (string * option string).

(** [d[key] = value] *)
Fixpoint dict_set (d : Row) (key : string) (value : option string) : Row :=
  match d with
  | [] => [(key, value)]
  | (k, v) :: d' =>
      if String.eqb k key then (k, value) :: d'
      else (k, v) :: dict_set d' key value
  end.

(** [d.get(key)] with [None] for a missing key. *)
Fixpoint dict_get (d : Row) (key : string) : option (option string) :=
  match d with
  | [] => None
  | (k, v) :: d' => if String.eqb k key then Some v else dict_get d' key
  end.

(** [dict(zip(fieldnames, row))] followed by the [restval] entries. *)
Fixpoint make_row (d : Row) (fieldnames record : list string) : Row :=
  match fieldnames with
  | [] => d
  | k :: ks =>
      match record with
      | [] => make_row (dict_set d k None) ks []
      | v :: vs => make_row (dict_set d k (Some v)) ks vs
      end
  end.

Definition is_blank (record : list string) : bool :=
  match record with [] => true | _ => false end.

(** [csv.DictReader(f, skipinitialspace=True)]: the first record gives
    the field names, blank records after it are passed over, every
    other record becomes a row. *)
Definition DictReader (lines : list string) : list Row * option py_exception :=
  match reader lines with
  | ([], err) => ([], err)
  | (fieldnames :: records, err) =>
      (map (make_row [] fieldnames) (filter (fun r => negb (is_blank r)) records), err)
  end.

(** [csv.DictReader] over lines after which the file raises [stop]. *)
Definition DictReader_until (lines : list string) (stop : py_exception)
  : list Row * option py_exception :=
  match records_until lines stop parse_reset with
  | ([], err) => ([], err)
  | (fieldnames :: records, err) =>
      (map (make_row [] fieldnames) (filter (fun r => negb (is_blank r)) records), err)
  end.

End Csv.

(* ================================================================= *)
(** ** The world and what the process shows of itself *)

Inductive signum : Type := SIGTERM | SIGINT.

(** [subprocess.CompletedProcess] of a captured text run. *)
Record CompletedProcess : Type := mkCompleted {
  returncode : Z;
  stdout : string;
  stderr : string
}.

(** The world, observed at clock time [t]: whether a signal arrives
    during the call made at [t], and what each call answers.  A test of
    the file system answers or raises ([Path.exists] and [Path.is_file]
    re-raise every [OSError] that does not mean that the path is absent,
    such as a name too long or a directory that may not be searched).
    Opening the list of domains raises, or gives the text of the lines
    the file yields and the exception that ends the reading when it does
    not reach the end of the file (the file is read while the rows are
    processed, so an error of reading or decoding comes after the rows
    before it).  [w_monotonic] is the monotonic clock of the system, in
    nanoseconds. *)
Record World : Type := mkWorld {
  w_signal : nat -> option signum;
  w_gethostbyname : nat -> string -> py_exception + string;
  w_exists : nat -> string -> py_exception + bool;
  w_is_file : nat -> string -> py_exception + bool;
  w_resolve : nat -> string -> py_exception + string;
  w_open : nat -> string -> py_exception + (string * option py_exception);
  w_run : nat -> list string -> py_exception + CompletedProcess;
  w_monotonic : nat -> N
}.

(** Lines written with [print]. *)
Inductive printed : Type :=
| PCycleBanner                          (* a blank line and 70 full blocks *)
| PProvisioning (fqdn : option string)  (* [PROVISIONING] Target: {fqdn} *)
| PSeparator                            (* the dotted separator of a domain block *)
| PStatusValid                          (* STATUS: VALID (No action needed) *)
| PStatusIssued                         (* STATUS: ISSUED/RENEWED successfully *)
| PErrorLine (line : string)            (* "     | {line}" *)
| PBlank                                (* print("\n") *)
| PStars                                (* twenty stars *)
| PLoaded.                              (* CERTBOT MANAGER LOADED *)

(** Messages written with [log]. *)
Inductive logmsg : Type :=
| LCycleStart (frequency : Z)
| LCsvMissing (csv_file : string)
| LReading (name : string)
| LCycleComplete (frequency : Z)
| LRuntimeException (e : py_exception)
| LMissingCredentials (fqdn : option string) (creds_path : string)
| LFailed (fqdn : option string)
| LShutdown.

(** Calls into the world. *)
Inductive call : Type :=
| CGetHostByName (host : string)
| CExists (path : string)
| CIsFile (path : string)
| CResolve (path : string)
| COpen (path : string)
| CRun (argv : list string)
| CSleep (secs : Z).

Inductive event : Type :=
| Print (p : printed)
| Log (m : logmsg) (is_error : bool)
| Call (c : call)
| Signal (s : signum).

Inductive outcome (A : Type) : Type :=
| Normal (a : A)
| Raised (x : exn).
Arguments Normal {A} a.
Arguments Raised {A} x.

(** How the process stands after a number of cycles. *)
Inductive process_status : Type :=
| Running
| Exited (code : Z).

(** --- Configuration --- *)
Definition SECRETS_DIR : PosixPath.Path :=
  PosixPath.of_string "/etc/letsencrypt/secrets".
Definition RETRY_DELAY : Z := 60.

(** The largest signed 64-bit integer, and the bound the model puts on
    the monotonic clock. *)
Definition INT64_MAX : Z := 9223372036854775807.
Definition UPTIME_MAX : N := 4611686018427387904.

(** The rows the loop over [csv.DictReader(f, skipinitialspace=True)]
    gets from an open file: the file yields the lines of [text] and then
    ends, or raises [read_error]; before an error it yields whole lines
    only. *)
Definition rows_of_file (text : string) (read_error : option py_exception)
  : list Csv.Row * option py_exception :=
  match read_error with
  | None => Csv.DictReader (PyStr.text_lines_from text false)
  | Some e =>
      Csv.DictReader_until
        (filter (PyStr.endswith_char PyStr.LF) (PyStr.text_lines_from text false)) e
  end.

(** The parsed command line ([args]). *)
Record Args : Type := mkArgs {
  csv : string;
  hook : option string;
  frequency : Z
}.

(** A computation: from the clock to the events shown, the clock
    afterwards and a value or an exception in flight. *)
Definition M (A : Type) : Type := nat -> list event * nat * outcome A.

Definition ret {A} (a : A) : M A := fun t => ([], t, Normal a).

Definition bind {A B} (m : M A) (k : A -> M B) : M B :=
  fun t =>
    match m t with
    | (tr, t1, Normal a) =>
        match k a t1 with (tr2, t2, o) => ((tr ++ tr2)%list, t2, o) end
    | (tr, t1, Raised x) => (tr, t1, Raised x)
    end.

Declare Scope py_scope.
Delimit Scope py_scope with py.
Notation "x <- m ;; k" := (bind m (fun x => k))
  (at level 61, m at next level, right associativity) : py_scope.
Notation "m ;; k" := (bind m (fun _ => k))
  (at level 61, right associativity) : py_scope.
Open Scope py_scope.

Definition emit (e : event) : M unit := fun t => ([e], t, Normal tt).
Definition raise {A} (e : py_exception) : M A := fun t => ([], t, Raised (PyExc e)).
Definition tick : M nat := fun t => ([], S t, Normal t).
Definition clock : M nat := fun t => ([], t, Normal t).

(** [try: body except <class> as e: handler]; [catch e] is the handler
    when [e] is of the class and [None] when it is not.  [SystemExit] is
    never of the class. *)
Definition try_except {A} (body : M A) (catch : py_exception -> option (M A)) : M A :=
  fun t =>
    match body t with
    | (tr, t1, Raised (PyExc e)) =>
        match catch e with
        | Some handler =>
            match handler t1 with (tr2, t2, o) => ((tr ++ tr2)%list, t2, o) end
        | None => (tr, t1, Raised (PyExc e))
        end
    | r => r
    end.

(** [for x in xs: body x] *)
Fixpoint for_each {X} (xs : list X) (body : X -> M unit) : M unit :=
  match xs with
  | [] => ret tt
  | x :: xs' => body x ;; for_each xs' body
  end.

Definition print (p : printed) : M unit := emit (Print p).

Definition log (message : logmsg) (is_error : bool) : M unit :=
  emit (Log message is_error).

(** [sys.exit(code)] *)
Definition sys_exit {A} (code : Z) : M A := fun t => ([], t, Raised (SystemExit code)).

Definition shutdown_handler {A} (signum_ : signum) : M A :=
  print PBlank ;;
  log LShutdown false ;;
  sys_exit 0.

Section Service.

Variable args : Args.
Variable w : World.

(** A call into the world at the current time.  [shutdown_handler] is
    installed for both signals, so a signal that arrives during the
    call runs it from inside the call. *)
Definition world_call {A} (c : call) (answer : nat -> py_exception + A) : M A :=
  emit (Call c) ;;
  now <- tick ;;
  match w_signal w now with
  | Some s => emit (Signal s) ;; shutdown_handler s
  | None =>
      match answer now with
      | inl e => raise e
      | inr a => ret a
      end
  end.

Definition gethostbyname (host : string) : M string :=
  world_call (CGetHostByName host) (fun t => w_gethostbyname w t host).

Definition path_exists (p : PosixPath.Path) : M bool :=
  let s := PosixPath.to_string p in
  world_call (CExists s) (fun t => w_exists w t s).

Definition path_is_file (p : PosixPath.Path) : M bool :=
  let s := PosixPath.to_string p in
  world_call (CIsFile s) (fun t => w_is_file w t s).

Definition path_resolve (p : PosixPath.Path) : M string :=
  let s := PosixPath.to_string p in
  world_call (CResolve s) (fun t => w_resolve w t s).

(** [path.open(mode='r', encoding='utf-8')]: the text of the lines the
    open file yields, and the exception that ends the reading if the
    file is not read to its end. *)
Definition path_open (p : PosixPath.Path) : M (string * option py_exception) :=
  let s := PosixPath.to_string p in
  world_call (COpen s) (fun t => w_open w t s).

(** The monotonic clock as [time.sleep] reads it.  The model takes the
    system to have been up for less than 2^62 nanoseconds (146 years). *)
Definition monotonic_ns (t : nat) : Z :=
  Z.of_N (N.min (w_monotonic w t) UPTIME_MAX).

(** The deadline of a sleep of [secs] seconds that starts at [t]. *)
Definition deadline (secs : Z) (t : nat) : Z :=
  (monotonic_ns t + secs * 1000000000)%Z.

(** [time.sleep(secs)] for an [int] (CPython 3.11 on Linux).  The
    argument is checked first.  The deadline is then computed in a
    signed 64-bit count of nanoseconds; one that does not fit wraps
    around to a negative time, which [clock_nanosleep] rejects with
    EINVAL before the process waits at all. *)
Definition sleep (secs : Z) : M unit :=
  if (Z.abs secs >? 9223372036)%Z then
    raise (OverflowError "timestamp too large to convert to C _PyTime_t")
  else if (secs <? 0)%Z then
    raise (ValueError "sleep length must be non-negative")
  else
    now <- clock ;;
    if (INT64_MAX <? deadline secs now)%Z then
      raise (EnvironmentError "OSError" "[Errno 22] Invalid argument")
    else world_call (CSleep secs) (fun _ => inr tt).

(** The arguments of a command line must all be strings. *)
Fixpoint all_str (cmd : list (option string)) : option (list string) :=
  match cmd with
  | [] => Some []
  | None :: _ => None
  | Some s :: cmd' =>
      match all_str cmd' with
      | Some argv => Some (s :: argv)
      | None => None
      end
  end.

(** [subprocess.run(cmd, capture_output=True, text=True, check=True)] *)
Definition subprocess_run (cmd : list (option string)) : M CompletedProcess :=
  match all_str cmd with
  | None => raise (TypeError "expected str, bytes or os.PathLike object, not NoneType")
  | Some argv =>
      result <- world_call (CRun argv) (fun t => w_run w t argv) ;;
      if (returncode result =? 0)%Z then ret result
      else raise (CalledProcessError (returncode result) argv
                    (stdout result) (stderr result))
  end.

(** [except subprocess.CalledProcessError as e] *)
Definition except_CalledProcessError {A}
    (handler : Z -> list string -> string -> string -> M A)
    (e : py_exception) : option (M A) :=
  match e with
  | CalledProcessError rc cmd out err => Some (handler rc cmd out err)
  | _ => None
  end.

(** [except Exception as e] *)
Definition except_Exception {A} (handler : py_exception -> M A)
    (e : py_exception) : option (M A) :=
  Some (handler e).

Definition run_certbot (fqdn provider_key email : option string)
    (hook_script : option string) : M unit :=
  print (PProvisioning fqdn) ;;
  print PSeparator ;;
  key <- match provider_key with
         | Some k => ret k
         | None => raise (AttributeError "'NoneType' object has no attribute 'lower'")
         end ;;
  let plugin :=
    if PyStr.contains "cloudflare" (PyStr.lower key) then "cloudflare" else "rfc2136" in
  let creds_path := PosixPath.truediv SECRETS_DIR (key ++ ".ini") in
  present <- path_exists creds_path ;;
  if negb present then
    log (LMissingCredentials fqdn (PosixPath.to_string creds_path)) true
  else
    let cmd :=
      [Some "certbot"; Some "certonly"; Some "--non-interactive"; Some "--agree-tos";
       Some "--email"; email; Some ("--dns-" ++ plugin);
       Some ("--dns-" ++ plugin ++ "-credentials");
       Some (PosixPath.to_string creds_path);
       Some "--keep-until-expiring"; Some "-d"; fqdn] in
    let cmd :=
      match hook_script with
      | Some h =>
          app cmd [Some "--deploy-hook"; Some (h ++ " " ++ PyStr.format fqdn)]
      | None => cmd
      end in
    try_except
      (result <- subprocess_run cmd ;;
       if PyStr.contains "Certificate not yet due" (stdout result)
       then print PStatusValid
       else print PStatusIssued)
      (except_CalledProcessError (fun _ _ _ e_stderr =>
         log (LFailed fqdn) true ;;
         let error_lines := PyStr.split PyStr.LF (PyStr.strip e_stderr) in
         for_each error_lines (fun line => print (PErrorLine line)))) ;;
    print PSeparator.

(** [row[key]] *)
Definition getitem (row : Csv.Row) (key : string) : M (option string) :=
  match Csv.dict_get row key with
  | Some v => ret v
  | None => raise (KeyError key)
  end.

(** [for row in reader: body row], where the reader yields [rows] and
    then stops or raises. *)
Definition for_rows (reader : list Csv.Row * option py_exception)
    (body : Csv.Row -> M unit) : M unit :=
  for_each (fst reader) body ;;
  match snd reader with
  | Some e => raise e
  | None => ret tt
  end.

(** The statement under [for row in reader]. *)
Definition process_row (hook_script : option string) (row : Csv.Row) : M unit :=
  fqdn <- getitem row "fqdn" ;;
  dns_provider <- getitem row "dns_provider" ;;
  email <- getitem row "email" ;;
  run_certbot fqdn dns_provider email hook_script.

(** The [try] block of the service loop. *)
Definition cycle_body (csv_file : PosixPath.Path) (hook_script : option string) : M unit :=
  print PCycleBanner ;;
  log (LCycleStart (frequency args)) false ;;
  _ <- gethostbyname "acme-v02.api.letsencrypt.org" ;;
  present <- path_exists csv_file ;;
  if negb present then
    log (LCsvMissing (PosixPath.to_string csv_file)) true ;;
    sleep RETRY_DELAY
  else
    log (LReading (PosixPath.name csv_file)) false ;;
    f <- path_open csv_file ;;
    for_rows (rows_of_file (fst f) (snd f)) (process_row hook_script) ;;
    print PCycleBanner ;;
    log (LCycleComplete (frequency args)) false ;;
    sleep (frequency args * 60)%Z.

(** One turn of [while True]. *)
Definition cycle (csv_file : PosixPath.Path) (hook_script : option string) : M unit :=
  try_except (cycle_body csv_file hook_script)
    (except_Exception (fun e =>
       log (LRuntimeException e) true ;;
       sleep RETRY_DELAY)).

(** [while True], cut after [n] turns: a normal end means that the
    loop is still turning. *)
Fixpoint service_loop (n : nat) (csv_file : PosixPath.Path)
    (hook_script : option string) : M unit :=
  match n with
  | O => ret tt
  | S n' => cycle csv_file hook_script ;; service_loop n' csv_file hook_script
  end.

(** The hook is looked at once, before the loop. *)
Definition verify_hook : M (option string) :=
  match hook args with
  | Some h =>
      if String.eqb h "" then ret None
      else
        let p := PosixPath.of_string h in
        e <- path_exists p ;;
        if e then
          f <- path_is_file p ;;
          if f then
            r <- path_resolve p ;;
            ret (Some r)
          else ret None
        else ret None
  | None => ret None
  end.

Definition main_service (n : nat) : M unit :=
  let csv_file := PosixPath.of_string (csv args) in
  hook_script <- verify_hook ;;
  service_loop n csv_file hook_script.

(** The [__main__] block, once both handlers are installed. *)
Definition main (n : nat) : M unit :=
  print PStars ;;
  print PLoaded ;;
  print PStars ;;
  main_service n.

(** The process after [n] turns of the loop: what it has shown, and
    whether it still runs.  An exception that leaves [main] ends the
    process: [SystemExit] with its code, any other with code 1. *)
Definition run_process (n : nat) : list event * process_status :=
  match main n 0 with
  | (tr, _, Normal _) => (tr, Running)
  | (tr, _, Raised (SystemExit c)) => (tr, Exited c)
  | (tr, _, Raised (PyExc _)) => (tr, Exited 1%Z)
  end.

End Service.

(* ================================================================= *)
(** ** Vocabulary of the properties *)

(** No signal arrives at any time in [a, b). *)
Definition quiet (w : World) (a b : nat) : Prop :=
  forall u, a <= u < b -> w_signal w u = None.

(** What the handler leaves at the end of a trace. *)
Definition shutdown_tail (c : call) (s : signum) : list event :=
  [Call c; Signal s; Print PBlank; Log LShutdown false].

(** A computation started at [t] was cut at [t'] by the first signal
    after [t]: the call in progress is the last one made, and the trace
    ends with the handler's two lines. *)
Definition exits_by_signal (w : World) (t : nat) (tr : list event) (t' : nat) : Prop :=
  exists u s tr0 c,
    t' = S u /\ t <= u /\ quiet w t u /\ w_signal w u = Some s /\
    tr = (tr0 ++ shutdown_tail c s)%list.

(** A computation that leaves the clock and the signals as the service
    expects: time never runs backwards, [SystemExit] only comes from the
    handler, with code 0, and otherwise no signal arrived meanwhile. *)
Definition tame (w : World) {A} (m : M A) : Prop :=
  forall t tr t' o,
    m t = (tr, t', o) ->
    t <= t' /\
    match o with
    | Raised (SystemExit c) => c = 0%Z /\ exits_by_signal w t tr t'
    | _ => quiet w t t'
    end.

(** A computation from which no exception below [Exception] escapes. *)
Definition contained {A} (m : M A) : Prop :=
  forall t tr t' e, m t <> (tr, t', Raised (PyExc e)).

(** Every event of every run of [m] satisfies [Q]. *)
Definition shows (Q : event -> Prop) {A} (m : M A) : Prop :=
  forall t tr t' o, m t = (tr, t', o) -> Forall Q tr.

(** The domains for which [run_certbot] was entered, in order. *)
Fixpoint attempts (tr : list event) : list (option string) :=
  match tr with
  | [] => []
  | Print (PProvisioning fqdn) :: tr' => fqdn :: attempts tr'
  | _ :: tr' => attempts tr'
  end.

(** The command lines the external tool was started with, in order. *)
Fixpoint invocations (tr : list event) : list (list string) :=
  match tr with
  | [] => []
  | Call (CRun argv) :: tr' => argv :: invocations tr'
  | _ :: tr' => invocations tr'
  end.

(** The diagnostic lines printed for a failed job. *)
Fixpoint diagnostic (tr : list event) : list string :=
  match tr with
  | [] => []
  | Print (PErrorLine line) :: tr' => line :: diagnostic tr'
  | _ :: tr' => diagnostic tr'
  end.

(** [needle] occurs in [hay]. *)
Definition occurs (needle hay : string) : Prop :=
  exists a b, hay = a ++ needle ++ b.

(** [needle] occurs in [hay] when the case of letters is ignored. *)
Definition occurs_ignoring_case (needle hay : string) : Prop :=
  exists a m b, hay = a ++ m ++ b /\ PyStr.lower m = PyStr.lower needle.

(** The fixed part of the command line of one job. *)
Definition certbot_argv (email plugin creds_path fqdn : string) : list string :=
  ["certbot"; "certonly"; "--non-interactive"; "--agree-tos";
   "--email"; email; "--dns-" ++ plugin; "--dns-" ++ plugin ++ "-credentials";
   creds_path; "--keep-until-expiring"; "-d"; fqdn].

(** The plugin and the credential file of a provider key, as
    [run_certbot] computes them. *)
Definition plugin_of (provider_key : string) : string :=
  if PyStr.contains "cloudflare" (PyStr.lower provider_key)
  then "cloudflare" else "rfc2136".

Definition creds_path_of (provider_key : string) : string :=
  PosixPath.to_string (PosixPath.truediv SECRETS_DIR (provider_key ++ ".ini")).

(** What a verified hook adds to the command line. *)
Definition deploy_hook_args (hook_script : option string) (fqdn : string) : list string :=
  match hook_script with
  | Some h => ["--deploy-hook"; h ++ " " ++ fqdn]
  | None => []
  end.

(** The command line of a job whose three fields are strings. *)
Definition job_argv (fqdn provider_key email : string) (hook_script : option string)
  : list string :=
  app (certbot_argv email (plugin_of provider_key) (creds_path_of provider_key) fqdn)
      (deploy_hook_args hook_script fqdn).

(** A test of the file system that answered [True]. *)
Definition answered_true (answer : py_exception + bool) : bool :=
  match answer with
  | inr true => true
  | _ => false
  end.

(** Whether the hook given on the command line passes the check made at
    startup, at clock times 0 and 1. *)
Definition hook_verified (args : Args) (w : World) : bool :=
  match hook args with
  | Some h =>
      let p := PosixPath.to_string (PosixPath.of_string h) in
      negb (String.eqb h "") && answered_true (w_exists w 0 p)
      && answered_true (w_is_file w 1 p)
  | None => false
  end.

(** The path of the verified hook as [resolve] gave it at startup. *)
Definition resolved_hook (args : Args) (w : World) : string :=
  match hook args with
  | Some h =>
      match w_resolve w 2 (PosixPath.to_string (PosixPath.of_string h)) with
      | inr resolved => resolved
      | inl _ => ""
      end
  | None => ""
  end.

(** A row that supplies the three fields of a job. *)
Definition job_of_row (row : Csv.Row) : option (string * string * string) :=
  match Csv.dict_get row "fqdn", Csv.dict_get row "dns_provider",
        Csv.dict_get row "email" with
  | Some (Some f), Some (Some p), Some (Some e) => Some (f, p, e)
  | _, _, _ => None
  end.

Definition well_formed_row (row : Csv.Row) : Prop := job_of_row row <> None.

(** ** Reading the specification literally

    The definitions below follow the words of the specification rather
    than the code; they are what the code is compared with. *)
Module Spec.

(** "stderr split into lines" *)
Definition split_into_lines (s : string) : list string := PyStr.split PyStr.LF s.

(** "<secretsDir>/<providerKey>.ini" *)
Definition credential_path (secrets_dir provider_key : string) : string :=
  secrets_dir ++ "/" ++ provider_key ++ ".ini".

(** "the same row with the whitespace removed" *)
Definition without_surrounding_whitespace (field : string) : string :=
  PyStr.strip field.

End Spec.

(** ** Worlds and inputs used as examples *)

Module Ex.

Definition nl : string := String PyStr.LF "".

(** A command line: the list of domains, no hook, a cycle per hour. *)
Definition args : Args := mkArgs "/data/domains.csv" None 60.

(** The same with a hook. *)
Definition args_hook : Args := mkArgs "/data/domains.csv" (Some "hooks/reload.sh") 60.

(** Two jobs. *)
Definition two_rows : string :=
  "fqdn,dns_provider,email" ++ nl
  ++ "a.example.com,cloudflare,ops@example.com" ++ nl
  ++ "b.example.com,bind,ops@example.com" ++ nl.

(** The rows read from [two_rows]. *)
Definition row_a : Csv.Row :=
  [("fqdn", Some "a.example.com"); ("dns_provider", Some "cloudflare");
   ("email", Some "ops@example.com")].

Definition row_b : Csv.Row :=
  [("fqdn", Some "b.example.com"); ("dns_provider", Some "bind");
   ("email", Some "ops@example.com")].

(** The tool finds nothing to renew. *)
Definition not_due : CompletedProcess :=
  mkCompleted 0 "Certificate not yet due for renewal; no action taken." "".

(** A world where everything is in place and nothing ever happens. *)
Definition calm : World :=
  mkWorld (fun _ => None)
          (fun _ _ => inr "172.65.32.248")
          (fun _ _ => inr true)
          (fun _ _ => inr true)
          (fun _ p => inr ("/opt/" ++ p))
          (fun _ _ => inr (two_rows, None))
          (fun _ _ => inr not_due)
          (fun _ => 19064900482054%N).

(** [calm], with SIGTERM arriving at time [T]. *)
Definition signalled (T : nat) : World :=
  mkWorld (fun t => if Nat.eqb t T then Some SIGTERM else None)
          (w_gethostbyname calm) (w_exists calm) (w_is_file calm)
          (w_resolve calm) (w_open calm) (w_run calm) (w_monotonic calm).

(** [calm], without a name service. *)
Definition no_dns : World :=
  mkWorld (w_signal calm)
          (fun _ _ => inl (EnvironmentError "socket.gaierror"
                             "[Errno -3] Temporary failure in name resolution"))
          (w_exists calm) (w_is_file calm)
          (w_resolve calm) (w_open calm) (w_run calm) (w_monotonic calm).

End Ex.

(** ** Reading results *)

(** The events of a run. *)
Definition trace_of {A} (r : list event * nat * outcome A) : list event :=
  fst (fst r).

(** A run, with [tr0] shown before it. *)
Definition prepend {A} (tr0 : list event) (r : list event * nat * outcome A)
  : list event * nat * outcome A :=
  match r with (tr, t, o) => ((tr0 ++ tr)%list, t, o) end.

(** The name the service looks up at the start of every cycle. *)
Definition ACME_HOST : string := "acme-v02.api.letsencrypt.org".

(** What a cycle does once the list of domains is open: the rows, then
    the closing lines and the sleep until the next cycle. *)
Definition process_file (args : Args) (w : World) (hook_script : option string)
    (text : string) : M unit :=
  for_rows (Csv.DictReader (PyStr.text_lines_from text false))
           (process_row w hook_script) ;;
  print PCycleBanner ;;
  log (LCycleComplete (frequency args)) false ;;
  sleep w (frequency args * 60)%Z.

Module Ex5.

(** Neither a name service nor the list of domains. *)
Definition dark : World :=
  mkWorld (w_signal Ex.calm) (w_gethostbyname Ex.no_dns)
          (fun _ _ => inr false) (w_is_file Ex.calm)
          (w_resolve Ex.calm) (w_open Ex.calm) (w_run Ex.calm) (w_monotonic Ex.calm).

(** The list of domains is missing at times 0..2 and back afterwards. *)
Definition file_comes_back : World :=
  mkWorld (w_signal Ex.calm) (w_gethostbyname Ex.calm)
          (fun t _ => inr (Nat.ltb 2 t)) (w_is_file Ex.calm)
          (w_resolve Ex.calm) (w_open Ex.calm) (w_run Ex.calm) (w_monotonic Ex.calm).

End Ex5.

(** ** What one job shows *)

(** The marker certbot prints when a certificate is kept. *)
Definition NOT_YET_DUE : string := "Certificate not yet due".

(** The lines of a failed job: the log line, then the tool's error
    output as [run_certbot] cuts it up. *)
Definition failure_report (fqdn : string) (e_stderr : string) : list event :=
  (Log (LFailed (Some fqdn)) true
   :: map (fun line => Print (PErrorLine line))
          (PyStr.split PyStr.LF (PyStr.strip e_stderr)))%list.

(** What [run_certbot] shows after it has started the tool, and how it
    ends, from what the call to the tool answers. *)
Definition job_report (fqdn : string) (answer : py_exception + CompletedProcess)
  : list event * outcome unit :=
  match answer with
  | inr result =>
      if (returncode result =? 0)%Z then
        if PyStr.contains NOT_YET_DUE (stdout result)
        then ([Print PStatusValid; Print PSeparator], Normal tt)
        else ([Print PStatusIssued; Print PSeparator], Normal tt)
      else (app (failure_report fqdn (stderr result)) [Print PSeparator], Normal tt)
  | inl (CalledProcessError _ _ _ e_stderr) =>
      (app (failure_report fqdn e_stderr) [Print PSeparator], Normal tt)
  | inl e => ([], Raised (PyExc e))
  end.

(** The first lines of every job, up to the check of the credentials. *)
Definition job_head (fqdn provider_key : string) : list event :=
  [Print (PProvisioning (Some fqdn)); Print PSeparator;
   Call (CExists (creds_path_of provider_key))].

Module Ex2.

(** The tool fails and writes an indented message. *)
Definition indented_error : CompletedProcess :=
  mkCompleted 1 "" "  boom".

Definition failing : World :=
  mkWorld (w_signal Ex.calm) (w_gethostbyname Ex.calm) (w_exists Ex.calm)
          (w_is_file Ex.calm) (w_resolve Ex.calm) (w_open Ex.calm)
          (fun _ _ => inr indented_error) (w_monotonic Ex.calm).

End Ex2.

(** ** Assumptions on the world *)

(** No signal is ever delivered. *)
Definition never_signalled (w : World) : Prop := forall u, w_signal w u = None.

(** Every start of the tool runs to an exit code. *)
Definition tool_answers (w : World) : Prop :=
  forall u argv, exists result, w_run w u argv = inr result.

(** The domain of a row, when the row supplies a job. *)
Definition fqdn_of_row (row : Csv.Row) : option string :=
  match job_of_row row with
  | Some (fqdn, _, _) => Some fqdn
  | None => None
  end.

(** The events of a cycle up to the reading of the list of domains. *)
Definition cycle_head (args : Args) (csv_file : PosixPath.Path) : list event :=
  [Print PCycleBanner; Log (LCycleStart (frequency args)) false;
   Call (CGetHostByName ACME_HOST);
   Call (CExists (PosixPath.to_string csv_file));
   Log (LReading (PosixPath.name csv_file)) false;
   Call (COpen (PosixPath.to_string csv_file))].

(** An event is a start of the tool only with a command line in [P]. *)
Definition runs_only (P : list string -> Prop) (e : event) : Prop :=
  match e with
  | Call (CRun argv) => P argv
  | _ => True
  end.

(** The command lines [run_certbot] builds with a given hook. *)
Definition built_with (hook_script : option string) (argv : list string) : Prop :=
  exists fqdn key email, argv = job_argv fqdn key email hook_script.

Module Ex4.



End Ex4.

(** ** Writing a list of domains *)

(** [k] spaces. *)
Fixpoint spaces (k : nat) : string :=
  match k with
  | O => EmptyString
  | S k' => String " " (spaces k')
  end.

(** A character that needs no quoting: not the delimiter, not the quote
    character, not a line end. *)
Definition plain_char (c : ascii) : bool :=
  negb (Ascii.eqb c Csv.delimiter) && negb (Ascii.eqb c Csv.quotechar)
  && negb (Csv.is_newline c).

(** A field written without quotes. *)
Fixpoint plain_field (f : string) : bool :=
  match f with
  | EmptyString => true
  | String c f' => plain_char c && plain_field f'
  end.

(** Text without quote characters and line ends. *)
Definition unquoted_char (c : ascii) : bool :=
  negb (Ascii.eqb c Csv.quotechar) && negb (Csv.is_newline c).

Fixpoint unquoted (s : string) : bool :=
  match s with
  | EmptyString => true
  | String c s' => unquoted_char c && unquoted s'
  end.

(** Text that begins with a character other than a line end. *)
Definition starts_inside (s : string) : bool :=
  match s with
  | EmptyString => false
  | String c _ => negb (Csv.is_newline c)
  end.

(** Inside a line without quotes the reader is at the start of a
    record, at the start of a field or in a field. *)
Definition outside_quotes (r : Csv.Reader) : Prop :=
  Csv.state r = Csv.START_RECORD \/ Csv.state r = Csv.START_FIELD
  \/ Csv.state r = Csv.IN_FIELD.

(** A field that does not begin with a space. *)
Definition no_leading_space (f : string) : bool :=
  match f with
  | EmptyString => true
  | String c _ => negb (Ascii.eqb " " c)
  end.

(** A field that is written without quotes, does not begin with a space
    and is within the field size limit of the reader. *)
Definition tidy_field (f : string) : Prop :=
  plain_field f = true /\ no_leading_space f = true /\
  (N.of_nat (String.length f) <= Csv.field_limit)%N.

(** A record that makes a line of its own: at least one field, and not
    just one empty field (which would make a blank line). *)
Definition tidy_record (fs : list string) : Prop :=
  fs <> [] /\ fs <> [""] /\ Forall tidy_field fs.

(** A record as a line of the file: the fields joined by commas. *)
Definition render_record (fs : list string) : string :=
  PyStr.join "," fs ++ String PyStr.LF "".

(** A file: its records, one per line. *)
Definition render (records : list (list string)) : string :=
  String.concat "" (map render_record records).

(** A field written after [k] spaces. *)
Definition pad (kf : nat * string) : string := spaces (fst kf) ++ snd kf.

Module Ex9.

(** A row whose first field is followed by a space. *)
Definition trailing_space : string :=
  "fqdn,dns_provider,email" ++ Ex.nl
  ++ "a.example.com ,cloudflare,ops@example.com" ++ Ex.nl.

(** The same row without the space. *)
Definition no_space : string :=
  "fqdn,dns_provider,email" ++ Ex.nl
  ++ "a.example.com,cloudflare,ops@example.com" ++ Ex.nl.

(** The same row, every field written after spaces. *)
Definition leading_spaces : list (list (nat * string)) :=
  [[(0, "fqdn"); (1, "dns_provider"); (1, "email")];
   [(2, "a.example.com"); (1, "cloudflare"); (3, "ops@example.com")]].

End Ex9.

Module Ex3.


End Ex3.

(** ** A list of domains written from jobs *)

(** The header the service expects. *)
Definition HEADER : list string := ["fqdn"; "dns_provider"; "email"].

(** The record of a job. *)
Definition record_of_job (job : string * string * string) : list string :=
  match job with (fqdn, key, email) => [fqdn; key; email] end.

(** The file that lists [jobs] under the header. *)
Definition file_of_jobs (jobs : list (string * string * string)) : string :=
  render (HEADER :: map record_of_job jobs).

(* ================================================================= *)
(** ** Vocabulary of further properties *)

(** What the signal handler writes satisfies [Q]. *)
Definition handler_safe (Q : event -> Prop) : Prop :=
  Q (Print PBlank) /\ Q (Log LShutdown false) /\ forall s, Q (Signal s).

(** Every run of [m] keeps the measure [f] of its events within [n]. *)
Definition at_most (f : list event -> nat) (n : nat) {A} (m : M A) : Prop :=
  forall t tr t' o, m t = (tr, t', o) -> f tr <= n.

(** Every run of [m] shows events that satisfy [P] as a whole. *)
Definition traces (P : list event -> Prop) {A} (m : M A) : Prop :=
  forall t tr t' o, m t = (tr, t', o) -> P tr.

(** The number of starts of the tool, and of jobs entered. *)
Definition starts (tr : list event) : nat := List.length (invocations tr).
Definition entered (tr : list event) : nat := List.length (attempts tr).

(** An event other than a sleep. *)
Definition no_sleep (e : event) : Prop :=
  match e with
  | Call (CSleep _) => False
  | _ => True
  end.

(** The lengths of sleep the service asks for: the retry delay, or the
    configured interval when [time.sleep] accepts it. *)
Definition service_sleep (args : Args) (secs : Z) : Prop :=
  secs = RETRY_DELAY \/
  (secs = (frequency args * 60)%Z /\ (0 <= secs <= 9223372036)%Z).

(** A computation that, when it ends normally, has slept once, as the
    last thing it did, and that has not slept at all when it ends with an
    exception below [Exception]. *)
Definition sleeps_last (args : Args) {A} (m : M A) : Prop :=
  forall t tr t' o,
    m t = (tr, t', o) ->
    match o with
    | Normal _ =>
        exists tr0 secs,
          tr = (tr0 ++ [Call (CSleep secs)])%list /\ Forall no_sleep tr0 /\
          service_sleep args secs
    | Raised (PyExc _) => Forall no_sleep tr
    | Raised (SystemExit _) => True
    end.

(** A command line built for a job whose credential file the service
    has seen on disk at some time. *)
Definition credentials_seen (w : World) (argv : list string) : Prop :=
  exists t fqdn key email hook_script,
    argv = job_argv fqdn key email hook_script /\
    w_exists w t (creds_path_of key) = inr true.

Module ExF.

(** A command line with a negative frequency. *)
Definition negative : Args := mkArgs "/data/domains.csv" None (-5).

(** A command line with an interval of 9223372020 seconds, which passes
    the check of the argument of [time.sleep]. *)
Definition huge : Args := mkArgs "/data/domains.csv" None 153722867.

End ExF.


(** ** What the service asks of its environment *)

(** The path of the list of domains, as [Path(args.csv)] prints it. *)
Definition csv_path (args : Args) : string :=
  PosixPath.to_string (PosixPath.of_string (csv args)).

(** The path of the hook given on the command line. *)
Definition hook_path (args : Args) (p : string) : Prop :=
  exists h, hook args = Some h /\ h <> "" /\
            p = PosixPath.to_string (PosixPath.of_string h).

(** The events of the startup check: the hook is looked at, nothing
    else is asked. *)
Definition startup_event (args : Args) (e : event) : Prop :=
  match e with
  | Call (CExists p) | Call (CIsFile p) | Call (CResolve p) => hook_path args p
  | Call _ => False
  | _ => True
  end.

(** The events of the loop: one host is looked up, the list and the
    credential files are looked for, the list is opened, the tool is
    started on the command line of a job, and the process sleeps. *)
Definition loop_event (args : Args) (e : event) : Prop :=
  match e with
  | Call (CGetHostByName host) => host = ACME_HOST
  | Call (CExists p) => p = csv_path args \/ exists key, p = creds_path_of key
  | Call (COpen p) => p = csv_path args
  | Call (CRun argv) =>
      exists fqdn key email hook_script, argv = job_argv fqdn key email hook_script
  | Call (CSleep secs) => service_sleep args secs
  | Call _ => False
  | _ => True
  end.

(** ** Rows and columns *)

(** The position of the last column named [key] in a header. *)
Fixpoint last_column (fieldnames : list string) (key : string) : option nat :=
  match fieldnames with
  | [] => None
  | name :: rest =>
      match last_column rest key with
      | Some i => Some (S i)
      | None => if String.eqb name key then Some 0 else None
      end
  end.

(** Whether a header has a column of a name. *)
Definition has_column (fieldnames : list string) (name : string) : bool :=
  existsb (String.eqb name) fieldnames.

(** The first of "fqdn", "dns_provider", "email", in this order, that a
    header has no column for. *)
Definition first_missing (fieldnames : list string) : option string :=
  find (fun name => negb (has_column fieldnames name))
       ["fqdn"; "dns_provider"; "email"].

(** A record with at least one field. *)
Definition data_record (record : list string) : bool := negb (Csv.is_blank record).

Module ExR.

(** [Ex.calm], with [text] as the content of the list of domains. *)
Definition holding (text : string) : World :=
  mkWorld (w_signal Ex.calm) (w_gethostbyname Ex.calm) (w_exists Ex.calm)
          (w_is_file Ex.calm) (w_resolve Ex.calm) (fun _ _ => inr (text, None))
          (w_run Ex.calm) (w_monotonic Ex.calm).

(** [Ex.calm], where the reading of the list of domains fails after the
    line of the first job. *)
Definition cut_short : World :=
  mkWorld (w_signal Ex.calm) (w_gethostbyname Ex.calm) (w_exists Ex.calm)
          (w_is_file Ex.calm) (w_resolve Ex.calm)
          (fun _ _ =>
             inr ("fqdn,dns_provider,email" ++ Ex.nl
                  ++ "a.example.com,cloudflare,ops@example.com" ++ Ex.nl,
                  Some (EnvironmentError "UnicodeDecodeError"
                          "'utf-8' codec can't decode byte 0xff in position 8192: invalid start byte")))
          (w_run Ex.calm) (w_monotonic Ex.calm).

(** A list of domains with the column of the addresses alone. *)
Definition email_column_only : string :=
  "email" ++ Ex.nl
  ++ "ops@example.com" ++ Ex.nl.

(** A list of domains with the columns in another order, and one more. *)
Definition other_order : list string := ["email"; "note"; "fqdn"; "dns_provider"].

(** A list of domains whose second line is three spaces. *)
Definition line_of_spaces : string :=
  "fqdn,dns_provider,email" ++ Ex.nl
  ++ "a.example.com,cloudflare,ops@example.com" ++ Ex.nl
  ++ "   " ++ Ex.nl
  ++ "b.example.com,bind,ops@example.com" ++ Ex.nl.

End ExR.

(** A line of the list as it is written: blank, or a tidy record. *)
Definition written_line (record : list string) : Prop :=
  record = [] \/ tidy_record record.

Module ExB.

(** The two jobs of [Ex.two_rows] with blank lines around them. *)
Definition spaced_out : list (list string) :=
  [[]; ["a.example.com"; "cloudflare"; "ops@example.com"]; []; [];
   ["b.example.com"; "bind"; "ops@example.com"]; []].

End ExB.

(** ** Line ends *)

(** [s] saved with CR LF line ends: every LF becomes CR LF. *)
Fixpoint to_crlf (s : string) : string :=
  match s with
  | EmptyString => EmptyString
  | String c s' =>
      if Ascii.eqb c PyStr.LF then String PyStr.CR (String PyStr.LF (to_crlf s'))
      else String c (to_crlf s')
  end.

(** ** Errors of the reader *)

(** The error of a field that outgrows the field size limit. *)
Definition limit_error : py_exception :=
  CsvError "field larger than field limit (131072)".

(** Text without line ends. *)
Fixpoint no_line_end (s : string) : bool :=
  match s with
  | EmptyString => true
  | String c s' => negb (Csv.is_newline c) && no_line_end s'
  end.

(** A line as a text-mode file yields it: no CR, and no LF but at its
    end. *)
Definition text_line (line : string) : Prop :=
  exists body,
    no_line_end body = true /\
    (line = body \/ line = body ++ String PyStr.LF "").

(** The number of characters of a list of lines. *)
Fixpoint total_length (lines : list string) : nat :=
  match lines with
  | [] => 0
  | line :: rest => String.length line + total_length rest
  end.

(** The reader between two characters of a line. *)
Definition inside_a_line (r : Csv.Reader) : Prop := Csv.state r <> Csv.EAT_CRNL.

Module ExL.

(** A list of domains whose only line is one field of [n] letters. *)
Fixpoint letters (n : nat) : string :=
  match n with
  | O => EmptyString
  | S n' => String "a" (letters n')
  end.

End ExL.

(** ** The sleeps of a run *)

(** The lengths of the sleeps the process asked for, in order. *)
Fixpoint sleeps (tr : list event) : list Z :=
  match tr with
  | [] => []
  | Call (CSleep secs) :: tr' => secs :: sleeps tr'
  | _ :: tr' => sleeps tr'
  end.

(** ** Sleeps the system accepts *)

(** A sleep of [secs] seconds that starts at [t] is accepted: the
    interval is not negative and its deadline fits the clock. *)
Definition accepted_sleep (w : World) (t : nat) (secs : Z) : Prop :=
  (0 <= secs)%Z /\ (deadline w secs t <= INT64_MAX)%Z.

(** ** The startup check *)

(** The startup check of the hook raises nothing: the process reaches
    the loop, unless a signal ends it before. *)
Definition startup_passes (args : Args) (w : World) : Prop :=
  forall tr t e, verify_hook args w 0 <> (tr, t, Raised (PyExc e)).

Module ExH.

(** The longest name of a file the file system takes. *)
Definition NAME_MAX : nat := 255.

(** [Ex.calm] on a file system that answers a test of a path whose last
    component is longer than [NAME_MAX] with ENAMETOOLONG. *)
Definition name_limit : World :=
  mkWorld (w_signal Ex.calm) (w_gethostbyname Ex.calm)
          (fun _ p =>
             if Nat.ltb NAME_MAX (String.length (PosixPath.name (PosixPath.parse p)))
             then inl (EnvironmentError "OSError" "[Errno 36] File name too long")
             else inr true)
          (w_is_file Ex.calm) (w_resolve Ex.calm) (w_open Ex.calm) (w_run Ex.calm)
          (w_monotonic Ex.calm).

(** A command line whose hook has a name of 300 letters. *)
Definition long_hook : Args :=
  mkArgs "/data/domains.csv" (Some ("/opt/hooks/" ++ ExL.letters 300)) 60.

(** A row whose provider key has 300 letters. *)
Definition row_long_key : Csv.Row :=
  [("fqdn", Some "a.example.com"); ("dns_provider", Some (ExL.letters 300));
   ("email", Some "ops@example.com")].

End ExH.

(** Every test for a file is answered, with [True] or with [False]. *)
Definition lookups_answer (w : World) : Prop :=
  forall u p, exists b, w_exists w u p = inr b.

Module ExP.

(** [Ex.calm] with a secrets directory the service may not search:
    every test of a path below it raises [PermissionError]. *)
Definition locked_secrets : World :=
  mkWorld (w_signal Ex.calm) (w_gethostbyname Ex.calm)
          (fun _ p =>
             if PyStr.startswith "/etc/letsencrypt/secrets/" p
             then inl (EnvironmentError "PermissionError"
                         ("[Errno 13] Permission denied: '" ++ p ++ "'"))
             else inr true)
          (w_is_file Ex.calm) (w_resolve Ex.calm) (w_open Ex.calm) (w_run Ex.calm)
          (w_monotonic Ex.calm).

End ExP.
(* ================================================================= *)
(** * Properties *)

(** ** The computation monad *)

Section MonadFacts.

Context {A B : Type}.

Lemma bind_normal (m : M A) (k : A -> M B) t tr t1 a :
  m t = (tr, t1, Normal a) ->
  bind m k t = (let '(tr2, t2, o) := k a t1 in ((tr ++ tr2)%list, t2, o)).
Proof. intros H. unfold bind. rewrite H. destruct (k a t1) as [[? ?] ?]. reflexivity. Qed.

Lemma bind_prepend (m : M A) (k : A -> M B) t tr t1 a :
  m t = (tr, t1, Normal a) -> bind m k t = prepend tr (k a t1).
Proof. intros H. unfold bind, prepend. rewrite H. reflexivity. Qed.

Lemma bind_raised (m : M A) (k : A -> M B) t tr t1 x :
  m t = (tr, t1, Raised x) -> bind m k t = (tr, t1, Raised x).
Proof. intros H. unfold bind. rewrite H. reflexivity. Qed.

Lemma bind_inv (m : M A) (k : A -> M B) t tr t' o :
  bind m k t = (tr, t', o) ->
  (exists x, m t = (tr, t', Raised x) /\ o = Raised x) \/
  (exists tr1 t1 a tr2,
      m t = (tr1, t1, Normal a) /\ k a t1 = (tr2, t', o) /\ tr = (tr1 ++ tr2)%list).
Proof.
  unfold bind. destruct (m t) as [[tr1 t1] [a | x]].
  - destruct (k a t1) as [[tr2 t2] o2] eqn:E. intros H. inversion H; subst.
    right. exists tr1, t1, a, tr2. auto.
  - intros H. inversion H; subst. left. exists x. auto.
Qed.

End MonadFacts.

Lemma bind_emit {B} e (k : unit -> M B) t :
  bind (emit e) k t = prepend [e] (k tt t).
Proof. reflexivity. Qed.

Lemma bind_clock {B} (k : nat -> M B) t : bind clock k t = k t t.
Proof. unfold bind, clock. destruct (k t t) as [[tr t'] o]. reflexivity. Qed.

Lemma prepend_prepend {A} tr1 tr2 (r : list event * nat * outcome A) :
  prepend tr1 (prepend tr2 r) = prepend (tr1 ++ tr2)%list r.
Proof. destruct r as [[tr t] o]. simpl. now rewrite app_assoc. Qed.

Lemma prepend_nil {A} (r : list event * nat * outcome A) : prepend [] r = r.
Proof. destruct r as [[tr t] o]. reflexivity. Qed.

Lemma try_except_inv {A} (body : M A) catch t tr t' o :
  try_except body catch t = (tr, t', o) ->
  (body t = (tr, t', o) /\
   match o with Raised (PyExc e) => catch e = None | _ => True end) \/
  (exists tr1 t1 e handler tr2,
      body t = (tr1, t1, Raised (PyExc e)) /\ catch e = Some handler /\
      handler t1 = (tr2, t', o) /\ tr = (tr1 ++ tr2)%list).
Proof.
  unfold try_except. destruct (body t) as [[tr1 t1] [a | [e | c]]].
  - intros H. inversion H; subst. left. auto.
  - destruct (catch e) as [handler |] eqn:C.
    + destruct (handler t1) as [[tr2 t2] o2] eqn:E. intros H. inversion H; subst.
      right. exists tr1, t1, e, handler, tr2. auto.
    + intros H. inversion H; subst. left. auto.
  - intros H. inversion H; subst. left. auto.
Qed.

(** ** Calls into the world *)

Section WorldFacts.

Variable w : World.

Lemma world_call_quiet {A} (c : call) (answer : nat -> py_exception + A) t :
  w_signal w t = None ->
  world_call w c answer t =
  ([Call c], S t,
   match answer t with inl e => Raised (PyExc e) | inr a => Normal a end).
Proof.
  intros H. unfold world_call, bind, emit, tick. rewrite H.
  destruct (answer t); reflexivity.
Qed.

Lemma world_call_signal {A} (c : call) (answer : nat -> py_exception + A) t s :
  w_signal w t = Some s ->
  world_call w c answer t = (shutdown_tail c s, S t, Raised (SystemExit 0)).
Proof.
  intros H. unfold world_call, bind, emit, tick. rewrite H. reflexivity.
Qed.

Lemma world_call_returned {A} (c : call) (answer : nat -> py_exception + A)
    t tr t' a :
  world_call w c answer t = (tr, t', Normal a) ->
  w_signal w t = None /\ answer t = inr a /\ tr = [Call c] /\ t' = S t.
Proof.
  intros H. destruct (w_signal w t) as [s |] eqn:S.
  - rewrite (world_call_signal _ _ _ s S) in H. discriminate H.
  - rewrite (world_call_quiet _ _ _ S) in H.
    destruct (answer t) as [e | a0]; inversion H; subst. auto.
Qed.

Lemma world_call_raised {A} (c : call) (answer : nat -> py_exception + A)
    t tr t' e :
  world_call w c answer t = (tr, t', Raised (PyExc e)) ->
  w_signal w t = None /\ answer t = inl e /\ tr = [Call c] /\ t' = S t.
Proof.
  intros H. destruct (w_signal w t) as [s |] eqn:S.
  - rewrite (world_call_signal _ _ _ s S) in H. discriminate H.
  - rewrite (world_call_quiet _ _ _ S) in H.
    destruct (answer t) as [e0 | a0]; inversion H; subst. auto.
Qed.

Lemma bind_call_returns {A B} c (answer : nat -> py_exception + A)
    (k : A -> M B) t a :
  w_signal w t = None -> answer t = inr a ->
  bind (world_call w c answer) k t = prepend [Call c] (k a (S t)).
Proof.
  intros Hs Ha. unfold bind. rewrite (world_call_quiet _ _ _ Hs), Ha. reflexivity.
Qed.

Lemma bind_call_raises {A B} c (answer : nat -> py_exception + A)
    (k : A -> M B) t e :
  w_signal w t = None -> answer t = inl e ->
  bind (world_call w c answer) k t = ([Call c], S t, Raised (PyExc e)).
Proof.
  intros Hs Ha. unfold bind. rewrite (world_call_quiet _ _ _ Hs), Ha. reflexivity.
Qed.

Lemma bind_call_first {A B} c (answer : nat -> py_exception + A) (k : A -> M B) t :
  exists tr t' o, bind (world_call w c answer) k t = (Call c :: tr, t', o).
Proof.
  unfold bind. destruct (w_signal w t) as [s |] eqn:Hs.
  - rewrite (world_call_signal _ _ _ _ Hs). do 3 eexists. reflexivity.
  - rewrite (world_call_quiet _ _ _ Hs).
    destruct (answer t) as [e | a]; [do 3 eexists; reflexivity |].
    destruct (k a (S t)) as [[tr2 t2] o2]. do 3 eexists. reflexivity.
Qed.

Lemma quiet_nil t : quiet w t t.
Proof. intros u Hu. lia. Qed.

Lemma quiet_one t : w_signal w t = None -> quiet w t (S t).
Proof. intros H u Hu. assert (u = t) by lia. subst. exact H. Qed.

Lemma quiet_app a b c : quiet w a b -> quiet w b c -> quiet w a c.
Proof.
  intros H1 H2 u Hu. destruct (Nat.lt_ge_cases u b); [apply H1 | apply H2]; lia.
Qed.

Lemma quiet_sub a b a' b' : quiet w a b -> a <= a' -> b' <= b -> quiet w a' b'.
Proof. intros H ? ? u Hu. apply H. lia. Qed.

Lemma exits_by_signal_later t0 t tr0 tr t' :
  t0 <= t -> quiet w t0 t -> exits_by_signal w t tr t' ->
  exits_by_signal w t0 (tr0 ++ tr)%list t'.
Proof.
  intros Hle Hq (u & s & tr1 & c & -> & Hu & Hq' & Hs & ->).
  exists u, s, (tr0 ++ tr1)%list, c. repeat split; auto; try lia.
  - eapply quiet_app; eauto.
  - now rewrite app_assoc.
Qed.

(** *** Tameness is kept by every construction of the service *)

Lemma tame_ret {A} (a : A) : tame w (ret a).
Proof. intros t tr t' o H. inversion H; subst. split; [lia | apply quiet_nil]. Qed.

Lemma tame_emit e : tame w (emit e).
Proof. intros t tr t' o H. inversion H; subst. split; [lia | apply quiet_nil]. Qed.

Lemma tame_raise {A} e : tame w (@raise A e).
Proof. intros t tr t' o H. inversion H; subst. split; [lia | apply quiet_nil]. Qed.

Lemma tame_clock : tame w clock.
Proof. intros t tr t' o H. inversion H; subst. split; [lia | apply quiet_nil]. Qed.

Lemma tame_world_call {A} c (answer : nat -> py_exception + A) :
  tame w (world_call w c answer).
Proof.
  intros t tr t' o H. destruct (w_signal w t) as [s |] eqn:S.
  - rewrite (world_call_signal _ _ _ _ S) in H. inversion H; subst.
    split; [lia |]. split; [reflexivity |].
    exists t, s, [], c. repeat split; auto. apply quiet_nil.
  - rewrite (world_call_quiet _ _ _ S) in H. inversion H; subst.
    split; [lia |]. destruct (answer t); apply quiet_one; exact S.
Qed.

Lemma tame_bind {A B} (m : M A) (k : A -> M B) :
  tame w m -> (forall a, tame w (k a)) -> tame w (bind m k).
Proof.
  intros Hm Hk t tr t' o H. apply bind_inv in H.
  destruct H as [(x & H & ->) | (tr1 & t1 & a & tr2 & H1 & H2 & ->)].
  - apply Hm in H. exact H.
  - apply Hm in H1. apply Hk in H2. destruct H1 as [L1 Q1], H2 as [L2 Q2].
    split; [lia |].
    destruct o as [b | [e | c]].
    + eapply quiet_app; eauto.
    + eapply quiet_app; eauto.
    + destruct Q2 as [-> Q2]. split; [reflexivity |].
      eapply exits_by_signal_later; eauto.
Qed.

Lemma tame_try_except {A} (body : M A) catch :
  tame w body ->
  (forall e handler, catch e = Some handler -> tame w handler) ->
  tame w (try_except body catch).
Proof.
  intros Hb Hc t tr t' o H. apply try_except_inv in H.
  destruct H as [[H _] | (tr1 & t1 & e & handler & tr2 & H1 & C & H2 & ->)].
  - apply Hb in H. exact H.
  - apply Hb in H1. apply (Hc _ _ C) in H2. destruct H1 as [L1 Q1], H2 as [L2 Q2].
    split; [lia |].
    destruct o as [b | [e' | c]].
    + eapply quiet_app; eauto.
    + eapply quiet_app; eauto.
    + destruct Q2 as [-> Q2]. split; [reflexivity |].
      eapply exits_by_signal_later; eauto.
Qed.

Lemma tame_for_each {X} (xs : list X) body :
  (forall x, tame w (body x)) -> tame w (for_each xs body).
Proof.
  intros Hb. induction xs as [| x xs IH]; simpl.
  - apply tame_ret.
  - apply tame_bind; auto.
Qed.

End WorldFacts.

(** ** The service is tame *)

Ltac tame_step :=
  match goal with
  | |- tame _ (bind _ _) => apply tame_bind; [| intros ?]
  | |- tame _ (ret _) => apply tame_ret
  | |- tame _ (emit _) => apply tame_emit
  | |- tame _ (print _) => apply tame_emit
  | |- tame _ (log _ _) => apply tame_emit
  | |- tame _ (raise _) => apply tame_raise
  | |- tame _ clock => apply tame_clock
  | |- tame _ (world_call _ _ _) => apply tame_world_call
  | |- tame _ (for_each _ _) => apply tame_for_each; intros ?
  | |- tame _ (match ?x with _ => _ end) => destruct x
  | |- tame _ (let _ := _ in _) => cbv zeta
  end.

Section ServiceIsTame.

Variable args : Args.
Variable w : World.

Lemma tame_sleep secs : tame w (sleep w secs).
Proof. unfold sleep. repeat tame_step. Qed.

Lemma tame_subprocess_run cmd : tame w (subprocess_run w cmd).
Proof. unfold subprocess_run. repeat tame_step. Qed.

Lemma tame_run_certbot fqdn provider_key email hook_script :
  tame w (run_certbot w fqdn provider_key email hook_script).
Proof.
  unfold run_certbot, path_exists. repeat tame_step.
  apply tame_try_except.
  - apply tame_bind; [apply tame_subprocess_run | intros ?]. repeat tame_step.
  - intros e handler H. destruct e; simpl in H; try discriminate.
    inversion H; subst. repeat tame_step.
Qed.

Lemma tame_process_row hook_script row : tame w (process_row w hook_script row).
Proof.
  unfold process_row, getitem. repeat tame_step; apply tame_run_certbot.
Qed.

Lemma tame_for_rows reader hook_script :
  tame w (for_rows reader (process_row w hook_script)).
Proof.
  unfold for_rows. repeat tame_step. apply tame_process_row.
Qed.

Lemma tame_cycle_body csv_file hook_script :
  tame w (cycle_body args w csv_file hook_script).
Proof.
  unfold cycle_body, gethostbyname, path_exists, path_open.
  repeat tame_step; try apply tame_sleep. apply tame_for_rows.
Qed.

Lemma tame_cycle csv_file hook_script : tame w (cycle args w csv_file hook_script).
Proof.
  unfold cycle. apply tame_try_except; [apply tame_cycle_body |].
  intros e handler H. inversion H; subst. repeat tame_step. apply tame_sleep.
Qed.

Lemma tame_service_loop n csv_file hook_script :
  tame w (service_loop args w n csv_file hook_script).
Proof.
  induction n as [| n IH]; simpl; repeat tame_step; auto. apply tame_cycle.
Qed.

Lemma tame_verify_hook : tame w (verify_hook args w).
Proof.
  unfold verify_hook, path_exists, path_is_file, path_resolve. repeat tame_step.
Qed.

Lemma tame_main n : tame w (main args w n).
Proof.
  unfold main, main_service. repeat tame_step.
  - apply tame_verify_hook.
  - apply tame_service_loop.
Qed.

(** *** No exception leaves a turn of the loop *)

Lemma monotonic_ns_bounds t :
  (0 <= monotonic_ns w t <= Z.of_N UPTIME_MAX)%Z.
Proof. unfold monotonic_ns. lia. Qed.

(** A sleep the system accepts is a wait. *)
Lemma sleep_accepted secs t :
  accepted_sleep w t secs ->
  sleep w secs t = world_call w (CSleep secs) (fun _ => inr tt) t.
Proof.
  intros [H0 H1]. pose proof (monotonic_ns_bounds t) as B.
  unfold deadline, INT64_MAX in H1. unfold sleep.
  replace (Z.abs secs >? 9223372036)%Z with false
    by (symmetry; rewrite Z.gtb_ltb; apply Z.ltb_ge; lia).
  replace (secs <? 0)%Z with false by (symmetry; apply Z.ltb_ge; lia).
  unfold bind, clock.
  replace (INT64_MAX <? deadline w secs t)%Z with false
    by (symmetry; apply Z.ltb_ge; unfold deadline, INT64_MAX; lia).
  destruct (world_call w (CSleep secs) (fun _ => inr tt) t) as [[tr t'] o].
  reflexivity.
Qed.

(** The retry delay is accepted at any time. *)
Lemma retry_delay_accepted t : accepted_sleep w t RETRY_DELAY.
Proof.
  pose proof (monotonic_ns_bounds t) as B. unfold UPTIME_MAX in B.
  unfold accepted_sleep, deadline, INT64_MAX, RETRY_DELAY. cbn [Z.of_N] in B. lia.
Qed.

Lemma sleep_retry_delay t :
  sleep w RETRY_DELAY t =
  match w_signal w t with
  | Some s => (shutdown_tail (CSleep RETRY_DELAY) s, S t, Raised (SystemExit 0))
  | None => ([Call (CSleep RETRY_DELAY)], S t, Normal tt)
  end.
Proof.
  rewrite (sleep_accepted _ _ (retry_delay_accepted t)).
  destruct (w_signal w t) eqn:S.
  - now rewrite (world_call_signal _ _ _ _ _ S).
  - now rewrite (world_call_quiet _ _ _ _ S).
Qed.

(** The handler under [except Exception]. *)
Lemma handler_run e t :
  (log (LRuntimeException e) true ;; sleep w RETRY_DELAY) t =
  match w_signal w t with
  | Some s =>
      (Log (LRuntimeException e) true :: shutdown_tail (CSleep RETRY_DELAY) s,
       S t, Raised (SystemExit 0))
  | None =>
      ([Log (LRuntimeException e) true; Call (CSleep RETRY_DELAY)], S t, Normal tt)
  end.
Proof.
  unfold bind, log, emit. rewrite sleep_retry_delay.
  destruct (w_signal w t); reflexivity.
Qed.

Lemma cycle_contained csv_file hook_script :
  contained (cycle args w csv_file hook_script).
Proof.
  intros t tr t' e H. unfold cycle in H. apply try_except_inv in H.
  destruct H as [[_ H] | (tr1 & t1 & e1 & handler & tr2 & _ & C & H & _)].
  - discriminate H.
  - inversion C; subst. rewrite handler_run in H.
    destruct (w_signal w t1); discriminate H.
Qed.

(** *** Every turn of the loop takes time *)

Lemma world_call_progress {A} c (answer : nat -> py_exception + A) t tr t' o :
  world_call w c answer t = (tr, t', o) -> t' = S t.
Proof.
  intros H. destruct (w_signal w t) eqn:S.
  - rewrite (world_call_signal _ _ _ _ _ S) in H. now inversion H.
  - rewrite (world_call_quiet _ _ _ _ S) in H. now inversion H.
Qed.

Lemma cycle_body_progress csv_file hook_script t tr t' o :
  cycle_body args w csv_file hook_script t = (tr, t', o) -> t < t'.
Proof.
  unfold cycle_body. intros H.
  apply bind_inv in H. destruct H as [(? & H & _) | (? & ta & ? & ? & H1 & H & _)];
    [discriminate H |].
  assert (ta = t) by (now inversion H1). subst ta. clear H1.
  apply bind_inv in H. destruct H as [(? & H & _) | (? & tb & ? & ? & H1 & H & _)];
    [discriminate H |].
  assert (tb = t) by (now inversion H1). subst tb. clear H1.
  apply bind_inv in H. destruct H as [(? & H & _) | (? & tc & ? & ? & H1 & H & _)].
  - apply world_call_progress in H. lia.
  - apply world_call_progress in H1. subst tc.
    match type of H with
    | ?m _ = _ => assert (T : tame w m)
    end.
    { unfold path_exists, path_open. repeat tame_step; try apply tame_sleep.
      apply tame_for_rows. }
    apply T in H. lia.
Qed.

Lemma cycle_progress csv_file hook_script t tr t' o :
  cycle args w csv_file hook_script t = (tr, t', o) -> t < t'.
Proof.
  unfold cycle. intros H. apply try_except_inv in H.
  destruct H as [[H _] | (tr1 & t1 & e & handler & tr2 & H1 & C & H2 & _)].
  - eapply cycle_body_progress; eauto.
  - apply cycle_body_progress in H1. inversion C; subst.
    rewrite handler_run in H2. destruct (w_signal w t1); inversion H2; lia.
Qed.

(** *** The loop *)

Lemma service_loop_spec n csv_file hook_script t tr t' o :
  service_loop args w n csv_file hook_script t = (tr, t', o) ->
  (o = Normal tt /\ quiet w t t' /\ t + n <= t') \/
  (o = Raised (SystemExit 0) /\ exits_by_signal w t tr t').
Proof.
  revert t tr t' o. induction n as [| n IH]; intros t tr t' o H; simpl in H.
  - inversion H; subst. left. repeat split; [apply quiet_nil | lia].
  - apply bind_inv in H.
    destruct H as [(x & H & ->) | (tr1 & t1 & a & tr2 & H1 & H2 & ->)].
    + destruct x as [e | c].
      * exfalso. eapply cycle_contained; eauto.
      * apply tame_cycle in H. destruct H as [_ [-> H]]. right. auto.
    + pose proof (cycle_progress _ _ _ _ _ _ H1) as P.
      apply tame_cycle in H1. destruct H1 as [_ Q1]. simpl in Q1.
      apply IH in H2. destruct H2 as [(-> & Q2 & L) | (-> & E)].
      * left. repeat split; [eapply quiet_app; eauto | lia].
      * right. split; [reflexivity |].
        apply exits_by_signal_later with (t := t1); [lia | exact Q1 | exact E].
Qed.

(** The shape of a run of the whole program. *)
Lemma main_inv n tr t' o :
  main args w n 0 = (tr, t', o) ->
  exists trh th,
    (exists x, verify_hook args w 0 = (trh, th, Raised x) /\ o = Raised x /\
               t' = th /\ tr = (Print PStars :: Print PLoaded :: Print PStars :: trh)) \/
    (exists hook_script tr2,
        verify_hook args w 0 = (trh, th, Normal hook_script) /\
        service_loop args w n (PosixPath.of_string (csv args)) hook_script th
        = (tr2, t', o) /\
        tr = (Print PStars :: Print PLoaded :: Print PStars :: trh ++ tr2)%list).
Proof.
  unfold main, main_service, bind, print, emit. simpl.
  destruct (verify_hook args w 0) as [[trh th] [hk | x]] eqn:V.
  - destruct (service_loop args w n _ hk th) as [[tr2 t2] o2] eqn:L.
    intros H. inversion H; subst. exists trh, th. right. exists hk, tr2. auto.
  - intros H. inversion H; subst. exists trh, t'. left. exists x. auto.
Qed.

(** The whole program: after [n] turns it either still runs, no signal
    having arrived, or it was ended by the handler, or the startup check
    raised before the first turn. *)
Lemma main_spec n tr t' o :
  main args w n 0 = (tr, t', o) ->
  (o = Normal tt /\ quiet w 0 t' /\ n <= t') \/
  (o = Raised (SystemExit 0) /\ exits_by_signal w 0 tr t') \/
  (exists e trh,
      o = Raised (PyExc e) /\ quiet w 0 t' /\
      verify_hook args w 0 = (trh, t', Raised (PyExc e)) /\
      tr = Print PStars :: Print PLoaded :: Print PStars :: trh).
Proof.
  intros H. pose proof (tame_main n _ _ _ _ H) as [_ T].
  apply main_inv in H.
  destruct H as (trh & th & [(x & V & -> & -> & ->) | (hk & tr2 & V & L & ->)]).
  - destruct x as [e | c].
    + right. right. exists e, trh. auto.
    + right. left. destruct T as [-> T]. auto.
  - apply tame_verify_hook in V. destruct V as [V _].
    apply service_loop_spec in L. destruct L as [(-> & _ & L) | (-> & _)].
    + left. repeat split; [exact T | lia].
    + right. left. destruct T as [_ T]. auto.
Qed.

(** When the startup check passes, the third case does not arise. *)
Lemma main_spec_started n tr t' o :
  startup_passes args w ->
  main args w n 0 = (tr, t', o) ->
  (o = Normal tt /\ quiet w 0 t' /\ n <= t') \/
  (o = Raised (SystemExit 0) /\ exits_by_signal w 0 tr t').
Proof.
  intros P H. apply main_spec in H.
  destruct H as [H | [H | (e & trh & _ & _ & V & _)]]; [left; exact H | right; exact H |].
  now elim (P _ _ _ V).
Qed.

End ServiceIsTame.

(* ================================================================= *)
(** ** The loop survives every error (C1) *)

Lemma cycle_catches (args : Args) (w : World) csv_file hook_script t tr t' e :
  cycle_body args w csv_file hook_script t = (tr, t', Raised (PyExc e)) ->
  cycle args w csv_file hook_script t =
  match w_signal w t' with
  | None =>
      ((tr ++ [Log (LRuntimeException e) true; Call (CSleep RETRY_DELAY)])%list,
       S t', Normal tt)
  | Some s =>
      ((tr ++ Log (LRuntimeException e) true
           :: shutdown_tail (CSleep RETRY_DELAY) s)%list,
       S t', Raised (SystemExit 0))
  end.
Proof.
  intros H. unfold cycle, try_except. rewrite H. simpl. rewrite handler_run.
  destruct (w_signal w t'); reflexivity.
Qed.

(** C1, as amended.  Whatever the world answers and however many errors
    occur, an exception raised inside the [try] block of a cycle is
    caught by [except Exception]: the cycle logs it and then sleeps
    [RETRY_DELAY] seconds (a signal may cut that sleep), and no
    exception ever leaves a turn of the loop.  So once the service loop
    has been entered it is only left through the signal handler: after
    any number of turns the loop is still turning or was ended by a
    signal, and a process whose startup check of the hook has passed
    either still runs or has exited with code 0 after a signal was
    delivered. *)
Theorem C1_errors_never_end_the_service (args : Args) (w : World) :
  (forall csv_file hook_script t tr t' e,
      cycle_body args w csv_file hook_script t = (tr, t', Raised (PyExc e)) ->
      cycle args w csv_file hook_script t =
      match w_signal w t' with
      | None =>
          ((tr ++ [Log (LRuntimeException e) true; Call (CSleep RETRY_DELAY)])%list,
           S t', Normal tt)
      | Some s =>
          ((tr ++ Log (LRuntimeException e) true
               :: shutdown_tail (CSleep RETRY_DELAY) s)%list,
           S t', Raised (SystemExit 0))
      end) /\
  (forall csv_file hook_script t tr t' e,
      cycle args w csv_file hook_script t <> (tr, t', Raised (PyExc e))) /\
  (forall n csv_file hook_script t tr t' o,
      service_loop args w n csv_file hook_script t = (tr, t', o) ->
      (o = Normal tt /\ quiet w t t') \/
      (o = Raised (SystemExit 0) /\ exits_by_signal w t tr t')) /\
  (forall n,
      startup_passes args w ->
      snd (run_process args w n) = Running \/
      (snd (run_process args w n) = Exited 0 /\ exists u s, w_signal w u = Some s)).
Proof.
  split; [| split; [| split]].
  - intros csv_file hook_script t tr t' e H. apply cycle_catches. exact H.
  - intros csv_file hook_script. apply cycle_contained.
  - intros n csv_file hook_script t tr t' o H. apply service_loop_spec in H.
    destruct H as [(-> & Q & _) | H]; [left; auto | right; exact H].
  - intros n P. unfold run_process.
    destruct (main args w n 0) as [[tr t'] o] eqn:H.
    apply (main_spec_started args w n _ _ _ P) in H.
    destruct H as [(-> & _) | (-> & E)]; simpl.
    + left. reflexivity.
    + right. split; [reflexivity |].
      destruct E as (u & s & _ & _ & _ & _ & _ & S & _). eauto.
Qed.

(** Without a hook the startup check asks nothing. *)
Lemma startup_passes_without_hook (args : Args) (w : World) :
  hook args = None -> startup_passes args w.
Proof.
  intros H tr t e. unfold verify_hook. rewrite H. discriminate.
Qed.

(** An instance: without a name service every cycle ends in the handler,
    and the next one starts a minute later; the process goes on. *)
Lemma C1_errors_never_end_the_service_witness :
  cycle Ex.args Ex.no_dns (PosixPath.of_string "/data/domains.csv") None 0 =
  ([Print PCycleBanner; Log (LCycleStart 60) false;
    Call (CGetHostByName "acme-v02.api.letsencrypt.org");
    Log (LRuntimeException
           (EnvironmentError "socket.gaierror"
              "[Errno -3] Temporary failure in name resolution")) true;
    Call (CSleep 60)], 2, Normal tt) /\
  (snd (run_process Ex.args Ex.no_dns 3) = Running \/
   (snd (run_process Ex.args Ex.no_dns 3) = Exited 0 /\
    exists u s, w_signal Ex.no_dns u = Some s)).
Proof.
  split.
  - exact (proj1 (C1_errors_never_end_the_service Ex.args Ex.no_dns)
             _ None 0 _ _ _ eq_refl).
  - apply (proj2 (proj2 (proj2 (C1_errors_never_end_the_service Ex.args Ex.no_dns))) 3).
    intros tr t e H. discriminate H.
Defined.

(** C1 as the specification states it fails before the loop is entered: the
    startup check of the hook is outside every [try], and a hook whose
    name the file system rejects ends the process with code 1 although
    no signal ever arrives. *)
Lemma C1_counterexample :
  (forall u, w_signal ExH.name_limit u = None) /\
  run_process ExH.long_hook ExH.name_limit 3 =
  ([Print PStars; Print PLoaded; Print PStars;
    Call (CExists ("/opt/hooks/" ++ ExL.letters 300))], Exited 1) /\
  ~ (snd (run_process ExH.long_hook ExH.name_limit 3) = Running \/
     (snd (run_process ExH.long_hook ExH.name_limit 3) = Exited 0 /\
      exists u s, w_signal ExH.name_limit u = Some s)).
Proof.
  assert (R : run_process ExH.long_hook ExH.name_limit 3 =
              ([Print PStars; Print PLoaded; Print PStars;
                Call (CExists ("/opt/hooks/" ++ ExL.letters 300))], Exited 1))
    by (vm_compute; reflexivity).
  split; [intros u; reflexivity |]. split; [exact R |].
  rewrite R. cbn [snd]. intros [H | [H _]]; discriminate H.
Qed.

(* ================================================================= *)
(** ** Signals (C7) *)



(** SIGTERM during the sleep between two cycles: the sleep is the last
    call the process makes. *)
Example sigterm_during_the_sleep :
  exists tr,
    run_process Ex.args (Ex.signalled 7) 8 =
    ((tr ++ [Print PCycleBanner; Log (LCycleComplete 60) false;
             Call (CSleep 3600); Signal SIGTERM; Print PBlank; Log LShutdown false])%list,
     Exited 0).
Proof.
  exists (firstn 21 (fst (run_process Ex.args (Ex.signalled 7) 8))).
  vm_compute. reflexivity.
Qed.

(* ================================================================= *)
(** ** The start of a cycle (C10, C5) *)

Section CycleFacts.

Variable args : Args.
Variable w : World.
Variable csv_file : PosixPath.Path.
Variable hook_script : option string.

Lemma cycle_body_dns_fails t e :
  w_signal w t = None ->
  w_gethostbyname w t ACME_HOST = inl e ->
  cycle_body args w csv_file hook_script t =
  ([Print PCycleBanner; Log (LCycleStart (frequency args)) false;
    Call (CGetHostByName ACME_HOST)], S t, Raised (PyExc e)).
Proof.
  intros S0 D. unfold cycle_body, gethostbyname, print, log. rewrite 2 bind_emit.
  rewrite (bind_call_raises w _ _ _ _ e S0 D). reflexivity.
Qed.

Lemma cycle_body_starts_with_dns t :
  exists tr t' o,
    cycle_body args w csv_file hook_script t =
    (Print PCycleBanner :: Log (LCycleStart (frequency args)) false
       :: Call (CGetHostByName ACME_HOST) :: tr, t', o).
Proof.
  unfold cycle_body, gethostbyname, print, log. rewrite 2 bind_emit.
  match goal with
  | |- context [bind (world_call w ?c ?f) ?k t] =>
      destruct (bind_call_first w c f k t) as (tr & t' & o & E); rewrite E
  end.
  exists tr, t', o. reflexivity.
Qed.

Lemma cycle_body_csv_missing t ip :
  w_signal w t = None -> w_signal w (S t) = None ->
  w_gethostbyname w t ACME_HOST = inr ip ->
  w_exists w (S t) (PosixPath.to_string csv_file) = inr false ->
  cycle_body args w csv_file hook_script t =
  prepend [Print PCycleBanner; Log (LCycleStart (frequency args)) false;
           Call (CGetHostByName ACME_HOST);
           Call (CExists (PosixPath.to_string csv_file));
           Log (LCsvMissing (PosixPath.to_string csv_file)) true]
          (sleep w RETRY_DELAY (S (S t))).
Proof.
  intros S0 S1 D X.
  unfold cycle_body, gethostbyname, path_exists, print, log. rewrite 2 bind_emit.
  rewrite (bind_call_returns w _ _ _ _ ip S0 D).
  rewrite (bind_call_returns w _ _ _ _ false S1) by (now rewrite X).
  cbv beta. unfold negb. cbv iota. rewrite bind_emit. rewrite !prepend_prepend. reflexivity.
Qed.

Lemma cycle_body_csv_present t ip text :
  w_signal w t = None -> w_signal w (S t) = None -> w_signal w (S (S t)) = None ->
  w_gethostbyname w t ACME_HOST = inr ip ->
  w_exists w (S t) (PosixPath.to_string csv_file) = inr true ->
  w_open w (S (S t)) (PosixPath.to_string csv_file) = inr (text, None) ->
  cycle_body args w csv_file hook_script t =
  prepend [Print PCycleBanner; Log (LCycleStart (frequency args)) false;
           Call (CGetHostByName ACME_HOST);
           Call (CExists (PosixPath.to_string csv_file));
           Log (LReading (PosixPath.name csv_file)) false;
           Call (COpen (PosixPath.to_string csv_file))]
          (process_file args w hook_script text (S (S (S t)))).
Proof.
  intros S0 S1 S2 D X O.
  unfold cycle_body, gethostbyname, path_exists, path_open, print, log.
  rewrite 2 bind_emit.
  rewrite (bind_call_returns w _ _ _ _ ip S0 D).
  rewrite (bind_call_returns w _ _ _ _ true S1) by (now rewrite X).
  cbv beta. unfold negb. cbv iota. rewrite bind_emit.
  rewrite (bind_call_returns w _ _ _ _ (text, None) S2 O).
  rewrite !prepend_prepend. reflexivity.
Qed.

Lemma cycle_of_body t tr t' (a : unit) :
  cycle_body args w csv_file hook_script t = (tr, t', Normal a) ->
  cycle args w csv_file hook_script t = (tr, t', Normal a).
Proof. intros H. unfold cycle, try_except. rewrite H. reflexivity. Qed.

End CycleFacts.

(** C10.  Every cycle begins with the lookup of
    [acme-v02.api.letsencrypt.org], before anything else is asked of the
    world, the existence of the list of domains included.  When the
    lookup raises, the cycle is over: nothing is read, no job is
    attempted, whatever the state of the files; the error is logged and
    the service sleeps [RETRY_DELAY] seconds, after which the next cycle
    starts (unless a signal ends the process during that sleep). *)
Theorem C10_dns_check_comes_first (args : Args) (w : World)
    (csv_file : PosixPath.Path) (hook_script : option string) (t : nat)
    (e : py_exception) :
  w_signal w t = None ->
  w_gethostbyname w t ACME_HOST = inl e ->
  (exists tr t' o,
      cycle_body args w csv_file hook_script t =
      (Print PCycleBanner :: Log (LCycleStart (frequency args)) false
         :: Call (CGetHostByName ACME_HOST) :: tr, t', o)) /\
  cycle args w csv_file hook_script t =
  prepend [Print PCycleBanner; Log (LCycleStart (frequency args)) false;
           Call (CGetHostByName ACME_HOST);
           Log (LRuntimeException e) true]
          (sleep w RETRY_DELAY (S t)) /\
  (w_signal w (S t) = None ->
   cycle args w csv_file hook_script t =
   ([Print PCycleBanner; Log (LCycleStart (frequency args)) false;
     Call (CGetHostByName ACME_HOST);
     Log (LRuntimeException e) true; Call (CSleep 60)],
    S (S t), Normal tt) /\
   forall n,
     service_loop args w (S n) csv_file hook_script t =
     prepend [Print PCycleBanner; Log (LCycleStart (frequency args)) false;
              Call (CGetHostByName ACME_HOST);
              Log (LRuntimeException e) true; Call (CSleep 60)]
             (service_loop args w n csv_file hook_script (S (S t)))).
Proof.
  intros S0 D.
  pose proof (cycle_body_dns_fails args w csv_file hook_script t e S0 D) as B.
  pose proof (cycle_catches _ _ _ _ _ _ _ _ B) as C.
  split; [apply cycle_body_starts_with_dns |]. split.
  - rewrite C, sleep_retry_delay. destruct (w_signal w (S t)); reflexivity.
  - intros S1. rewrite S1 in C. split; [exact C |].
    intros n. simpl service_loop. rewrite (bind_prepend _ _ _ _ _ _ C). reflexivity.
Qed.

(** An instance: no name service at time 5, with a verified hook. *)
Lemma C10_dns_check_comes_first_witness :
  cycle Ex.args_hook Ex.no_dns (PosixPath.of_string "/data/domains.csv")
        (Some "/opt/hooks/reload.sh") 5 =
  ([Print PCycleBanner; Log (LCycleStart 60) false;
    Call (CGetHostByName ACME_HOST);
    Log (LRuntimeException
           (EnvironmentError "socket.gaierror"
              "[Errno -3] Temporary failure in name resolution")) true;
    Call (CSleep 60)], 7, Normal tt).
Proof.
  exact (proj1 (proj2 (proj2 (C10_dns_check_comes_first Ex.args_hook Ex.no_dns
                                (PosixPath.of_string "/data/domains.csv")
                                (Some "/opt/hooks/reload.sh") 5 _ eq_refl eq_refl))
                      eq_refl)).
Defined.

(** C5, as amended.  In a cycle whose lookup of the ACME host returns and
    that then finds the list of domains missing, the service logs that
    the file is missing and sleeps 60 seconds, whatever the configured
    frequency; after that sleep (unless a signal ends the process during
    it) the next cycle starts with nothing carried over; and a cycle
    that finds the file again reads it and processes its rows. *)
Theorem C5_missing_csv_is_retried (args : Args) (w : World)
    (csv_file : PosixPath.Path) (hook_script : option string) (t : nat) (ip : string) :
  w_signal w t = None -> w_signal w (S t) = None ->
  w_gethostbyname w t ACME_HOST = inr ip ->
  w_exists w (S t) (PosixPath.to_string csv_file) = inr false ->
  cycle args w csv_file hook_script t =
  prepend [Print PCycleBanner; Log (LCycleStart (frequency args)) false;
           Call (CGetHostByName ACME_HOST);
           Call (CExists (PosixPath.to_string csv_file));
           Log (LCsvMissing (PosixPath.to_string csv_file)) true]
          (sleep w 60 (S (S t))) /\
  (w_signal w (S (S t)) = None ->
   cycle args w csv_file hook_script t =
   ([Print PCycleBanner; Log (LCycleStart (frequency args)) false;
     Call (CGetHostByName ACME_HOST);
     Call (CExists (PosixPath.to_string csv_file));
     Log (LCsvMissing (PosixPath.to_string csv_file)) true;
     Call (CSleep 60)], 3 + t, Normal tt) /\
   forall n,
     service_loop args w (S n) csv_file hook_script t =
     prepend [Print PCycleBanner; Log (LCycleStart (frequency args)) false;
              Call (CGetHostByName ACME_HOST);
              Call (CExists (PosixPath.to_string csv_file));
              Log (LCsvMissing (PosixPath.to_string csv_file)) true;
              Call (CSleep 60)]
             (service_loop args w n csv_file hook_script (3 + t))) /\
  (forall t2 ip2 text,
      w_signal w t2 = None -> w_signal w (S t2) = None ->
      w_signal w (S (S t2)) = None ->
      w_gethostbyname w t2 ACME_HOST = inr ip2 ->
      w_exists w (S t2) (PosixPath.to_string csv_file) = inr true ->
      w_open w (S (S t2)) (PosixPath.to_string csv_file) = inr (text, None) ->
      cycle_body args w csv_file hook_script t2 =
      prepend [Print PCycleBanner; Log (LCycleStart (frequency args)) false;
               Call (CGetHostByName ACME_HOST);
               Call (CExists (PosixPath.to_string csv_file));
               Log (LReading (PosixPath.name csv_file)) false;
               Call (COpen (PosixPath.to_string csv_file))]
              (process_file args w hook_script text (3 + t2))).
Proof.
  intros S0 S1 D X.
  pose proof (cycle_body_csv_missing args w csv_file hook_script t ip S0 S1 D X) as B.
  split; [| split].
  - unfold cycle, try_except. rewrite B. change 60%Z with RETRY_DELAY.
    rewrite sleep_retry_delay. destruct (w_signal w (S (S t))); reflexivity.
  - intros S2.
    assert (C : cycle args w csv_file hook_script t =
                ([Print PCycleBanner; Log (LCycleStart (frequency args)) false;
                  Call (CGetHostByName ACME_HOST);
                  Call (CExists (PosixPath.to_string csv_file));
                  Log (LCsvMissing (PosixPath.to_string csv_file)) true;
                  Call (CSleep 60)], 3 + t, Normal tt)).
    { apply cycle_of_body. rewrite B, sleep_retry_delay, S2. reflexivity. }
    split; [exact C |].
    intros n. simpl service_loop. rewrite (bind_prepend _ _ _ _ _ _ C). reflexivity.
  - intros t2 ip2 text T0 T1 T2 D2 X2 O2.
    apply (cycle_body_csv_present args w csv_file hook_script t2 ip2 text); assumption.
Qed.

(** An instance: the file is missing during the first cycle and back for
    the second. *)
Lemma C5_missing_csv_is_retried_witness :
  service_loop Ex.args Ex5.file_comes_back 2 (PosixPath.of_string "/data/domains.csv") None 0 =
  prepend [Print PCycleBanner; Log (LCycleStart 60) false;
           Call (CGetHostByName ACME_HOST);
           Call (CExists "/data/domains.csv");
           Log (LCsvMissing "/data/domains.csv") true;
           Call (CSleep 60)]
          (service_loop Ex.args Ex5.file_comes_back 1
             (PosixPath.of_string "/data/domains.csv") None 3).
Proof.
  exact (proj2 (proj1 (proj2 (C5_missing_csv_is_retried Ex.args Ex5.file_comes_back
                                (PosixPath.of_string "/data/domains.csv") None 0
                                "172.65.32.248" eq_refl eq_refl eq_refl eq_refl))
                      eq_refl) 1).
Defined.

(** C5 as the specification states it fails when the lookup of the ACME
    host raises: the file is missing, and the cycle ends in the handler
    without a word about the file. *)
Lemma C5_counterexample :
  (forall t, w_exists Ex5.dark t "/data/domains.csv" = inr false) /\
  cycle Ex.args Ex5.dark (PosixPath.of_string "/data/domains.csv") None 0 =
  ([Print PCycleBanner; Log (LCycleStart 60) false;
    Call (CGetHostByName ACME_HOST);
    Log (LRuntimeException
           (EnvironmentError "socket.gaierror"
              "[Errno -3] Temporary failure in name resolution")) true;
    Call (CSleep 60)], 2, Normal tt) /\
  ~ In (Log (LCsvMissing "/data/domains.csv") true)
       (trace_of (cycle Ex.args Ex5.dark (PosixPath.of_string "/data/domains.csv") None 0)).
Proof.
  split; [reflexivity |]. split; [reflexivity |].
  vm_compute. intros H.
  repeat (destruct H as [H | H]; [discriminate H |]). exact H.
Qed.

(* ================================================================= *)
(** ** Strings *)

Section StringFacts.

Lemma prefix_occurs p s :
  String.prefix p s = true <-> exists b, s = p ++ b.
Proof.
  revert s. induction p as [| c p IH]; intros s.
  - split; [intros _; exists s; reflexivity | intros _; destruct s; reflexivity].
  - destruct s as [| d s]; simpl.
    + split; [discriminate | intros [b H]; discriminate H].
    + destruct (ascii_dec c d) as [-> | N].
      * rewrite IH. split; intros [b H]; exists b; [now subst | now inversion H].
      * split; [discriminate | intros [b H]; inversion H; subst; now elim N].
Qed.

Lemma contains_occurs needle hay :
  PyStr.contains needle hay = true <-> occurs needle hay.
Proof.
  unfold occurs. induction hay as [| c hay IH].
  - cbn [PyStr.contains]. rewrite orb_false_r, prefix_occurs. split.
    + intros [b H]. exists "", b. exact H.
    + intros (a & b & H). destruct a; [exists b; exact H | discriminate H].
  - cbn [PyStr.contains]. rewrite orb_true_iff, prefix_occurs, IH. split.
    + intros [[b H] | (a & b & H)].
      * exists "", b. exact H.
      * exists (String c a), b. simpl. now rewrite H.
    + intros (a & b & H). destruct a as [| d a].
      * left. exists b. exact H.
      * right. inversion H. exists a, b. reflexivity.
Qed.

Lemma contains_not_occurs needle hay :
  PyStr.contains needle hay = false <-> ~ occurs needle hay.
Proof.
  rewrite <- contains_occurs. destruct (PyStr.contains needle hay); split; intros H;
    try reflexivity; try discriminate; try (intros D; discriminate D).
  exfalso. apply H. reflexivity.
Qed.

Lemma lower_app a b : PyStr.lower (a ++ b) = PyStr.lower a ++ PyStr.lower b.
Proof. induction a as [| c a IH]; simpl; [reflexivity | now rewrite IH]. Qed.

Lemma lower_split s x y :
  PyStr.lower s = x ++ y ->
  exists s1 s2, s = s1 ++ s2 /\ PyStr.lower s1 = x /\ PyStr.lower s2 = y.
Proof.
  revert s. induction x as [| c x IH]; intros s H.
  - exists "", s. auto.
  - destruct s as [| d s]; [discriminate H |]. simpl in H. inversion H as [[Hc Hx]].
    destruct (IH _ Hx) as (s1 & s2 & -> & L1 & L2).
    exists (String d s1), s2. simpl. rewrite L1. auto.
Qed.

(** The plugin is "cloudflare" exactly when that word occurs in the
    provider key, whatever the case of its letters. *)
Lemma plugin_of_spec key :
  (occurs_ignoring_case "cloudflare" key -> plugin_of key = "cloudflare") /\
  (~ occurs_ignoring_case "cloudflare" key -> plugin_of key = "rfc2136").
Proof.
  unfold plugin_of.
  assert (E : PyStr.contains "cloudflare" (PyStr.lower key) = true
              <-> occurs_ignoring_case "cloudflare" key).
  { rewrite contains_occurs. unfold occurs, occurs_ignoring_case. split.
    - intros (a & b & H).
      apply lower_split in H. destruct H as (s1 & s' & -> & L1 & H).
      apply lower_split in H. destruct H as (m & s2 & -> & Lm & L2).
      exists s1, m, s2. auto.
    - intros (a & m & b & -> & L). exists (PyStr.lower a), (PyStr.lower b).
      rewrite !lower_app, L. reflexivity. }
  destruct (PyStr.contains "cloudflare" (PyStr.lower key)).
  - split; [reflexivity |]. intros N. exfalso. apply N, E. reflexivity.
  - split; [| reflexivity]. intros O. apply E in O. discriminate O.
Qed.

Lemma split_no_sep sep s :
  PyStr.has_char sep s = false -> PyStr.split sep s = [s].
Proof.
  induction s as [| c s IH]; simpl; [reflexivity |].
  intros H. apply orb_false_iff in H. destruct H as [H1 H2].
  rewrite H1, (IH H2). reflexivity.
Qed.

Lemma has_char_app c a b :
  PyStr.has_char c (a ++ b) = PyStr.has_char c a || PyStr.has_char c b.
Proof. induction a as [| d a IH]; simpl; [reflexivity | now rewrite IH, orb_assoc]. Qed.

Lemma startswith_slash key :
  PyStr.has_char "/" key = false -> PyStr.startswith "/" (key ++ ".ini") = false.
Proof.
  intros H. unfold PyStr.startswith.
  destruct (String.prefix "/" (key ++ ".ini")) eqn:E; [| reflexivity].
  apply prefix_occurs in E. destruct E as [b E].
  destruct key as [| c key]; [discriminate E |].
  simpl in E, H. inversion E; subst. discriminate H.
Qed.

Lemma length_app a b : String.length (a ++ b) = String.length a + String.length b.
Proof. induction a as [| c a IH]; simpl; [reflexivity | now rewrite IH]. Qed.

Lemma is_part_ini key : PosixPath.is_part (key ++ ".ini") = true.
Proof.
  unfold PosixPath.is_part.
  assert (L : String.length (key ++ ".ini") = String.length key + 4)
    by apply length_app.
  assert (E1 : String.eqb (key ++ ".ini") "" = false).
  { apply String.eqb_neq. intros E. rewrite E in L. simpl in L. lia. }
  assert (E2 : String.eqb (key ++ ".ini") "." = false).
  { apply String.eqb_neq. intros E. rewrite E in L. simpl in L. lia. }
  rewrite E1, E2. reflexivity.
Qed.

(** For a provider key without a slash the credential file lies in the
    secrets directory under the name of the key. *)
Lemma creds_path_of_plain key :
  PyStr.has_char "/" key = false ->
  creds_path_of key = "/etc/letsencrypt/secrets/" ++ key ++ ".ini".
Proof.
  intros H. unfold creds_path_of, PosixPath.truediv.
  change (PosixPath.to_string SECRETS_DIR) with "/etc/letsencrypt/secrets".
  unfold PosixPath.posixpath_join. rewrite (startswith_slash _ H).
  cbn [String.eqb PyStr.endswith_char Ascii.eqb Bool.eqb orb].
  unfold PosixPath.parse. cbn [append String.eqb PosixPath.splitroot].
  assert (S : PyStr.split "/" ("etc/letsencrypt/secrets/" ++ key ++ ".ini")
              = ["etc"; "letsencrypt"; "secrets"; key ++ ".ini"]).
  { cbn [append PyStr.split Ascii.eqb Bool.eqb].
    rewrite split_no_sep; [reflexivity |].
    rewrite has_char_app, H. reflexivity. }
  cbn [append] in S. rewrite S.
  cbn [filter]. rewrite is_part_ini.
  change (PosixPath.is_part "etc") with true.
  change (PosixPath.is_part "letsencrypt") with true.
  change (PosixPath.is_part "secrets") with true.
  reflexivity.
Qed.

End StringFacts.

(* ================================================================= *)
(** ** One job (C2, C6) *)

Lemma bind_ret {A B} (a : A) (k : A -> M B) t : bind (ret a) k t = k a t.
Proof. unfold bind, ret. destruct (k a t) as [[tr t'] o]. reflexivity. Qed.

Lemma for_each_print lines t :
  for_each lines (fun line => print (PErrorLine line)) t =
  (map (fun line => Print (PErrorLine line)) lines, t, Normal tt).
Proof.
  induction lines as [| l lines IH]; [reflexivity |].
  cbn [for_each map]. change (print (PErrorLine l)) with (emit (Print (PErrorLine l))).
  rewrite bind_emit, IH. reflexivity.
Qed.

Section JobFacts.

Variable w : World.

Lemma run_certbot_credentials_missing fqdn key email hook_script t :
  w_signal w t = None ->
  w_exists w t (creds_path_of key) = inr false ->
  run_certbot w (Some fqdn) (Some key) email hook_script t =
  (job_head fqdn key ++ [Log (LMissingCredentials (Some fqdn) (creds_path_of key)) true],
   S t, Normal tt)%list.
Proof.
  intros Hs Hx. unfold run_certbot, print, path_exists.
  rewrite 2 bind_emit, bind_ret. cbv zeta.
  fold (creds_path_of key).
  rewrite (bind_call_returns w _ _ _ _ false Hs) by (now rewrite Hx).
  reflexivity.
Qed.

Lemma run_certbot_lookup_raises fqdn key email hook_script t e :
  w_signal w t = None ->
  w_exists w t (creds_path_of key) = inl e ->
  run_certbot w (Some fqdn) (Some key) email hook_script t =
  (job_head fqdn key, S t, Raised (PyExc e)).
Proof.
  intros Hs Hx. unfold run_certbot, print, path_exists.
  rewrite 2 bind_emit, bind_ret. cbv zeta.
  fold (creds_path_of key).
  rewrite (bind_call_raises w _ _ _ _ e Hs Hx).
  reflexivity.
Qed.

Lemma run_certbot_invokes fqdn key email hook_script t :
  w_signal w t = None -> w_signal w (S t) = None ->
  w_exists w t (creds_path_of key) = inr true ->
  run_certbot w (Some fqdn) (Some key) (Some email) hook_script t =
  (let (tr, o) := job_report fqdn (w_run w (S t) (job_argv fqdn key email hook_script)) in
   (job_head fqdn key ++ Call (CRun (job_argv fqdn key email hook_script)) :: tr,
    S (S t), o))%list.
Proof.
  intros Hs Hs1 Hx. unfold run_certbot, print, path_exists.
  rewrite 2 bind_emit, bind_ret. cbv zeta.
  fold (creds_path_of key). fold (plugin_of key).
  rewrite (bind_call_returns w _ _ _ _ true Hs) by (now rewrite Hx).
  cbv beta. unfold negb. cbv iota.
  unfold subprocess_run.
  replace (all_str _) with (Some (job_argv fqdn key email hook_script))
    by (destruct hook_script; reflexivity).
  set (argv := job_argv fqdn key email hook_script).
  unfold job_report, failure_report.
  unfold bind at 1. unfold try_except. unfold bind at 1. unfold bind at 1.
  rewrite (world_call_quiet _ _ _ _ Hs1).
  destruct (w_run w (S t) argv) as [e | result].
  - destruct e; try reflexivity.
    cbn [except_CalledProcessError]. unfold log. rewrite bind_emit, for_each_print.
    unfold prepend, print, emit, job_head. cbn [app]. reflexivity.
  - destruct (returncode result =? 0)%Z.
    + unfold ret. cbn [app]. fold NOT_YET_DUE.
      destruct (PyStr.contains NOT_YET_DUE (stdout result)); reflexivity.
    + unfold raise. cbn [except_CalledProcessError]. unfold log.
      rewrite bind_emit, for_each_print.
      unfold prepend, print, emit, job_head. cbn [app]. reflexivity.
Qed.

End JobFacts.

Lemma diagnostic_app a b : diagnostic (a ++ b) = (diagnostic a ++ diagnostic b)%list.
Proof.
  induction a as [| e a IH]; [reflexivity |].
  destruct e as [p | | |]; try exact IH. destruct p; try exact IH.
  simpl. now rewrite IH.
Qed.

Lemma diagnostic_error_lines lines :
  diagnostic (map (fun line => Print (PErrorLine line)) lines) = lines.
Proof. induction lines as [| l lines IH]; simpl; [reflexivity | now rewrite IH]. Qed.

Lemma process_row_job (w : World) hook_script row fqdn key email t :
  job_of_row row = Some (fqdn, key, email) ->
  process_row w hook_script row t =
  run_certbot w (Some fqdn) (Some key) (Some email) hook_script t.
Proof.
  unfold job_of_row, process_row, getitem. intros H.
  destruct (Csv.dict_get row "fqdn") as [[f |] |]; try discriminate H.
  destruct (Csv.dict_get row "dns_provider") as [[p |] |]; try discriminate H.
  destruct (Csv.dict_get row "email") as [[e |] |]; try discriminate H.
  inversion H; subst. now rewrite 3 bind_ret.
Qed.

(** C2, as amended.  For a job whose credentials are in place and whose
    call to the tool returns: exit code 0 with "Certificate not yet due"
    in the standard output is reported as VALID (AlreadyValid); exit code
    0 without it as ISSUED/RENEWED (IssuedOrRenewed); any other exit code
    as a failure whose diagnostic lines are the tool's error output with
    the white space at both ends removed and then cut at every line
    feed. *)
Theorem C2_outcome_of_a_job (w : World) (fqdn key email : string)
    (hook_script : option string) (t : nat) (result : CompletedProcess) :
  w_signal w t = None -> w_signal w (S t) = None ->
  w_exists w t (creds_path_of key) = inr true ->
  w_run w (S t) (job_argv fqdn key email hook_script) = inr result ->
  let job := run_certbot w (Some fqdn) (Some key) (Some email) hook_script t in
  let started :=
    (job_head fqdn key ++ [Call (CRun (job_argv fqdn key email hook_script))])%list in
  (returncode result = 0%Z -> occurs NOT_YET_DUE (stdout result) ->
   job = ((started ++ [Print PStatusValid; Print PSeparator])%list, S (S t), Normal tt)) /\
  (returncode result = 0%Z -> ~ occurs NOT_YET_DUE (stdout result) ->
   job = ((started ++ [Print PStatusIssued; Print PSeparator])%list, S (S t), Normal tt)) /\
  (returncode result <> 0%Z ->
   job = ((started
             ++ Log (LFailed (Some fqdn)) true
             :: map (fun line => Print (PErrorLine line))
                    (PyStr.split PyStr.LF (PyStr.strip (stderr result)))
             ++ [Print PSeparator])%list,
          S (S t), Normal tt) /\
   diagnostic (trace_of job) = PyStr.split PyStr.LF (PyStr.strip (stderr result))).
Proof.
  intros Hs Hs1 Hx Hr job started.
  assert (J : job =
              (let (tr, o) := job_report fqdn (inr result) in
               (job_head fqdn key ++ Call (CRun (job_argv fqdn key email hook_script)) :: tr,
                S (S t), o))%list).
  { unfold job. rewrite (run_certbot_invokes w fqdn key email hook_script t Hs Hs1 Hx), Hr.
    reflexivity. }
  unfold job_report, failure_report in J. subst started.
  split; [| split].
  - intros H0 Ho. rewrite J. apply contains_occurs in Ho. rewrite Ho, H0. reflexivity.
  - intros H0 Ho. rewrite J. apply contains_not_occurs in Ho. rewrite Ho, H0. reflexivity.
  - intros Hn. apply Z.eqb_neq in Hn. rewrite Hn in J. rewrite J. split.
    + cbn [app]. rewrite <- !app_assoc. reflexivity.
    + unfold trace_of, job_head. cbn [fst app diagnostic].
      rewrite diagnostic_app, diagnostic_error_lines. cbn [diagnostic].
      now rewrite app_nil_r.
Qed.

(** An instance: nothing to renew for the first domain. *)
Lemma C2_outcome_of_a_job_witness :
  run_certbot Ex.calm (Some "a.example.com") (Some "cloudflare")
              (Some "ops@example.com") None 0 =
  ((job_head "a.example.com" "cloudflare"
      ++ [Call (CRun (job_argv "a.example.com" "cloudflare" "ops@example.com" None))]
      ++ [Print PStatusValid; Print PSeparator])%list, 2, Normal tt).
Proof.
  rewrite app_assoc.
  apply (proj1 (C2_outcome_of_a_job Ex.calm "a.example.com" "cloudflare"
                  "ops@example.com" None 0 Ex.not_due eq_refl eq_refl eq_refl eq_refl)).
  - reflexivity.
  - exists "", " for renewal; no action taken.". reflexivity.
Defined.

(** C2 as the specification states it fails for an error output that
    starts with white space: the tool exits with 1 and writes two spaces
    and "boom"; the diagnostic is the single line "boom", the error
    output cut into lines is a single line that keeps the two spaces. *)
Lemma C2_counterexample :
  let job := run_certbot Ex2.failing (Some "a.example.com") (Some "cloudflare")
                         (Some "ops@example.com") None 0 in
  w_run Ex2.failing 1 (job_argv "a.example.com" "cloudflare" "ops@example.com" None)
  = inr (mkCompleted 1 "" "  boom") /\
  diagnostic (trace_of job) = ["boom"] /\
  Spec.split_into_lines "  boom" = ["  boom"] /\
  diagnostic (trace_of job) <> Spec.split_into_lines "  boom".
Proof.
  cbv zeta. split; [reflexivity |]. split; [reflexivity |]. split; [reflexivity |].
  vm_compute. discriminate.
Qed.

(** C6, as amended.  What [run_certbot] derives from the provider key
    depends on the key alone: the plugin is "cloudflare" exactly when
    that word occurs in the key, case ignored, and "rfc2136" otherwise;
    the credential file is the pathlib join of the secrets directory and
    "<key>.ini", which for a key without a slash is
    "<secretsDir>/<key>.ini".  The job tests that file and, if the test
    answers that it is there, passes plugin and file to the tool.  If
    the test answers that it is not there, the job logs the missing
    credentials and returns without raising and without starting the
    tool, and the rows after it are processed.  If the test itself
    raises, the job raises that exception without starting the tool, and
    the rows after it are not processed. *)
Theorem C6_credentials_of_a_job (w : World) (fqdn key : string) (email : option string)
    (hook_script : option string) (t : nat) :
  (occurs_ignoring_case "cloudflare" key -> plugin_of key = "cloudflare") /\
  (~ occurs_ignoring_case "cloudflare" key -> plugin_of key = "rfc2136") /\
  (PyStr.has_char "/" key = false ->
   creds_path_of key = Spec.credential_path (PosixPath.to_string SECRETS_DIR) key) /\
  (forall e, email = Some e ->
   w_signal w t = None -> w_signal w (S t) = None ->
   w_exists w t (creds_path_of key) = inr true ->
   exists tr o,
     run_certbot w (Some fqdn) (Some key) email hook_script t =
     ((job_head fqdn key
         ++ Call (CRun (certbot_argv e (plugin_of key) (creds_path_of key) fqdn
                          ++ deploy_hook_args hook_script fqdn)) :: tr)%list,
      S (S t), o)) /\
  (w_signal w t = None ->
   w_exists w t (creds_path_of key) = inr false ->
   run_certbot w (Some fqdn) (Some key) email hook_script t =
   ((job_head fqdn key
       ++ [Log (LMissingCredentials (Some fqdn) (creds_path_of key)) true])%list,
    S t, Normal tt) /\
   invocations (trace_of (run_certbot w (Some fqdn) (Some key) email hook_script t)) = [] /\
   forall row rest e,
     email = Some e -> job_of_row row = Some (fqdn, key, e) ->
     for_each (row :: rest) (process_row w hook_script) t =
     prepend (job_head fqdn key
                ++ [Log (LMissingCredentials (Some fqdn) (creds_path_of key)) true])%list
             (for_each rest (process_row w hook_script) (S t))) /\
  (forall x,
   w_signal w t = None ->
   w_exists w t (creds_path_of key) = inl x ->
   run_certbot w (Some fqdn) (Some key) email hook_script t =
   (job_head fqdn key, S t, Raised (PyExc x)) /\
   invocations (trace_of (run_certbot w (Some fqdn) (Some key) email hook_script t)) = [] /\
   forall row rest e,
     email = Some e -> job_of_row row = Some (fqdn, key, e) ->
     for_each (row :: rest) (process_row w hook_script) t =
     (job_head fqdn key, S t, Raised (PyExc x))).
Proof.
  split; [apply plugin_of_spec |]. split; [apply plugin_of_spec |].
  split; [intros H; rewrite (creds_path_of_plain _ H); reflexivity |].
  split; [| split].
  - intros e -> Hs Hs1 Hx.
    rewrite (run_certbot_invokes w fqdn key e hook_script t Hs Hs1 Hx).
    destruct (job_report _ _) as [tr o]. exists tr, o. reflexivity.
  - intros Hs Hx.
    pose proof (run_certbot_credentials_missing w fqdn key email hook_script t Hs Hx) as R.
    split; [exact R |]. split; [rewrite R; reflexivity |].
    intros row rest e -> Hrow. cbn [for_each].
    rewrite <- (process_row_job w hook_script row _ _ _ t Hrow) in R.
    rewrite (bind_prepend _ _ _ _ _ _ R). reflexivity.
  - intros x Hs Hx.
    pose proof (run_certbot_lookup_raises w fqdn key email hook_script t x Hs Hx) as R.
    split; [exact R |]. split; [rewrite R; reflexivity |].
    intros row rest e -> Hrow. cbn [for_each].
    rewrite <- (process_row_job w hook_script row _ _ _ t Hrow) in R.
    rewrite (bind_raised _ _ _ _ _ _ R). reflexivity.
Qed.

(** An instance: the credentials of the second domain are not there. *)
Lemma C6_credentials_of_a_job_witness :
  plugin_of "Prod-CloudFlare" = "cloudflare" /\
  creds_path_of "bind" = "/etc/letsencrypt/secrets/bind.ini" /\
  run_certbot Ex5.dark (Some "b.example.com") (Some "bind") (Some "ops@example.com") None 0 =
  ([Print (PProvisioning (Some "b.example.com")); Print PSeparator;
    Call (CExists "/etc/letsencrypt/secrets/bind.ini");
    Log (LMissingCredentials (Some "b.example.com") "/etc/letsencrypt/secrets/bind.ini") true],
   1, Normal tt) /\
  run_certbot ExP.locked_secrets (Some "b.example.com") (Some "bind")
              (Some "ops@example.com") None 0 =
  (job_head "b.example.com" "bind", 1,
   Raised (PyExc (EnvironmentError "PermissionError"
                    "[Errno 13] Permission denied: '/etc/letsencrypt/secrets/bind.ini'"))).
Proof.
  pose proof (C6_credentials_of_a_job Ex5.dark "b.example.com" "bind"
                (Some "ops@example.com") None 0) as (_ & _ & P & _ & M & _).
  pose proof (C6_credentials_of_a_job Ex5.dark "b.example.com" "Prod-CloudFlare"
                (Some "ops@example.com") None 0) as (C & _).
  pose proof (C6_credentials_of_a_job ExP.locked_secrets "b.example.com" "bind"
                (Some "ops@example.com") None 0) as (_ & _ & _ & _ & _ & L).
  split; [| split; [| split]].
  - apply C. exists "Prod-", "CloudFlare", "". split; reflexivity.
  - exact (P eq_refl).
  - exact (proj1 (M eq_refl eq_refl)).
  - exact (proj1 (L _ eq_refl eq_refl)).
Defined.

(** C6 as the specification states it fails for a provider key that begins
    with a slash: the join drops the secrets directory, and the tool is
    given a credential file from elsewhere.  It also fails for a path
    that does not exist because its name is longer than the file system
    takes: the test raises, and so does the job, and the row after it is
    not processed. *)
Lemma C6_counterexample :
  (creds_path_of "/srv/shared/cloudflare" = "/srv/shared/cloudflare.ini" /\
   Spec.credential_path (PosixPath.to_string SECRETS_DIR) "/srv/shared/cloudflare"
   = "/etc/letsencrypt/secrets//srv/shared/cloudflare.ini" /\
   creds_path_of "/srv/shared/cloudflare"
   <> Spec.credential_path (PosixPath.to_string SECRETS_DIR) "/srv/shared/cloudflare" /\
   invocations (trace_of (run_certbot Ex.calm (Some "a.example.com")
                            (Some "/srv/shared/cloudflare") (Some "ops@example.com") None 0))
   = [["certbot"; "certonly"; "--non-interactive"; "--agree-tos";
       "--email"; "ops@example.com"; "--dns-cloudflare"; "--dns-cloudflare-credentials";
       "/srv/shared/cloudflare.ini"; "--keep-until-expiring"; "-d"; "a.example.com"]]) /\
  (creds_path_of (ExL.letters 300)
   = Spec.credential_path (PosixPath.to_string SECRETS_DIR) (ExL.letters 300) /\
   for_each [ExH.row_long_key; Ex.row_b] (process_row ExH.name_limit None) 0 =
   (job_head "a.example.com" (ExL.letters 300), 1,
    Raised (PyExc (EnvironmentError "OSError" "[Errno 36] File name too long"))) /\
   attempts (trace_of (for_each [ExH.row_long_key; Ex.row_b]
                         (process_row ExH.name_limit None) 0))
   = [Some "a.example.com"]).
Proof.
  split.
  - split; [reflexivity |]. split; [reflexivity |]. split; [| reflexivity].
    vm_compute. discriminate.
  - split; [vm_compute; reflexivity |]. split; vm_compute; reflexivity.
Qed.

(* ================================================================= *)
(** ** Reading the list of domains (C9) *)

Section CsvFacts.

Import Csv.

Lemma feed_chars_app a b r :
  feed_chars (a ++ b) r =
  match feed_chars a r with
  | inl e => inl e
  | inr r' => feed_chars b r'
  end.
Proof.
  revert r. induction a as [| c a IH]; intros r; [reflexivity |].
  cbn [append feed_chars]. destruct (parse_process_char (Some c) r); [reflexivity | apply IH].
Qed.

(** Spaces at the start of a field are passed over. *)
Lemma skip_spaces k s r :
  state r = START_FIELD -> feed_chars (spaces k ++ s) r = feed_chars s r.
Proof.
  intros H. induction k as [| k IH]; [reflexivity |].
  cbn [spaces append feed_chars]. unfold parse_process_char. rewrite H.
  exact IH.
Qed.

(** At the start of a record, a character that is not a line end is
    read as at the start of a field. *)
Lemma start_record_as_field c s r :
  state r = START_RECORD -> is_newline c = false ->
  feed_chars (String c s) r = feed_chars (String c s) (set_state START_FIELD r).
Proof.
  intros H N. cbn [feed_chars]. unfold parse_process_char. rewrite H, N. reflexivity.
Qed.

Lemma plain_char_facts c :
  plain_char c = true ->
  Ascii.eqb delimiter c = false /\ Ascii.eqb quotechar c = false /\ is_newline c = false.
Proof.
  unfold plain_char. intros H.
  apply andb_true_iff in H. destruct H as [H H3].
  apply andb_true_iff in H. destruct H as [H1 H2].
  rewrite (Ascii.eqb_sym delimiter), (Ascii.eqb_sym quotechar).
  repeat split; apply negb_true_iff; assumption.
Qed.

Lemma unquoted_char_facts c :
  unquoted_char c = true -> Ascii.eqb quotechar c = false /\ is_newline c = false.
Proof.
  unfold unquoted_char. intros H. apply andb_true_iff in H. destruct H as [H1 H2].
  rewrite (Ascii.eqb_sym quotechar). split; apply negb_true_iff; assumption.
Qed.

Lemma add_then_state s c r r' :
  add_then s (Some c) r = inr r' -> state r' = s.
Proof.
  unfold add_then, parse_add_char.
  destruct (field_limit <=? N.of_nat (String.length (field r)))%N; [discriminate |].
  intros H. inversion H. reflexivity.
Qed.

Lemma start_field_unquoted c r r' :
  unquoted_char c = true -> state r = START_FIELD ->
  start_field (Some c) r = inr r' -> state r' = START_FIELD \/ state r' = IN_FIELD.
Proof.
  intros U S. destruct (unquoted_char_facts c U) as [Q N].
  unfold start_field, is_line_end, is_char. rewrite N, Q.
  destruct (Ascii.eqb " " c && skipinitialspace).
  - intros H. inversion H; subst. left. exact S.
  - destruct (Ascii.eqb delimiter c).
    + intros H. inversion H; subst. left. exact S.
    + intros H. right. eapply add_then_state; eauto.
Qed.

Lemma step_unquoted c r r' :
  unquoted_char c = true -> outside_quotes r ->
  parse_process_char (Some c) r = inr r' ->
  state r' = START_FIELD \/ state r' = IN_FIELD.
Proof.
  intros U O. pose proof (unquoted_char_facts c U) as [Q N].
  unfold parse_process_char. destruct O as [S | [S | S]]; rewrite S.
  - rewrite N. apply start_field_unquoted; [exact U | reflexivity].
  - apply start_field_unquoted; assumption.
  - unfold is_line_end, is_char. rewrite N.
    destruct (Ascii.eqb delimiter c).
    + intros H. inversion H. left. reflexivity.
    + intros H. right. eapply add_then_state; eauto.
Qed.

Lemma feed_unquoted s r r' :
  unquoted s = true -> outside_quotes r ->
  feed_chars s r = inr r' -> outside_quotes r'.
Proof.
  revert r. induction s as [| c s IH]; intros r U O H.
  - inversion H; subst. exact O.
  - cbn [unquoted] in U. apply andb_true_iff in U. destruct U as [Uc Us].
    cbn [feed_chars] in H.
    destruct (parse_process_char (Some c) r) as [e | r1] eqn:E; [discriminate H |].
    apply (IH r1 Us); [| exact H].
    right. eapply step_unquoted; eauto.
Qed.

Lemma line_feed_step r :
  outside_quotes r ->
  exists r1, parse_process_char (Some PyStr.LF) r = inr r1 /\ state r1 = EAT_CRNL.
Proof.
  unfold parse_process_char. intros [S | [S | S]]; rewrite S; eexists; split; reflexivity.
Qed.

(** A line without quotes, read from the start of a record, ends the
    record. *)
Lemma feed_line_unquoted s r r' :
  unquoted s = true -> outside_quotes r ->
  feed_line (s ++ String PyStr.LF "") r = inr r' -> state r' = START_RECORD.
Proof.
  intros U O. unfold feed_line. rewrite feed_chars_app.
  destruct (feed_chars s r) as [e | r1] eqn:E; [discriminate |].
  pose proof (feed_unquoted s r r1 U O E) as O1.
  destruct (line_feed_step r1 O1) as (r2 & L & S2).
  cbn [feed_chars]. rewrite L. unfold parse_process_char. rewrite S2.
  intros H. inversion H. reflexivity.
Qed.

(** After a plain field and the delimiter the reader is at the start of
    the next field. *)
Lemma field_then_delimiter f r r' :
  plain_field f = true -> state r = START_FIELD \/ state r = IN_FIELD ->
  feed_chars (f ++ ",") r = inr r' -> state r' = START_FIELD.
Proof.
  revert r. induction f as [| c f IH]; intros r P O H.
  - cbn in H. unfold parse_process_char in H.
    destruct O as [S | S]; rewrite S in H; cbn in H; inversion H; [exact S | reflexivity].
  - cbn [plain_field] in P. apply andb_true_iff in P. destruct P as [Pc Pf].
    cbn [append feed_chars] in H.
    destruct (parse_process_char (Some c) r) as [e | r1] eqn:E; [discriminate H |].
    apply (IH r1 Pf); [| exact H].
    destruct (plain_char_facts c Pc) as (_ & Q & N).
    apply (step_unquoted c r r1); [| destruct O; [right; left | right; right]; assumption
                                    | exact E].
    unfold unquoted_char. rewrite (Ascii.eqb_sym c), Q, N. reflexivity.
Qed.

Lemma append_assoc_s (a b c : string) : (a ++ b) ++ c = a ++ (b ++ c).
Proof. induction a as [| x a IH]; simpl; [reflexivity | now rewrite IH]. Qed.

Lemma append_nil_r (a : string) : a ++ "" = a.
Proof. induction a as [| x a IH]; simpl; [reflexivity | now rewrite IH]. Qed.

Lemma unquoted_app a b : unquoted (a ++ b) = unquoted a && unquoted b.
Proof.
  induction a as [| c a IH]; simpl; [reflexivity |]. now rewrite IH, andb_assoc.
Qed.

Lemma unquoted_spaces k : unquoted (spaces k) = true.
Proof. induction k as [| k IH]; [reflexivity | exact IH]. Qed.

Lemma plain_field_unquoted f : plain_field f = true -> unquoted f = true.
Proof.
  induction f as [| c f IH]; [reflexivity |]. cbn [plain_field unquoted].
  intros H. apply andb_true_iff in H. destruct H as [Hc Hf].
  destruct (plain_char_facts c Hc) as (_ & Q & N).
  unfold unquoted_char. rewrite (Ascii.eqb_sym c), Q, N. exact (IH Hf).
Qed.

Lemma unquoted_join fs :
  Forall (fun f => unquoted f = true) fs -> unquoted (PyStr.join "," fs) = true.
Proof.
  unfold PyStr.join. induction 1 as [| f fs Hf Hfs IH]; [reflexivity |].
  destruct fs as [| g fs]; [exact Hf |].
  change (String.concat "," (f :: g :: fs)) with (f ++ "," ++ String.concat "," (g :: fs)).
  rewrite !unquoted_app, Hf, IH. reflexivity.
Qed.

(** A line without quotes is one line of the file. *)
Lemma text_lines_line body rest :
  unquoted body = true ->
  PyStr.text_lines_from (body ++ String PyStr.LF rest) false =
  (body ++ String PyStr.LF "") :: PyStr.text_lines_from rest false.
Proof.
  induction body as [| c body IH]; intros U.
  - reflexivity.
  - cbn [unquoted] in U. apply andb_true_iff in U. destruct U as [Uc Ub].
    destruct (unquoted_char_facts c Uc) as [_ N].
    unfold is_newline in N. apply orb_false_iff in N. destruct N as [N1 N2].
    cbn [append PyStr.text_lines_from]. rewrite N1, N2, (IH Ub). reflexivity.
Qed.

Lemma concat_cons x xs : String.concat "" (x :: xs) = x ++ String.concat "" xs.
Proof.
  destruct xs as [| y xs]; [now rewrite append_nil_r |]. reflexivity.
Qed.

Lemma text_lines_render records :
  Forall (fun fs => unquoted (PyStr.join "," fs) = true) records ->
  PyStr.text_lines_from (render records) false = map render_record records.
Proof.
  unfold render. induction 1 as [| fs records U _ IH]; [reflexivity |].
  cbn [map]. rewrite concat_cons. unfold render_record at 1.
  rewrite append_assoc_s. cbn [append].
  rewrite (text_lines_line _ _ U), IH. reflexivity.
Qed.

(** From the start of a field on, the spaces written before the fields
    of a line make no difference. *)
Lemma fields_read_alike fields tail r :
  state r = START_FIELD ->
  Forall (fun kf => plain_field (snd kf) = true) fields ->
  feed_chars (PyStr.join "," (map pad fields) ++ tail) r =
  feed_chars (PyStr.join "," (map snd fields) ++ tail) r.
Proof.
  unfold PyStr.join. intros S P. revert r S.
  induction P as [| [k f] fields Pf _ IH]; intros r S; [reflexivity |].
  destruct fields as [| kf fields].
  - cbn [map String.concat]. unfold pad. cbn [fst snd].
    rewrite append_assoc_s. apply skip_spaces. exact S.
  - change (String.concat "," (map pad ((k, f) :: kf :: fields)))
      with ((spaces k ++ f) ++ "," ++ String.concat "," (map pad (kf :: fields))).
    change (String.concat "," (map snd ((k, f) :: kf :: fields)))
      with (f ++ "," ++ String.concat "," (map snd (kf :: fields))).
    rewrite !append_assoc_s, (skip_spaces k _ r S).
    rewrite <- !(append_assoc_s f ","), !(feed_chars_app (f ++ ",")).
    destruct (feed_chars (f ++ ",") r) as [e | r1] eqn:E; [reflexivity |].
    apply IH. eapply field_then_delimiter; eauto.
Qed.

Lemma starts_inside_read s r :
  state r = START_RECORD -> starts_inside s = true ->
  feed_chars s r = feed_chars s (set_state START_FIELD r).
Proof.
  destruct s as [| c s]; [discriminate |]. cbn [starts_inside].
  intros S N. apply start_record_as_field; [exact S |]. now apply negb_true_iff.
Qed.

Lemma starts_inside_app a b : starts_inside a = true -> starts_inside (a ++ b) = true.
Proof. destruct a; [discriminate | intros H; exact H]. Qed.

Lemma plain_field_starts f : plain_field f = true -> f <> "" -> starts_inside f = true.
Proof.
  destruct f as [| c f]; [intros _ N; now elim N |].
  cbn [plain_field starts_inside]. intros H _.
  apply andb_true_iff in H. destruct H as [Hc _].
  destruct (plain_char_facts c Hc) as (_ & _ & N). now rewrite N.
Qed.

(** A line that is not blank begins with a character of a field or
    with a delimiter. *)
Lemma rendered_starts_inside (fs : list string) f :
  plain_field f = true -> f :: fs <> [""] ->
  starts_inside (render_record (f :: fs)) = true.
Proof.
  intros P N. unfold render_record, PyStr.join.
  destruct f as [| c f].
  - destruct fs as [| g fs]; [now elim N | reflexivity].
  - apply starts_inside_app.
    destruct fs as [| g fs]; [| apply starts_inside_app];
      apply (plain_field_starts _ P); discriminate.
Qed.

Lemma padded_starts_inside fields k f :
  plain_field f = true -> f :: map snd fields <> [""] ->
  starts_inside (render_record (map pad ((k, f) :: fields))) = true.
Proof.
  intros P N. destruct k as [| k].
  - cbn [map]. unfold pad at 1. cbn [fst snd spaces append].
    unfold render_record, PyStr.join.
    destruct f as [| c f].
    + destruct fields as [| kf fields]; [now elim N | reflexivity].
    + apply starts_inside_app.
      destruct fields as [| kf fields]; [| cbn [map]; apply starts_inside_app];
        apply (plain_field_starts _ P); discriminate.
  - unfold render_record, PyStr.join. apply starts_inside_app. cbn [map]. unfold pad at 1.
    cbn [fst snd spaces append]. destruct (map pad fields); reflexivity.
Qed.

(** The whole line: spaces before its fields make no difference. *)
Lemma line_read_alike fields r :
  state r = START_RECORD ->
  Forall (fun kf => plain_field (snd kf) = true) fields ->
  map snd fields <> [""] ->
  feed_line (render_record (map pad fields)) r =
  feed_line (render_record (map snd fields)) r.
Proof.
  intros S P N. unfold feed_line.
  assert (E : feed_chars (render_record (map pad fields)) r =
              feed_chars (render_record (map snd fields)) r).
  { destruct fields as [| [k f] fields]; [reflexivity |].
    inversion P as [| ? ? Pf Pfs]; subst. cbn [snd] in Pf.
    rewrite (starts_inside_read _ r S (padded_starts_inside fields k f Pf N)).
    cbn [map snd] in N |- *.
    rewrite (starts_inside_read _ r S (rendered_starts_inside _ f Pf N)).
    unfold render_record.
    apply (fields_read_alike ((k, f) :: fields) _ (set_state START_FIELD r));
      [reflexivity | exact P]. }
  rewrite E. reflexivity.
Qed.

Lemma unquoted_padded fields :
  Forall (fun kf => plain_field (snd kf) = true) fields ->
  unquoted (PyStr.join "," (map pad fields)) = true /\
  unquoted (PyStr.join "," (map snd fields)) = true.
Proof.
  intros P. split; apply unquoted_join; apply Forall_map;
    (eapply Forall_impl; [| exact P]); intros [k f] H; cbn [snd] in *.
  - unfold pad. cbn [fst snd]. rewrite unquoted_app, unquoted_spaces.
    now apply plain_field_unquoted.
  - now apply plain_field_unquoted.
Qed.

(** The records read from lines that differ in such spaces only. *)
Lemma records_read_alike records :
  Forall (Forall (fun kf => plain_field (snd kf) = true)) records ->
  Forall (fun fields => map snd fields <> [""]) records ->
  records_from (map render_record (map (map pad) records)) parse_reset =
  records_from (map render_record (map (map snd) records)) parse_reset.
Proof.
  intros P. induction P as [| fields records Pf _ IH]; intros N; [reflexivity |].
  inversion N as [| ? ? Nf Ns]; subst.
  cbn [map records_from].
  rewrite (line_read_alike fields parse_reset eq_refl Pf Nf).
  destruct (feed_line (render_record (map snd fields)) parse_reset) as [e | r1] eqn:E;
    [reflexivity |].
  assert (S1 : state r1 = START_RECORD).
  { unfold render_record in E.
    apply (feed_line_unquoted _ parse_reset r1 (proj2 (unquoted_padded fields Pf)));
      [left; reflexivity | exact E]. }
  rewrite S1, (IH Ns). reflexivity.
Qed.

End CsvFacts.

Section CsvRoundTrip.

Import Csv.

Lemma add_in_field c r :
  plain_char c = true -> state r = IN_FIELD ->
  (N.of_nat (String.length (field r)) < field_limit)%N ->
  parse_process_char (Some c) r =
  inr (mkReader IN_FIELD (fields r) (field r ++ String c "")).
Proof.
  intros P S L. destruct (plain_char_facts c P) as (D & _ & N).
  unfold parse_process_char. rewrite S. unfold is_line_end, is_char. rewrite N, D.
  unfold add_then, parse_add_char.
  replace (field_limit <=? N.of_nat (String.length (field r)))%N with false
    by (symmetry; apply N.leb_gt; exact L).
  reflexivity.
Qed.

Lemma feed_in_field f r :
  plain_field f = true -> state r = IN_FIELD ->
  (N.of_nat (String.length (field r) + String.length f) <= field_limit)%N ->
  feed_chars f r = inr (mkReader IN_FIELD (fields r) (field r ++ f)).
Proof.
  revert r. induction f as [| c f IH]; intros r P S L.
  - cbn [feed_chars]. rewrite append_nil_r. destruct r as [st fs fd]. cbn in S. now subst.
  - cbn [plain_field] in P. apply andb_true_iff in P. destruct P as [Pc Pf].
    cbn [feed_chars String.length] in *.
    rewrite (add_in_field c r Pc S) by lia.
    rewrite IH; cbn [state fields field]; [| exact Pf | reflexivity |].
    + rewrite append_assoc_s. reflexivity.
    + rewrite length_app. cbn [String.length]. lia.
Qed.

Lemma feed_field_start f r :
  tidy_field f -> state r = START_FIELD -> field r = "" ->
  feed_chars f r =
  inr (match f with
       | EmptyString => r
       | _ => mkReader IN_FIELD (fields r) f
       end).
Proof.
  intros (P & Sp & L) S F. destruct f as [| c f]; [reflexivity |].
  cbn [plain_field] in P. apply andb_true_iff in P. destruct P as [Pc Pf].
  destruct (plain_char_facts c Pc) as (D & Q & N).
  cbn [no_leading_space] in Sp. apply negb_true_iff in Sp.
  cbn [feed_chars]. unfold parse_process_char. rewrite S.
  unfold start_field, is_line_end, is_char. rewrite N, Q, Sp, D. cbn [andb].
  unfold add_then, parse_add_char. rewrite F. cbn [String.length N.of_nat].
  change (field_limit <=? 0)%N with false. cbv iota.
  unfold set_state. cbn [state fields field append].
  rewrite feed_in_field; cbn [state fields field append String.length]; auto.
  all: cbn [String.length] in L; lia.
Qed.

Lemma field_and_delimiter f r :
  tidy_field f -> state r = START_FIELD -> field r = "" ->
  feed_chars (f ++ ",") r = inr (mkReader START_FIELD (fields r ++ [f])%list "").
Proof.
  intros T S F. rewrite feed_chars_app, (feed_field_start f r T S F).
  destruct f as [| c f].
  - cbn [feed_chars]. unfold parse_process_char. rewrite S. cbn.
    unfold parse_save_field. rewrite S, F. reflexivity.
  - reflexivity.
Qed.

Lemma field_and_line_end f r :
  tidy_field f -> state r = START_FIELD -> field r = "" ->
  feed_chars (f ++ String PyStr.LF "") r = inr (mkReader EAT_CRNL (fields r ++ [f])%list "").
Proof.
  intros T S F. rewrite feed_chars_app, (feed_field_start f r T S F).
  destruct f as [| c f].
  - cbn [feed_chars]. unfold parse_process_char. rewrite S. cbn.
    unfold set_state, parse_save_field. cbn [state fields field]. rewrite F. reflexivity.
  - reflexivity.
Qed.

Lemma fields_parsed fs r :
  fs <> [] -> Forall tidy_field fs -> state r = START_FIELD -> field r = "" ->
  feed_chars (render_record fs) r = inr (mkReader EAT_CRNL (fields r ++ fs)%list "").
Proof.
  unfold render_record, PyStr.join. intros N T. revert r.
  induction T as [| f fs Tf _ IH]; intros r S F; [now elim N |].
  destruct fs as [| g fs].
  - cbn [String.concat]. apply field_and_line_end; assumption.
  - change (String.concat "," (f :: g :: fs)) with (f ++ "," ++ String.concat "," (g :: fs)).
    replace ((f ++ "," ++ String.concat "," (g :: fs)) ++ String PyStr.LF "")
      with ((f ++ ",") ++ (String.concat "," (g :: fs) ++ String PyStr.LF ""))
      by (rewrite !append_assoc_s; reflexivity).
    rewrite (feed_chars_app (f ++ ",")), (field_and_delimiter f r Tf S F).
    rewrite IH; cbn [state fields field]; try reflexivity; try discriminate.
    rewrite <- app_assoc. reflexivity.
Qed.

(** A tidy record, written as a line, is read back as it is. *)
Lemma line_parsed fs :
  tidy_record fs ->
  feed_line (render_record fs) parse_reset = inr (mkReader START_RECORD fs "").
Proof.
  intros (N1 & N2 & T). unfold feed_line.
  destruct fs as [| f fs]; [now elim N1 |].
  inversion T as [| ? ? Tf Tfs]; subst.
  rewrite (starts_inside_read _ parse_reset eq_refl
             (rendered_starts_inside fs f (proj1 Tf) N2)).
  rewrite (fields_parsed (f :: fs) (set_state START_FIELD parse_reset) N1 T
             eq_refl eq_refl).
  reflexivity.
Qed.

Lemma reader_rendered records :
  Forall tidy_record records ->
  reader (map render_record records) = (records, None).
Proof.
  unfold reader. induction 1 as [| fs records T _ IH]; [reflexivity |].
  cbn [map records_from]. rewrite (line_parsed fs T). cbn [state fields].
  rewrite IH. reflexivity.
Qed.

Lemma tidy_unquoted fs : tidy_record fs -> unquoted (PyStr.join "," fs) = true.
Proof.
  intros (_ & _ & T). apply unquoted_join.
  eapply Forall_impl; [| exact T]. intros f (P & _). now apply plain_field_unquoted.
Qed.

Lemma filter_tidy records :
  Forall tidy_record records ->
  filter (fun r => negb (is_blank r)) records = records.
Proof.
  induction 1 as [| fs records (N & _) _ IH]; [reflexivity |].
  cbn [filter]. destruct fs; [now elim N |]. cbn. now rewrite IH.
Qed.

(** A file of tidy records is read back as its rows. *)
Lemma DictReader_rendered header rows :
  Forall tidy_record (header :: rows) ->
  DictReader (PyStr.text_lines_from (render (header :: rows)) false) =
  (map (make_row [] header) rows, None).
Proof.
  intros T. unfold DictReader.
  rewrite text_lines_render
    by (eapply Forall_impl; [| exact T]; intros fs; apply tidy_unquoted).
  rewrite (reader_rendered _ T).
  inversion T; subst. rewrite filter_tidy by assumption. reflexivity.
Qed.

End CsvRoundTrip.

Ltac tidy_fields :=
  repeat (apply Forall_cons;
          [split; [reflexivity | split; [reflexivity | vm_compute; discriminate]] |]);
  apply Forall_nil.

Lemma tidy_records_plain (records : list (list (nat * string))) :
  Forall tidy_record (map (map snd) records) ->
  Forall (Forall (fun kf => plain_field (snd kf) = true)) records /\
  Forall (fun fields => map snd fields <> [""]) records.
Proof.
  intros T. rewrite Forall_map in T. split.
  - eapply Forall_impl; [| exact T]. intros fields (_ & _ & F).
    rewrite Forall_map in F. eapply Forall_impl; [| exact F].
    intros kf (P & _). exact P.
  - eapply Forall_impl; [| exact T]. intros fields (_ & N & _). exact N.
Qed.

(** C9, as amended.  The reader passes over the spaces written before a
    field: a file whose unquoted fields are written after any number of
    spaces is read as the same rows as the file without those spaces.
    Nothing else is removed: when the fields do not begin with a space
    themselves, the values of a row are the fields exactly as written
    after those spaces, so white space that follows a field stays in
    its value. *)
Theorem C9_leading_spaces_of_fields (header : list (nat * string))
    (rows : list (list (nat * string))) :
  (Forall (Forall (fun kf => plain_field (snd kf) = true)) (header :: rows) ->
   Forall (fun fields => map snd fields <> [""]) (header :: rows) ->
   Csv.DictReader (PyStr.text_lines_from (render (map (map pad) (header :: rows))) false) =
   Csv.DictReader (PyStr.text_lines_from (render (map (map snd) (header :: rows))) false)) /\
  (Forall tidy_record (map (map snd) (header :: rows)) ->
   Csv.DictReader (PyStr.text_lines_from (render (map (map pad) (header :: rows))) false) =
   (map (Csv.make_row [] (map snd header)) (map (map snd) rows), None)).
Proof.
  assert (A : Forall (Forall (fun kf => plain_field (snd kf) = true)) (header :: rows) ->
              Forall (fun fields => map snd fields <> [""]) (header :: rows) ->
              Csv.DictReader
                (PyStr.text_lines_from (render (map (map pad) (header :: rows))) false) =
              Csv.DictReader
                (PyStr.text_lines_from (render (map (map snd) (header :: rows))) false)).
  { intros P N. unfold Csv.DictReader, Csv.reader.
    rewrite !text_lines_render.
    - rewrite (records_read_alike _ P N). reflexivity.
    - apply Forall_map. eapply Forall_impl; [| exact P].
      intros fields F. exact (proj2 (unquoted_padded fields F)).
    - apply Forall_map. eapply Forall_impl; [| exact P].
      intros fields F. exact (proj1 (unquoted_padded fields F)). }
  split; [exact A |].
  intros T. destruct (tidy_records_plain _ T) as [P N].
  rewrite (A P N). cbn [map] in T |- *. apply DictReader_rendered. exact T.
Qed.

(** An instance: every field of the example written after spaces. *)
Lemma C9_leading_spaces_of_fields_witness :
  Csv.DictReader (PyStr.text_lines_from (render (map (map pad) Ex9.leading_spaces)) false) =
  (map (Csv.make_row [] ["fqdn"; "dns_provider"; "email"])
       [["a.example.com"; "cloudflare"; "ops@example.com"]], None).
Proof.
  refine (proj2 (C9_leading_spaces_of_fields
                   [(0, "fqdn"); (1, "dns_provider"); (1, "email")]
                   [[(2, "a.example.com"); (1, "cloudflare"); (3, "ops@example.com")]]) _).
  repeat (apply Forall_cons;
          [split; [discriminate | split; [discriminate | tidy_fields]] |]).
  apply Forall_nil.
Defined.

(** C9 as the specification states it fails for white space after a field:
    the space that follows the domain stays in the descriptor, which
    therefore differs from the descriptor of the row without it. *)
Lemma C9_counterexample :
  map job_of_row (fst (Csv.DictReader (PyStr.text_lines_from Ex9.trailing_space false)))
  = [Some ("a.example.com ", "cloudflare", "ops@example.com")] /\
  map job_of_row (fst (Csv.DictReader (PyStr.text_lines_from Ex9.no_space false)))
  = [Some ("a.example.com", "cloudflare", "ops@example.com")] /\
  Spec.without_surrounding_whitespace "a.example.com " = "a.example.com" /\
  Csv.DictReader (PyStr.text_lines_from Ex9.trailing_space false)
  <> Csv.DictReader (PyStr.text_lines_from Ex9.no_space false).
Proof.
  split; [vm_compute; reflexivity |]. split; [vm_compute; reflexivity |].
  split; [vm_compute; reflexivity |]. vm_compute. discriminate.
Qed.

(* ================================================================= *)
(** ** The rows of a cycle (C3, C4) *)

Lemma attempts_app a b : attempts (a ++ b) = (attempts a ++ attempts b)%list.
Proof.
  induction a as [| e a IH]; [reflexivity |].
  destruct e as [p | | |]; try exact IH. destruct p; try exact IH.
  simpl. now rewrite IH.
Qed.

Lemma attempts_error_lines lines :
  attempts (map (fun line => Print (PErrorLine line)) lines) = [].
Proof. induction lines as [| l lines IH]; [reflexivity | exact IH]. Qed.

Lemma for_each_app {X} (xs ys : list X) body t tr t1 :
  for_each xs body t = (tr, t1, Normal tt) ->
  for_each (xs ++ ys) body t = prepend tr (for_each ys body t1).
Proof.
  revert t tr. induction xs as [| x xs IH]; intros t tr H.
  - inversion H; subst. simpl. now rewrite prepend_nil.
  - cbn [for_each app] in *. apply bind_inv in H.
    destruct H as [(e & _ & D) | (tr1 & t2 & [] & tr2 & H1 & H2 & ->)]; [discriminate D |].
    rewrite (bind_prepend _ _ _ _ _ _ H1), (IH _ _ H2), prepend_prepend. reflexivity.
Qed.

Section RowFacts.

Variable w : World.
Hypothesis Hquiet : never_signalled w.
Hypothesis Htool : tool_answers w.
Hypothesis Hfiles : lookups_answer w.

Lemma job_settles fqdn key email hook_script t :
  exists tr t',
    run_certbot w (Some fqdn) (Some key) (Some email) hook_script t = (tr, t', Normal tt) /\
    attempts tr = [Some fqdn].
Proof.
  destruct (Hfiles t (creds_path_of key)) as [[|] Hx].
  - rewrite (run_certbot_invokes w fqdn key email hook_script t (Hquiet _) (Hquiet _) Hx).
    destruct (Htool (S t) (job_argv fqdn key email hook_script)) as [result ->].
    unfold job_report, failure_report.
    destruct (returncode result =? 0)%Z;
      [destruct (PyStr.contains NOT_YET_DUE (stdout result)) |];
      do 2 eexists; (split; [reflexivity |]).
    + reflexivity.
    + reflexivity.
    + unfold job_head. cbn [app attempts]. rewrite attempts_app, attempts_error_lines.
      reflexivity.
  - rewrite (run_certbot_credentials_missing w fqdn key (Some email) hook_script t
               (Hquiet _) Hx).
    do 2 eexists. split; reflexivity.
Qed.

Lemma row_settles hook_script row t :
  well_formed_row row ->
  exists tr t',
    process_row w hook_script row t = (tr, t', Normal tt) /\
    attempts tr = [fqdn_of_row row].
Proof.
  unfold well_formed_row, fqdn_of_row. intros H.
  destruct (job_of_row row) as [[[f k] e] |] eqn:J; [| now elim H].
  rewrite (process_row_job w hook_script row f k e t J). apply job_settles.
Qed.

Lemma rows_settle hook_script rows t :
  Forall well_formed_row rows ->
  exists tr t',
    for_each rows (process_row w hook_script) t = (tr, t', Normal tt) /\
    attempts tr = map fqdn_of_row rows.
Proof.
  intros H. revert t. induction H as [| row rows Hrow _ IH]; intros t.
  - exists [], t. split; reflexivity.
  - destruct (row_settles hook_script row t Hrow) as (tr1 & t1 & R1 & A1).
    destruct (IH t1) as (tr2 & t2 & R2 & A2).
    exists (tr1 ++ tr2)%list, t2. cbn [for_each map].
    rewrite (bind_prepend _ _ _ _ _ _ R1), R2. split; [reflexivity |].
    rewrite attempts_app, A1, A2. reflexivity.
Qed.

Lemma sleep_settles secs t :
  sleep w secs t = ([Call (CSleep secs)], S t, Normal tt) \/
  exists e, sleep w secs t = ([], t, Raised (PyExc e)).
Proof.
  unfold sleep. destruct (Z.abs secs >? 9223372036)%Z; [right; eexists; reflexivity |].
  destruct (secs <? 0)%Z; [right; eexists; reflexivity |].
  rewrite bind_clock.
  destruct (INT64_MAX <? deadline w secs t)%Z; [right; eexists; reflexivity |].
  left. rewrite (world_call_quiet _ _ _ _ (Hquiet t)). reflexivity.
Qed.

(** A cycle that has read its rows and processed them ends with the
    closing lines and a sleep. *)
Lemma cycle_after_rows args csv_file hook_script t ip text rows tr t1 :
  w_gethostbyname w t ACME_HOST = inr ip ->
  w_exists w (S t) (PosixPath.to_string csv_file) = inr true ->
  w_open w (S (S t)) (PosixPath.to_string csv_file) = inr (text, None) ->
  Csv.DictReader (PyStr.text_lines_from text false) = (rows, None) ->
  for_each rows (process_row w hook_script) (S (S (S t))) = (tr, t1, Normal tt) ->
  exists tail t',
    cycle args w csv_file hook_script t =
    ((cycle_head args csv_file ++ tr
        ++ Print PCycleBanner :: Log (LCycleComplete (frequency args)) false :: tail)%list,
     t', Normal tt) /\
    attempts tail = [].
Proof.
  intros D X O R F.
  pose proof (cycle_body_csv_present args w csv_file hook_script t ip text
                (Hquiet _) (Hquiet _) (Hquiet _) D X O) as B.
  fold (cycle_head args csv_file) in B.
  assert (P : process_file args w hook_script text (S (S (S t))) =
              prepend (tr ++ [Print PCycleBanner;
                              Log (LCycleComplete (frequency args)) false])%list
                      (sleep w (frequency args * 60)%Z t1)).
  { unfold process_file, for_rows. rewrite R. cbn [fst snd].
    assert (F' : (for_each rows (process_row w hook_script) ;; ret tt) (S (S (S t)))
                 = (tr, t1, Normal tt)).
    { rewrite (bind_prepend _ _ _ _ _ _ F). unfold ret, prepend. now rewrite app_nil_r. }
    rewrite (bind_prepend _ _ _ _ _ _ F'). unfold print, log.
    rewrite 2 bind_emit, !prepend_prepend, <- app_assoc. reflexivity. }
  rewrite P, prepend_prepend in B.
  destruct (sleep_settles (frequency args * 60)%Z t1) as [S1 | [e S1]]; rewrite S1 in B.
  - exists [Call (CSleep (frequency args * 60)%Z)], (S t1). split; [| reflexivity].
    apply cycle_of_body. rewrite B. unfold prepend. rewrite <- !app_assoc. reflexivity.
  - exists [Log (LRuntimeException e) true; Call (CSleep RETRY_DELAY)], (S t1).
    split; [| reflexivity].
    unfold prepend in B. rewrite (cycle_catches _ _ _ _ _ _ _ _ B), (Hquiet t1).
    rewrite <- !app_assoc. reflexivity.
Qed.

End RowFacts.

(** The jobs entered in a cycle that reads well-formed rows. *)
Lemma cycle_attempts (args : Args) (w : World) (csv_file : PosixPath.Path)
    (hook_script : option string) (t : nat) (ip text : string) (rows : list Csv.Row) :
  never_signalled w -> tool_answers w -> lookups_answer w ->
  w_gethostbyname w t ACME_HOST = inr ip ->
  w_exists w (S t) (PosixPath.to_string csv_file) = inr true ->
  w_open w (S (S t)) (PosixPath.to_string csv_file) = inr (text, None) ->
  Csv.DictReader (PyStr.text_lines_from text false) = (rows, None) ->
  Forall well_formed_row rows ->
  attempts (trace_of (cycle args w csv_file hook_script t)) = map fqdn_of_row rows.
Proof.
  intros Hq Ht Hf D X O R W.
  destruct (rows_settle w Hq Ht Hf hook_script rows (3 + t) W) as (tr & t1 & F & A).
  destruct (cycle_after_rows w Hq args csv_file hook_script t ip text rows tr t1
              D X O R F) as (tail & t' & C & T).
  rewrite C. unfold trace_of. cbn [fst].
  rewrite !attempts_app, A. cbn [attempts]. rewrite T, app_nil_r. reflexivity.
Qed.

(** A file written from [N] jobs in tidy fields gives [N] attempts, one
    per line and in the order of the lines. *)
Corollary attempts_of_a_written_file (args : Args) (w : World)
    (csv_file : PosixPath.Path) (hook_script : option string) (t : nat) (ip : string)
    (jobs : list (string * string * string)) :
  never_signalled w -> tool_answers w -> lookups_answer w ->
  w_gethostbyname w t ACME_HOST = inr ip ->
  w_exists w (S t) (PosixPath.to_string csv_file) = inr true ->
  w_open w (S (S t)) (PosixPath.to_string csv_file) = inr (file_of_jobs jobs, None) ->
  Forall tidy_record (map record_of_job jobs) ->
  attempts (trace_of (cycle args w csv_file hook_script t))
  = map (fun job => Some (fst (fst job))) jobs.
Proof.
  intros Hq Ht Hf D X O T.
  assert (TH : tidy_record HEADER).
  { split; [discriminate |]. split; [discriminate |]. unfold HEADER. tidy_fields. }
  pose proof (DictReader_rendered HEADER (map record_of_job jobs)
                (Forall_cons _ TH T)) as R.
  fold (file_of_jobs jobs) in R.
  assert (J : forall job,
             job_of_row (Csv.make_row [] HEADER (record_of_job job)) = Some job).
  { intros [[f k] e]. reflexivity. }
  rewrite (cycle_attempts args w csv_file hook_script t ip _ _ Hq Ht Hf D X O R).
  - rewrite !map_map. apply map_ext. intros job. unfold fqdn_of_row. rewrite J.
    destruct job as [[f k] e]. reflexivity.
  - apply Forall_map, Forall_map, Forall_forall. intros job _.
    unfold well_formed_row. rewrite J. discriminate.
Qed.









(* ================================================================= *)
(** ** The deploy hook (C8) *)

Section ShowsFacts.

Variable w : World.
Variable P : list string -> Prop.

Lemma shows_ret {A} (a : A) : shows (runs_only P) (ret a).
Proof. intros t tr t' o H. inversion H. constructor. Qed.

Lemma shows_raise {A} e : shows (runs_only P) (@raise A e).
Proof. intros t tr t' o H. inversion H. constructor. Qed.

Lemma shows_clock : shows (runs_only P) clock.
Proof. intros t tr t' o H. inversion H. constructor. Qed.

Lemma shows_emit e : runs_only P e -> shows (runs_only P) (emit e).
Proof. intros Q t tr t' o H. inversion H. repeat constructor. exact Q. Qed.

Lemma shows_world_call {A} c (answer : nat -> py_exception + A) :
  runs_only P (Call c) -> shows (runs_only P) (world_call w c answer).
Proof.
  intros Q t tr t' o H. destruct (w_signal w t) as [s |] eqn:Hs.
  - rewrite (world_call_signal _ _ _ _ _ Hs) in H. inversion H.
    unfold shutdown_tail. repeat constructor. exact Q.
  - rewrite (world_call_quiet _ _ _ _ Hs) in H. inversion H.
    repeat constructor. exact Q.
Qed.

Lemma shows_bind {A B} (m : M A) (k : A -> M B) :
  shows (runs_only P) m -> (forall a, shows (runs_only P) (k a)) ->
  shows (runs_only P) (bind m k).
Proof.
  intros Hm Hk t tr t' o H. apply bind_inv in H.
  destruct H as [(x & H & _) | (tr1 & t1 & a & tr2 & H1 & H2 & ->)].
  - eapply Hm; eauto.
  - apply Forall_app. split; [eapply Hm | eapply Hk]; eauto.
Qed.

Lemma shows_try_except {A} (body : M A) catch :
  shows (runs_only P) body ->
  (forall e handler, catch e = Some handler -> shows (runs_only P) handler) ->
  shows (runs_only P) (try_except body catch).
Proof.
  intros Hb Hc t tr t' o H. apply try_except_inv in H.
  destruct H as [[H _] | (tr1 & t1 & e & handler & tr2 & H1 & C & H2 & ->)].
  - eapply Hb; eauto.
  - apply Forall_app. split; [eapply Hb | eapply (Hc _ _ C)]; eauto.
Qed.

Lemma shows_for_each {X} (xs : list X) body :
  (forall x, shows (runs_only P) (body x)) -> shows (runs_only P) (for_each xs body).
Proof.
  intros Hb. induction xs as [| x xs IH]; simpl.
  - apply shows_ret.
  - apply shows_bind; auto.
Qed.

End ShowsFacts.

Ltac shows_step :=
  match goal with
  | |- shows _ (bind _ _) => apply shows_bind; [| intros ?]
  | |- shows _ (ret _) => apply shows_ret
  | |- shows _ (raise _) => apply shows_raise
  | |- shows _ clock => apply shows_clock
  | |- shows _ (emit _) => apply shows_emit; exact I
  | |- shows _ (print _) => apply shows_emit; exact I
  | |- shows _ (log _ _) => apply shows_emit; exact I
  | |- shows _ (world_call _ _ _) => apply shows_world_call; exact I
  | |- shows _ (for_each _ _) => apply shows_for_each; intros ?
  | |- shows _ (match ?x with _ => _ end) => destruct x
  | |- shows _ (let _ := _ in _) => cbv zeta
  end.

Section HookFacts.

Variable args : Args.
Variable w : World.

Lemma shows_sleep P secs : shows (runs_only P) (sleep w secs).
Proof. unfold sleep. repeat shows_step. Qed.

Lemma shows_subprocess_run P cmd :
  (forall argv, all_str cmd = Some argv -> P argv) ->
  shows (runs_only P) (subprocess_run w cmd).
Proof.
  intros H. unfold subprocess_run. destruct (all_str cmd) as [argv |].
  - apply shows_bind.
    + apply shows_world_call. simpl. apply H. reflexivity.
    + intros result. repeat shows_step.
  - apply shows_raise.
Qed.

(** Every start of the tool by [run_certbot] has a command line built
    from the job and the hook it was given. *)
Lemma shows_run_certbot fqdn provider_key email hook_script :
  shows (runs_only (built_with hook_script))
        (run_certbot w fqdn provider_key email hook_script).
Proof.
  unfold run_certbot, path_exists.
  apply shows_bind; [shows_step | intros _].
  apply shows_bind; [shows_step | intros _].
  apply shows_bind; [repeat shows_step | intros key].
  cbv zeta. fold (plugin_of key). fold (creds_path_of key).
  apply shows_bind; [shows_step | intros present].
  destruct (negb present); [shows_step |].
  apply shows_bind; [| intros _; shows_step].
  apply shows_try_except.
  - apply shows_bind; [| intros result; repeat shows_step].
    apply shows_subprocess_run. intros argv H.
    destruct fqdn as [f |], email as [e |], hook_script as [h |];
      simpl in H; try discriminate H; inversion H; subst;
      exists f, key, e; reflexivity.
  - intros e handler H. destruct e; simpl in H; try discriminate H.
    inversion H; subst. repeat shows_step.
Qed.

Lemma shows_cycle csv_file hook_script :
  shows (runs_only (built_with hook_script)) (cycle args w csv_file hook_script).
Proof.
  unfold cycle. apply shows_try_except.
  - unfold cycle_body, gethostbyname, path_exists, path_open, for_rows, process_row,
      getitem.
    repeat shows_step; try apply shows_sleep; apply shows_run_certbot.
  - intros e handler H. inversion H; subst. repeat shows_step. apply shows_sleep.
Qed.

Lemma shows_service_loop n csv_file hook_script :
  shows (runs_only (built_with hook_script))
        (service_loop args w n csv_file hook_script).
Proof.
  induction n as [| n IH]; simpl; [apply shows_ret |].
  apply shows_bind; [apply shows_cycle | intros _; exact IH].
Qed.

Lemma shows_verify_hook P : shows (runs_only P) (verify_hook args w).
Proof.
  unfold verify_hook, path_exists, path_is_file, path_resolve. repeat shows_step.
Qed.

(** What the startup check leaves in [hook_script]. *)
Lemma verify_hook_result tr t' hook_script :
  verify_hook args w 0 = (tr, t', Normal hook_script) ->
  hook_script = if hook_verified args w then Some (resolved_hook args w) else None.
Proof.
  unfold verify_hook, hook_verified, resolved_hook, path_exists, path_is_file,
    path_resolve.
  destruct (hook args) as [h |]; [| intros H; inversion H; reflexivity].
  destruct (String.eqb h ""); [intros H; inversion H; reflexivity |].
  cbn [negb andb].
  set (p := PosixPath.to_string (PosixPath.of_string h)).
  intros H. apply bind_inv in H.
  destruct H as [(x & _ & D) | (tr1 & t1 & e & tr2 & H1 & H & _)]; [discriminate D |].
  apply world_call_returned in H1. destruct H1 as (_ & -> & _ & ->).
  destruct e; cbn [answered_true andb]; [| inversion H; reflexivity].
  apply bind_inv in H.
  destruct H as [(x & _ & D) | (tra & ta & f & tr3 & H1 & H & _)]; [discriminate D |].
  apply world_call_returned in H1. destruct H1 as (_ & -> & _ & ->).
  destruct f; cbn [answered_true]; [| inversion H; reflexivity].
  apply bind_inv in H.
  destruct H as [(x & _ & D) | (trb & tb & r & tr4 & H1 & H & _)]; [discriminate D |].
  apply world_call_returned in H1. destruct H1 as (_ & -> & _ & ->).
  inversion H. reflexivity.
Qed.

End HookFacts.

(** C8.  The hook is examined once, before the loop.  Every command line
    the tool is ever started with, in any cycle of the run, is the fixed
    template for its job, followed by nothing when the hook did not pass
    that examination (not given, not existing, or not a regular file),
    and followed by "--deploy-hook" and "<resolved hook> <domain of the
    job>" when it did. *)
Theorem C8_deploy_hook_follows_startup_check (args : Args) (w : World) (n : nat)
    (argv : list string) :
  In (Call (CRun argv)) (fst (run_process args w n)) ->
  exists fqdn key email,
    argv = app (certbot_argv email (plugin_of key) (creds_path_of key) fqdn)
               (if hook_verified args w
                then ["--deploy-hook"; resolved_hook args w ++ " " ++ fqdn]
                else []).
Proof.
  intros H.
  assert (S : Forall (runs_only (built_with
                        (if hook_verified args w
                         then Some (resolved_hook args w) else None)))
                     (fst (run_process args w n))).
  { unfold run_process. destruct (main args w n 0) as [[tr t'] o] eqn:E.
    assert (F : Forall (runs_only (built_with
                          (if hook_verified args w
                           then Some (resolved_hook args w) else None))) tr).
    { apply main_inv in E.
      destruct E as (trh & th & [(x & V & _ & _ & ->) | (hk & tr2 & V & L & ->)]).
      - repeat (constructor; [exact I |]).
        eapply shows_verify_hook; eauto.
      - repeat (constructor; [exact I |]).
        apply Forall_app. split; [eapply shows_verify_hook; eauto |].
        rewrite <- (verify_hook_result args w _ _ _ V).
        eapply shows_service_loop; eauto. }
    destruct o as [a | [e | c]]; exact F. }
  rewrite Forall_forall in S. specialize (S _ H). simpl in S.
  destruct S as (fqdn & key & email & ->). exists fqdn, key, email.
  unfold job_argv, deploy_hook_args. destruct (hook_verified args w); reflexivity.
Qed.

(** An instance: a verified hook is passed with the domain of the job. *)
Lemma C8_deploy_hook_follows_startup_check_witness :
  exists fqdn key email,
    ["certbot"; "certonly"; "--non-interactive"; "--agree-tos";
     "--email"; "ops@example.com"; "--dns-rfc2136"; "--dns-rfc2136-credentials";
     "/etc/letsencrypt/secrets/bind.ini"; "--keep-until-expiring"; "-d"; "b.example.com";
     "--deploy-hook"; "/opt/hooks/reload.sh b.example.com"]
    = app (certbot_argv email (plugin_of key) (creds_path_of key) fqdn)
          (if hook_verified Ex.args_hook Ex.calm
           then ["--deploy-hook"; resolved_hook Ex.args_hook Ex.calm ++ " " ++ fqdn]
           else []).
Proof.
  apply (C8_deploy_hook_follows_startup_check Ex.args_hook Ex.calm 1).
  vm_compute. repeat first [left; reflexivity | right].
Defined.


(* ================================================================= *)
(** * Further properties of the service *)

(** ** Events of every run *)

Section EveryEvent.

Variable w : World.
Variable Q : event -> Prop.
Hypothesis Hsafe : handler_safe Q.

Lemma every_ret {A} (a : A) : shows Q (ret a).
Proof. intros t tr t' o H. inversion H. constructor. Qed.

Lemma every_raise {A} e : shows Q (@raise A e).
Proof. intros t tr t' o H. inversion H. constructor. Qed.

Lemma every_clock : shows Q clock.
Proof. intros t tr t' o H. inversion H. constructor. Qed.

Lemma every_emit e : Q e -> shows Q (emit e).
Proof. intros He t tr t' o H. inversion H. repeat constructor. exact He. Qed.

Lemma every_shutdown_tail c s : Q (Call c) -> Forall Q (shutdown_tail c s).
Proof.
  destruct Hsafe as (H1 & H2 & H3). intros Hc. unfold shutdown_tail.
  repeat constructor; auto.
Qed.

Lemma every_world_call {A} c (answer : nat -> py_exception + A) :
  Q (Call c) -> shows Q (world_call w c answer).
Proof.
  intros Hc t tr t' o H. destruct (w_signal w t) as [s |] eqn:Hs.
  - rewrite (world_call_signal _ _ _ _ _ Hs) in H. inversion H.
    apply every_shutdown_tail. exact Hc.
  - rewrite (world_call_quiet _ _ _ _ Hs) in H. inversion H.
    repeat constructor. exact Hc.
Qed.

(** What follows a call only needs to be considered for the answers the
    world gives. *)
Lemma every_bind_call {A B} c (answer : nat -> py_exception + A) (k : A -> M B) :
  Q (Call c) ->
  (forall t a, w_signal w t = None -> answer t = inr a -> shows Q (k a)) ->
  shows Q (bind (world_call w c answer) k).
Proof.
  intros Hc Hk t tr t' o H. apply bind_inv in H.
  destruct H as [(x & H & _) | (tr1 & t1 & a & tr2 & H1 & H2 & ->)].
  - eapply every_world_call; eauto.
  - pose proof (every_world_call c answer Hc _ _ _ _ H1) as F1.
    apply world_call_returned in H1. destruct H1 as (Hs & Ha & _ & _).
    apply Forall_app. split; [exact F1 | eapply (Hk t a Hs Ha); eauto].
Qed.

Lemma every_bind {A B} (m : M A) (k : A -> M B) :
  shows Q m -> (forall a, shows Q (k a)) -> shows Q (bind m k).
Proof.
  intros Hm Hk t tr t' o H. apply bind_inv in H.
  destruct H as [(x & H & _) | (tr1 & t1 & a & tr2 & H1 & H2 & ->)].
  - eapply Hm; eauto.
  - apply Forall_app. split; [eapply Hm | eapply Hk]; eauto.
Qed.

Lemma every_try_except {A} (body : M A) catch :
  shows Q body ->
  (forall e handler, catch e = Some handler -> shows Q handler) ->
  shows Q (try_except body catch).
Proof.
  intros Hb Hc t tr t' o H. apply try_except_inv in H.
  destruct H as [[H _] | (tr1 & t1 & e & handler & tr2 & H1 & C & H2 & ->)].
  - eapply Hb; eauto.
  - apply Forall_app. split; [eapply Hb | eapply (Hc _ _ C)]; eauto.
Qed.

Lemma every_for_each {X} (xs : list X) body :
  (forall x, shows Q (body x)) -> shows Q (for_each xs body).
Proof.
  intros Hb. induction xs as [| x xs IH]; simpl.
  - apply every_ret.
  - apply every_bind; auto.
Qed.

End EveryEvent.

Ltac every_step :=
  match goal with
  | |- shows _ (bind _ _) => apply every_bind; [| intros ?]
  | |- shows _ (ret _) => apply every_ret
  | |- shows _ (raise _) => apply every_raise
  | |- shows _ clock => apply every_clock
  | |- shows _ (emit _) => apply every_emit; exact I
  | |- shows _ (print _) => apply every_emit; exact I
  | |- shows _ (log _ _) => apply every_emit; exact I
  | |- shows _ (world_call _ _ _) => apply every_world_call; [assumption | exact I]
  | |- shows _ (for_each _ _) => apply every_for_each; intros ?
  | |- shows _ (match ?x with _ => _ end) => destruct x
  | |- shows _ (let _ := _ in _) => cbv zeta
  end.

Section EveryEventOfTheService.

Variable args : Args.
Variable w : World.
Variable Q : event -> Prop.
Hypothesis Hsafe : handler_safe Q.
Hypothesis Hcalls : forall c, (forall argv, c <> CRun argv) -> Q (Call c).
Hypothesis Hprint : forall p, Q (Print p).
Hypothesis Hlog : forall m b, Q (Log m b).

Ltac service_step :=
  match goal with
  | |- shows _ (bind _ _) => apply every_bind; [| intros ?]
  | |- shows _ (ret _) => apply every_ret
  | |- shows _ (raise _) => apply every_raise
  | |- shows _ clock => apply every_clock
  | |- shows _ (emit (Print _)) => apply every_emit; apply Hprint
  | |- shows _ (emit (Log _ _)) => apply every_emit; apply Hlog
  | |- shows _ (print _) => apply every_emit; apply Hprint
  | |- shows _ (log _ _) => apply every_emit; apply Hlog
  | |- shows _ (world_call _ _ _) =>
      apply every_world_call; [exact Hsafe | apply Hcalls; discriminate]
  | |- shows _ (for_each _ _) => apply every_for_each; intros ?
  | |- shows _ (match ?x with _ => _ end) => destruct x
  | |- shows _ (let _ := _ in _) => cbv zeta
  end.

Lemma every_sleep secs : shows Q (sleep w secs).
Proof. unfold sleep. repeat service_step. Qed.

Lemma every_verify_hook : shows Q (verify_hook args w).
Proof.
  unfold verify_hook, path_exists, path_is_file, path_resolve. repeat service_step.
Qed.

(** What holds of every event of every job holds of every event of the
    whole run. *)
Lemma every_run n :
  (forall fqdn provider_key email hook_script,
      shows Q (run_certbot w fqdn provider_key email hook_script)) ->
  Forall Q (fst (run_process args w n)).
Proof.
  intros Hjob.
  assert (C : forall csv_file hook_script, shows Q (cycle args w csv_file hook_script)).
  { intros csv_file hook_script. unfold cycle. apply every_try_except.
    - unfold cycle_body, gethostbyname, path_exists, path_open, for_rows, process_row,
        getitem.
      repeat service_step; try apply every_sleep; apply Hjob.
    - intros e handler H. inversion H; subst. repeat service_step. apply every_sleep. }
  assert (L : forall k csv_file hook_script,
             shows Q (service_loop args w k csv_file hook_script)).
  { induction k as [| k IH]; intros csv_file hook_script; simpl; [apply every_ret |].
    apply every_bind; [apply C | intros _; apply IH]. }
  unfold run_process. destruct (main args w n 0) as [[tr t'] o] eqn:E.
  assert (F : Forall Q tr).
  { apply main_inv in E.
    destruct E as (trh & th & [(x & V & _ & _ & ->) | (hk & tr2 & V & R & ->)]).
    - repeat (constructor; [apply Hprint |]). eapply every_verify_hook; eauto.
    - repeat (constructor; [apply Hprint |]).
      apply Forall_app. split; [eapply every_verify_hook; eauto | eapply L; eauto]. }
  destruct o as [a | [e | c]]; exact F.
Qed.

Lemma every_subprocess_run cmd :
  (forall argv, all_str cmd = Some argv -> Q (Call (CRun argv))) ->
  shows Q (subprocess_run w cmd).
Proof.
  intros H. unfold subprocess_run. destruct (all_str cmd) as [argv |].
  - apply every_bind.
    + apply every_world_call; [exact Hsafe | apply H; reflexivity].
    + intros result. repeat service_step.
  - apply every_raise.
Qed.

End EveryEventOfTheService.

(** ** The tool and the credentials *)

Lemma credentials_seen_by_a_job (w : World) fqdn provider_key email hook_script :
  shows (runs_only (credentials_seen w))
        (run_certbot w fqdn provider_key email hook_script).
Proof.
  assert (Hsafe : handler_safe (runs_only (credentials_seen w)))
    by (repeat split).
  unfold run_certbot, path_exists.
  apply every_bind; [apply every_emit; exact I | intros _].
  apply every_bind; [apply every_emit; exact I | intros _].
  apply every_bind; [destruct provider_key; [apply every_ret | apply every_raise]
                    | intros key].
  cbv zeta. fold (plugin_of key). fold (creds_path_of key).
  apply every_bind_call; [exact Hsafe | exact I |]. intros t present _ Hx.
  destruct present; cbn [negb]; [| apply every_emit; exact I].
  apply every_bind; [| intros _; apply every_emit; exact I].
  apply every_try_except.
  - apply every_bind;
      [| intros result; destruct (PyStr.contains _ _); apply every_emit; exact I].
    apply every_subprocess_run; [exact Hsafe |].
    intros argv H.
    destruct fqdn as [f |], email as [e |], hook_script as [h |];
      simpl in H; try discriminate H; inversion H; subst.
    + exists t, f, key, e, (Some h). split; [reflexivity | exact Hx].
    + exists t, f, key, e, None. split; [reflexivity | exact Hx].
  - intros e handler H. destruct e; simpl in H; try discriminate H.
    inversion H; subst.
    apply every_bind; [apply every_emit; exact I | intros _].
    apply every_for_each. intros line. apply every_emit. exact I.
Qed.

(** X1.  The tool is only ever started for a job whose credential file
    the service has found on disk: every command line of every cycle
    names, as its credentials, a file of which [exists] answered true. *)
Theorem tool_started_only_with_credentials_seen (args : Args) (w : World) (n : nat)
    (argv : list string) :
  In (Call (CRun argv)) (fst (run_process args w n)) ->
  exists t fqdn key email hook_script,
    argv = job_argv fqdn key email hook_script /\
    nth 8 argv "" = creds_path_of key /\
    w_exists w t (creds_path_of key) = inr true.
Proof.
  intros H.
  assert (F : Forall (runs_only (credentials_seen w)) (fst (run_process args w n))).
  { apply every_run.
    - repeat split.
    - intros c Hc. destruct c as [? | ? | ? | ? | ? | a | ?]; try exact I.
      now elim (Hc a).
    - intros; exact I.
    - intros; exact I.
    - intros. apply credentials_seen_by_a_job. }
  rewrite Forall_forall in F. specialize (F _ H).
  destruct F as (t & fqdn & key & email & hook_script & -> & Hx).
  exists t, fqdn, key, email, hook_script. repeat split. exact Hx.
Qed.

Lemma tool_started_only_with_credentials_seen_witness :
  exists t fqdn key email hook_script,
    ["certbot"; "certonly"; "--non-interactive"; "--agree-tos";
     "--email"; "ops@example.com"; "--dns-rfc2136"; "--dns-rfc2136-credentials";
     "/etc/letsencrypt/secrets/bind.ini"; "--keep-until-expiring"; "-d"; "b.example.com"]
    = job_argv fqdn key email hook_script /\
    "/etc/letsencrypt/secrets/bind.ini" = creds_path_of key /\
    w_exists Ex.calm t (creds_path_of key) = inr true.
Proof.
  apply (tool_started_only_with_credentials_seen Ex.args Ex.calm 1).
  vm_compute. repeat first [left; reflexivity | right].
Defined.

(** ** Counting starts of the tool *)

Section Measures.

Variable w : World.
Variable f : list event -> nat.
Hypothesis f_nil : f [] = 0.
Hypothesis f_app : forall a b, f (a ++ b)%list = f a + f b.

Lemma at_most_ret {A} (a : A) n : at_most f n (ret a).
Proof. intros t tr t' o H. inversion H. rewrite f_nil. lia. Qed.

Lemma at_most_raise {A} e n : at_most f n (@raise A e).
Proof. intros t tr t' o H. inversion H. rewrite f_nil. lia. Qed.

Lemma at_most_emit e n : f [e] <= n -> at_most f n (emit e).
Proof. intros He t tr t' o H. inversion H. exact He. Qed.

Lemma at_most_world_call {A} c (answer : nat -> py_exception + A) n :
  f [Call c] <= n -> (forall s, f (shutdown_tail c s) <= n) ->
  at_most f n (world_call w c answer).
Proof.
  intros Hc Hs t tr t' o H. destruct (w_signal w t) as [s |] eqn:S.
  - rewrite (world_call_signal _ _ _ _ _ S) in H. inversion H. apply Hs.
  - rewrite (world_call_quiet _ _ _ _ S) in H. inversion H. exact Hc.
Qed.

Lemma at_most_bind {A B} (m : M A) (k : A -> M B) n1 n2 :
  at_most f n1 m -> (forall a, at_most f n2 (k a)) -> at_most f (n1 + n2) (bind m k).
Proof.
  intros Hm Hk t tr t' o H. apply bind_inv in H.
  destruct H as [(x & H & _) | (tr1 & t1 & a & tr2 & H1 & H2 & ->)].
  - apply Hm in H. lia.
  - apply Hm in H1. apply Hk in H2. rewrite f_app. lia.
Qed.

Lemma at_most_try_except {A} (body : M A) catch n1 n2 :
  at_most f n1 body ->
  (forall e handler, catch e = Some handler -> at_most f n2 handler) ->
  at_most f (n1 + n2) (try_except body catch).
Proof.
  intros Hb Hc t tr t' o H. apply try_except_inv in H.
  destruct H as [[H _] | (tr1 & t1 & e & handler & tr2 & H1 & C & H2 & ->)].
  - apply Hb in H. lia.
  - apply Hb in H1. apply (Hc _ _ C) in H2. rewrite f_app. lia.
Qed.

Lemma at_most_for_each_zero {X} (xs : list X) body :
  (forall x, at_most f 0 (body x)) -> at_most f 0 (for_each xs body).
Proof.
  intros Hb. induction xs as [| x xs IH]; simpl.
  - apply at_most_ret.
  - apply (at_most_bind _ _ 0 0); auto.
Qed.

End Measures.

Lemma starts_app a b : starts (a ++ b) = starts a + starts b.
Proof.
  unfold starts. induction a as [| e a IH]; [reflexivity |].
  destruct e as [| | c |]; try exact IH. destruct c; try exact IH.
  simpl. now rewrite IH.
Qed.

Lemma entered_app a b : entered (a ++ b) = entered a + entered b.
Proof. unfold entered. now rewrite attempts_app, List.length_app. Qed.

Ltac starts_bind a b :=
  apply at_most_bind with (n1 := a) (n2 := b);
  try reflexivity; try exact starts_app.

Ltac starts_leaf :=
  first
    [ apply at_most_ret; reflexivity
    | apply at_most_raise; reflexivity
    | apply at_most_emit; unfold starts; simpl; lia
    | apply at_most_world_call; intros; unfold starts; simpl; lia ].

Section JobCounts.

Variable w : World.

(** A job starts the tool at most once. *)
Lemma run_certbot_starts fqdn provider_key email hook_script :
  at_most starts 1 (run_certbot w fqdn provider_key email hook_script).
Proof.
  unfold run_certbot, path_exists.
  starts_bind 0 1; [starts_leaf | intros _].
  starts_bind 0 1; [starts_leaf | intros _].
  starts_bind 0 1; [destruct provider_key; starts_leaf | intros key].
  cbv zeta.
  starts_bind 0 1; [starts_leaf | intros present].
  destruct (negb present); [starts_leaf |].
  starts_bind 1 0; [| intros _; starts_leaf].
  apply at_most_try_except with (n1 := 1) (n2 := 0);
    try reflexivity; try exact starts_app.
  - starts_bind 1 0;
      [| intros result; destruct (PyStr.contains _ _); starts_leaf].
    unfold subprocess_run. destruct (all_str _) as [argv |]; [| starts_leaf].
    starts_bind 1 0; [starts_leaf |].
    intros result. destruct (returncode result =? 0)%Z; starts_leaf.
  - intros e handler H. destruct e; simpl in H; try discriminate H.
    inversion H; subst.
    starts_bind 0 0; [starts_leaf | intros _].
    apply at_most_for_each_zero; try reflexivity; try exact starts_app.
    intros line. starts_leaf.
Qed.

(** A job is entered once, whatever becomes of it. *)
Lemma run_certbot_entered fqdn provider_key email hook_script t tr t' o :
  run_certbot w fqdn provider_key email hook_script t = (tr, t', o) ->
  exists tr', tr = Print (PProvisioning fqdn) :: tr'.
Proof.
  unfold run_certbot, print. rewrite bind_emit. unfold prepend.
  match goal with
  | |- (let (_, _) := ?m in _) = _ -> _ => destruct m as [[tr1 t1] o1]
  end.
  intros H. inversion H. eauto.
Qed.

Lemma job_starts_at_most_entered fqdn provider_key email hook_script :
  traces (fun tr => starts tr <= entered tr)
         (run_certbot w fqdn provider_key email hook_script).
Proof.
  intros t tr t' o H.
  pose proof (run_certbot_starts _ _ _ _ _ _ _ _ H) as S1.
  destruct (run_certbot_entered _ _ _ _ _ _ _ _ H) as [tr' ->].
  unfold entered, starts in *. simpl in *. lia.
Qed.

End JobCounts.

Section Traces.

Variable w : World.
Variable P : list event -> Prop.
Hypothesis P_nil : P [].
Hypothesis P_app : forall a b, P a -> P b -> P (a ++ b)%list.

Lemma traces_ret {A} (a : A) : traces P (ret a).
Proof. intros t tr t' o H. inversion H. exact P_nil. Qed.

Lemma traces_raise {A} e : traces P (@raise A e).
Proof. intros t tr t' o H. inversion H. exact P_nil. Qed.

Lemma traces_clock : traces P clock.
Proof. intros t tr t' o H. inversion H. exact P_nil. Qed.

Lemma traces_emit e : P [e] -> traces P (emit e).
Proof. intros He t tr t' o H. inversion H. exact He. Qed.

Lemma traces_world_call {A} c (answer : nat -> py_exception + A) :
  P [Call c] -> (forall s, P (shutdown_tail c s)) -> traces P (world_call w c answer).
Proof.
  intros Hc Hs t tr t' o H. destruct (w_signal w t) as [s |] eqn:S.
  - rewrite (world_call_signal _ _ _ _ _ S) in H. inversion H. apply Hs.
  - rewrite (world_call_quiet _ _ _ _ S) in H. inversion H. exact Hc.
Qed.

Lemma traces_bind {A B} (m : M A) (k : A -> M B) :
  traces P m -> (forall a, traces P (k a)) -> traces P (bind m k).
Proof.
  intros Hm Hk t tr t' o H. apply bind_inv in H.
  destruct H as [(x & H & _) | (tr1 & t1 & a & tr2 & H1 & H2 & ->)].
  - eapply Hm; eauto.
  - apply P_app; [eapply Hm | eapply Hk]; eauto.
Qed.

Lemma traces_try_except {A} (body : M A) catch :
  traces P body ->
  (forall e handler, catch e = Some handler -> traces P handler) ->
  traces P (try_except body catch).
Proof.
  intros Hb Hc t tr t' o H. apply try_except_inv in H.
  destruct H as [[H _] | (tr1 & t1 & e & handler & tr2 & H1 & C & H2 & ->)].
  - eapply Hb; eauto.
  - apply P_app; [eapply Hb | eapply (Hc _ _ C)]; eauto.
Qed.

Lemma traces_for_each {X} (xs : list X) body :
  (forall x, traces P (body x)) -> traces P (for_each xs body).
Proof.
  intros Hb. induction xs as [| x xs IH]; simpl.
  - apply traces_ret.
  - apply traces_bind; auto.
Qed.

End Traces.

Ltac count_leaf :=
  first
    [ apply traces_ret; unfold starts, entered; simpl; lia
    | apply traces_raise; unfold starts, entered; simpl; lia
    | apply traces_clock; unfold starts, entered; simpl; lia
    | apply traces_emit; unfold starts, entered; simpl; lia
    | apply traces_world_call; intros; unfold starts, entered; simpl; lia ].

Ltac count_step :=
  match goal with
  | |- traces _ (bind _ _) =>
      apply traces_bind;
      [intros ? ? ? ?; rewrite starts_app, entered_app; lia | | intros ?]
  | |- traces _ (for_each _ _) =>
      apply traces_for_each;
      [unfold starts, entered; simpl; lia
      | intros ? ? ? ?; rewrite starts_app, entered_app; lia | intros ?]
  | |- traces _ (match ?x with _ => _ end) => destruct x
  | |- traces _ (let _ := _ in _) => cbv zeta
  | |- _ => count_leaf
  end.

Section RunCounts.

Variable args : Args.
Variable w : World.

Lemma sleep_counts secs :
  traces (fun tr => starts tr <= entered tr) (sleep w secs).
Proof. unfold sleep. repeat count_step. Qed.

Lemma cycle_counts csv_file hook_script :
  traces (fun tr => starts tr <= entered tr) (cycle args w csv_file hook_script).
Proof.
  unfold cycle. apply traces_try_except.
  - intros ? ? ? ?; rewrite starts_app, entered_app; lia.
  - unfold cycle_body, gethostbyname, path_exists, path_open, for_rows, process_row,
      getitem.
    repeat count_step; try apply sleep_counts; apply job_starts_at_most_entered.
  - intros e handler H. inversion H; subst. repeat count_step. apply sleep_counts.
Qed.

Lemma service_loop_counts n csv_file hook_script :
  traces (fun tr => starts tr <= entered tr)
         (service_loop args w n csv_file hook_script).
Proof.
  induction n as [| n IH]; simpl; [count_leaf |].
  apply traces_bind;
    [intros ? ? ? ?; rewrite starts_app, entered_app; lia | apply cycle_counts
     | intros _; exact IH].
Qed.

Lemma verify_hook_counts :
  traces (fun tr => starts tr <= entered tr) (verify_hook args w).
Proof.
  unfold verify_hook, path_exists, path_is_file, path_resolve. repeat count_step.
Qed.

End RunCounts.

(** X2.  However many cycles have run and however they ended, the tool
    has been started at most once for every job that was entered: no
    job is ever retried inside a cycle, and the tool is never started
    outside a job. *)
Theorem tool_started_at_most_once_per_job (args : Args) (w : World) (n : nat) :
  List.length (invocations (fst (run_process args w n)))
  <= List.length (attempts (fst (run_process args w n))).
Proof.
  unfold run_process. destruct (main args w n 0) as [[tr t'] o] eqn:E.
  assert (F : starts tr <= entered tr).
  { apply main_inv in E.
    destruct E as (trh & th & [(x & V & _ & _ & ->) | (hk & tr2 & V & R & ->)]).
    - apply verify_hook_counts in V. unfold starts, entered in *. simpl. exact V.
    - apply verify_hook_counts in V. apply service_loop_counts in R.
      change (starts (trh ++ tr2) <= entered (trh ++ tr2)).
      rewrite starts_app, entered_app. lia. }
  destruct o as [a | [e | c]]; exact F.
Qed.

(** ** The sleep at the end of a cycle *)

Section SleepFacts.

Variable args : Args.
Variable w : World.

Lemma no_sleep_safe : handler_safe no_sleep.
Proof. repeat split. Qed.

Lemma no_sleep_in_a_job fqdn provider_key email hook_script :
  shows no_sleep (run_certbot w fqdn provider_key email hook_script).
Proof.
  pose proof no_sleep_safe as Hs.
  unfold run_certbot, path_exists, subprocess_run.
  repeat first
    [ every_step
    | apply every_try_except;
      [| intros e handler H; destruct e; simpl in H; try discriminate H;
         inversion H; subst ] ].
Qed.

Lemma sleeps_last_sleep secs :
  secs = RETRY_DELAY \/ secs = (frequency args * 60)%Z ->
  sleeps_last args (sleep w secs).
Proof.
  intros Hsecs t tr t' o. unfold sleep.
  destruct (Z.abs secs >? 9223372036)%Z eqn:E1;
    [intros H; inversion H; constructor |].
  destruct (secs <? 0)%Z eqn:E2; [intros H; inversion H; constructor |].
  rewrite bind_clock.
  destruct (INT64_MAX <? deadline w secs t)%Z; [intros H; inversion H; constructor |].
  destruct (w_signal w t) as [s |] eqn:S.
  - rewrite (world_call_signal _ _ _ _ _ S). intros H. inversion H. exact I.
  - rewrite (world_call_quiet _ _ _ _ S). intros H. inversion H.
    exists [], secs. split; [reflexivity |]. split; [constructor |].
    destruct Hsecs as [-> | ->]; [left; reflexivity | right].
    split; [reflexivity |].
    rewrite Z.gtb_ltb in E1. apply Z.ltb_ge in E1, E2. lia.
Qed.

Lemma sleeps_last_bind {A B} (m : M A) (k : A -> M B) :
  shows no_sleep m -> (forall a, sleeps_last args (k a)) ->
  sleeps_last args (bind m k).
Proof.
  intros Hm Hk t tr t' o H. apply bind_inv in H.
  destruct H as [(x & H & ->) | (tr1 & t1 & a & tr2 & H1 & H2 & ->)].
  - destruct x as [e | c]; [eapply Hm; eauto | exact I].
  - pose proof (Hm _ _ _ _ H1) as F1. pose proof (Hk a _ _ _ _ H2) as L.
    destruct o as [b | [e | c]].
    + destruct L as (tr0 & secs & -> & F0 & S).
      exists (tr1 ++ tr0)%list, secs. rewrite app_assoc.
      split; [reflexivity |]. split; [apply Forall_app; auto | exact S].
    + apply Forall_app. auto.
    + exact I.
Qed.

Lemma sleeps_last_cycle_body csv_file hook_script :
  sleeps_last args (cycle_body args w csv_file hook_script).
Proof.
  pose proof no_sleep_safe as Hs.
  unfold cycle_body, gethostbyname, path_exists, path_open.
  repeat (apply sleeps_last_bind; [every_step | intros ?]).
  match goal with |- sleeps_last _ (if ?b then _ else _) => destruct b end.
  - apply sleeps_last_bind; [every_step | intros _].
    apply sleeps_last_sleep. left. reflexivity.
  - repeat (apply sleeps_last_bind; [every_step | intros ?]).
    apply sleeps_last_bind.
    + unfold for_rows, process_row, getitem.
      repeat every_step; apply no_sleep_in_a_job.
    + intros _. repeat (apply sleeps_last_bind; [every_step | intros ?]).
      apply sleeps_last_sleep. right. reflexivity.
Qed.

End SleepFacts.

Lemma sleeps_last_cycle (args : Args) (w : World)
    (csv_file : PosixPath.Path) (hook_script : option string) :
  sleeps_last args (cycle args w csv_file hook_script).
Proof.
  intros t tr t' o H. destruct o as [[] | [e | c]]; [| | exact I].
  - unfold cycle in H. apply try_except_inv in H.
    destruct H as [[H _] | (tr1 & t1 & e & handler & tr2 & H1 & C & H2 & ->)].
    + exact (sleeps_last_cycle_body args w csv_file hook_script _ _ _ _ H).
    + pose proof (sleeps_last_cycle_body args w csv_file hook_script _ _ _ _ H1) as F1.
      simpl in F1. inversion C; subst. rewrite handler_run in H2.
      destruct (w_signal w t1); inversion H2; subst.
      exists (tr1 ++ [Log (LRuntimeException e) true])%list, RETRY_DELAY.
      rewrite <- app_assoc. split; [reflexivity |].
      split; [| left; reflexivity].
      apply Forall_app. split; [exact F1 | repeat constructor].
  - exfalso. eapply cycle_contained; eauto.
Qed.

(** X3.  A turn of the service loop that ends normally has slept exactly
    once, and the sleep is the last thing it did: for [RETRY_DELAY]
    seconds, or for the configured [frequency * 60] seconds, which then
    lies in the range [time.sleep] accepts.  No cycle goes on to the
    next without a sleep. *)
Theorem every_cycle_ends_with_one_sleep (args : Args) (w : World)
    (csv_file : PosixPath.Path) (hook_script : option string) (t : nat)
    (tr : list event) (t' : nat) :
  cycle args w csv_file hook_script t = (tr, t', Normal tt) ->
  exists tr0 secs,
    tr = (tr0 ++ [Call (CSleep secs)])%list /\
    Forall no_sleep tr0 /\
    (secs = RETRY_DELAY \/
     (secs = (frequency args * 60)%Z /\ (0 <= secs <= 9223372036)%Z)).
Proof.
  intros H. exact (sleeps_last_cycle args w csv_file hook_script _ _ _ _ H).
Qed.

Example calm_cycle_ends_normally :
  exists tr t',
    cycle Ex.args Ex.calm (PosixPath.of_string "/data/domains.csv") None 0
    = (tr, t', Normal tt).
Proof. do 2 eexists. vm_compute. reflexivity. Qed.

Lemma every_cycle_ends_with_one_sleep_witness :
  exists tr0 secs,
    trace_of (cycle Ex.args Ex.calm (PosixPath.of_string "/data/domains.csv") None 0)
    = (tr0 ++ [Call (CSleep secs)])%list /\
    Forall no_sleep tr0 /\
    (secs = RETRY_DELAY \/
     (secs = (frequency Ex.args * 60)%Z /\ (0 <= secs <= 9223372036)%Z)).
Proof.
  destruct calm_cycle_ends_normally as (tr & t' & H).
  rewrite H.
  exact (every_cycle_ends_with_one_sleep Ex.args Ex.calm _ None 0 tr t' H).
Defined.

Lemma process_file_after_rows (args : Args) (w : World) hook_script text t0 tr t1 :
  for_rows (Csv.DictReader (PyStr.text_lines_from text false))
           (process_row w hook_script) t0 = (tr, t1, Normal tt) ->
  process_file args w hook_script text t0 =
  prepend (tr ++ [Print PCycleBanner; Log (LCycleComplete (frequency args)) false])%list
          (sleep w (frequency args * 60)%Z t1).
Proof.
  intros F. unfold process_file. rewrite (bind_prepend _ _ _ _ _ _ F).
  unfold print, log. rewrite 2 bind_emit, !prepend_prepend, <- app_assoc. reflexivity.
Qed.

Lemma sleep_rejected (w : World) secs t :
  (secs < 0 \/ 9223372036 < secs)%Z ->
  exists e, sleep w secs t = ([], t, Raised (PyExc e)) /\
            ((-9223372036 <= secs < 0)%Z ->
             e = ValueError "sleep length must be non-negative").
Proof.
  intros H. unfold sleep.
  destruct (Z.abs secs >? 9223372036)%Z eqn:E1.
  - eexists. split; [reflexivity |]. intros R.
    rewrite Z.gtb_ltb in E1. apply Z.ltb_lt in E1. lia.
  - destruct (secs <? 0)%Z eqn:E2.
    + eexists. split; reflexivity.
    + rewrite Z.gtb_ltb in E1. apply Z.ltb_ge in E1, E2. lia.
Qed.

(** X4.  With a [--frequency] whose interval [time.sleep] rejects (a
    negative one, or one beyond its range), the service never waits the
    configured interval: a cycle that has processed its rows logs
    "Cycle complete", then the exception of [time.sleep] (a [ValueError]
    for a negative interval), and sleeps [RETRY_DELAY] seconds before the
    next cycle. *)
Theorem rejected_frequency_falls_back_to_retry_delay (args : Args) (w : World)
    (csv_file : PosixPath.Path) (hook_script : option string) (t : nat)
    (ip text : string) (tr : list event) (t1 : nat) :
  (frequency args * 60 < 0 \/ 9223372036 < frequency args * 60)%Z ->
  w_signal w t = None -> w_signal w (S t) = None -> w_signal w (S (S t)) = None ->
  w_gethostbyname w t ACME_HOST = inr ip ->
  w_exists w (S t) (PosixPath.to_string csv_file) = inr true ->
  w_open w (S (S t)) (PosixPath.to_string csv_file) = inr (text, None) ->
  for_rows (Csv.DictReader (PyStr.text_lines_from text false))
           (process_row w hook_script) (S (S (S t))) = (tr, t1, Normal tt) ->
  exists e,
    cycle args w csv_file hook_script t =
    prepend (cycle_head args csv_file ++ tr
               ++ [Print PCycleBanner; Log (LCycleComplete (frequency args)) false;
                   Log (LRuntimeException e) true])%list
            (sleep w RETRY_DELAY t1) /\
    ((-9223372036 <= frequency args * 60 < 0)%Z ->
     e = ValueError "sleep length must be non-negative").
Proof.
  intros Hf S0 S1 S2 D X O F.
  destruct (sleep_rejected w _ t1 Hf) as (e & Hs & He).
  exists e. split; [| exact He].
  pose proof (cycle_body_csv_present args w csv_file hook_script t ip text
                S0 S1 S2 D X O) as B.
  fold (cycle_head args csv_file) in B.
  rewrite (process_file_after_rows args w hook_script text _ _ _ F), Hs in B.
  unfold prepend in B.
  rewrite (cycle_catches _ _ _ _ _ _ _ _ B), sleep_retry_delay.
  destruct (w_signal w t1); unfold prepend; rewrite <- !app_assoc; reflexivity.
Qed.

Example calm_rows_processed :
  for_rows (Csv.DictReader (PyStr.text_lines_from Ex.two_rows false))
           (process_row Ex.calm None) 3
  = (trace_of (for_rows (Csv.DictReader (PyStr.text_lines_from Ex.two_rows false))
                        (process_row Ex.calm None) 3), 7, Normal tt).
Proof. vm_compute. reflexivity. Qed.

Lemma rejected_frequency_falls_back_to_retry_delay_witness :
  exists e,
    cycle ExF.negative Ex.calm (PosixPath.of_string "/data/domains.csv") None 0 =
    prepend (cycle_head ExF.negative (PosixPath.of_string "/data/domains.csv")
               ++ trace_of (for_rows
                              (Csv.DictReader (PyStr.text_lines_from Ex.two_rows false))
                              (process_row Ex.calm None) 3)
               ++ [Print PCycleBanner; Log (LCycleComplete (-5)) false;
                   Log (LRuntimeException e) true])%list
            (sleep Ex.calm RETRY_DELAY 7) /\
    ((-9223372036 <= -5 * 60 < 0)%Z ->
     e = ValueError "sleep length must be non-negative").
Proof.
  refine (rejected_frequency_falls_back_to_retry_delay ExF.negative Ex.calm
            (PosixPath.of_string "/data/domains.csv") None 0 "172.65.32.248"
            Ex.two_rows _ 7 _ _ _ _ _ _ _ calm_rows_processed).
  - left. reflexivity.
  - reflexivity.
  - reflexivity.
  - reflexivity.
  - reflexivity.
  - reflexivity.
  - reflexivity.
Defined.

(** An interval that passes the check of the argument and is rejected by
    the system, its deadline being beyond the clock: the cycle ends in
    the handler as well. *)
Example interval_beyond_the_clock :
  sleep Ex.calm (frequency ExF.huge * 60) 7 =
  ([], 7, Raised (PyExc (EnvironmentError "OSError" "[Errno 22] Invalid argument"))) /\
  exists tr,
    cycle ExF.huge Ex.calm (PosixPath.of_string "/data/domains.csv") None 0 =
    ((tr ++ [Print PCycleBanner; Log (LCycleComplete 153722867) false;
             Log (LRuntimeException
                    (EnvironmentError "OSError" "[Errno 22] Invalid argument")) true;
             Call (CSleep 60)])%list, 8, Normal tt).
Proof.
  split; [vm_compute; reflexivity |].
  exists (firstn 18
            (trace_of (cycle ExF.huge Ex.calm (PosixPath.of_string "/data/domains.csv")
                             None 0))).
  vm_compute. reflexivity.
Qed.

(* ================================================================= *)
(** ** What the service asks of its environment *)

Section Environment.

Variable args : Args.
Variable w : World.

Lemma loop_event_safe : handler_safe (loop_event args).
Proof. repeat split. Qed.

Lemma startup_event_safe : handler_safe (startup_event args).
Proof. repeat split. Qed.

Lemma loop_sleep secs :
  secs = RETRY_DELAY \/ secs = (frequency args * 60)%Z ->
  shows (loop_event args) (sleep w secs).
Proof.
  intros H. unfold sleep.
  destruct (Z.abs secs >? 9223372036)%Z eqn:E1; [apply every_raise |].
  destruct (secs <? 0)%Z eqn:E2; [apply every_raise |].
  apply every_bind; [apply every_clock | intros now].
  destruct (INT64_MAX <? deadline w secs now)%Z; [apply every_raise |].
  apply every_world_call; [exact loop_event_safe |].
  rewrite Z.gtb_ltb in E1. apply Z.ltb_ge in E1, E2.
  destruct H as [-> | ->]; [left; reflexivity | right].
  split; [reflexivity | lia].
Qed.

Lemma loop_run_certbot fqdn provider_key email hook_script :
  shows (loop_event args) (run_certbot w fqdn provider_key email hook_script).
Proof.
  unfold run_certbot, path_exists.
  apply every_bind; [apply every_emit; exact I | intros _].
  apply every_bind; [apply every_emit; exact I | intros _].
  apply every_bind; [destruct provider_key; [apply every_ret | apply every_raise]
                    | intros key].
  cbv zeta. fold (plugin_of key). fold (creds_path_of key).
  apply every_bind;
    [apply every_world_call; [exact loop_event_safe | right; exists key; reflexivity]
    | intros present].
  destruct (negb present); [apply every_emit; exact I |].
  apply every_bind; [| intros _; apply every_emit; exact I].
  apply every_try_except.
  - apply every_bind;
      [| intros result; destruct (PyStr.contains _ _); apply every_emit; exact I].
    apply every_subprocess_run; [exact loop_event_safe |].
    intros argv H.
    destruct fqdn as [f |], email as [e |], hook_script as [h |];
      simpl in H; try discriminate H; inversion H; subst.
    + exists f, key, e, (Some h). reflexivity.
    + exists f, key, e, None. reflexivity.
  - intros e handler H. destruct e; simpl in H; try discriminate H.
    inversion H; subst.
    apply every_bind; [apply every_emit; exact I | intros _].
    apply every_for_each. intros line. apply every_emit. exact I.
Qed.

Lemma loop_cycle hook_script :
  shows (loop_event args) (cycle args w (PosixPath.of_string (csv args)) hook_script).
Proof.
  pose proof loop_event_safe as Hsafe.
  unfold cycle. apply every_try_except.
  - unfold cycle_body, gethostbyname, path_exists, path_open.
    apply every_bind; [apply every_emit; exact I | intros _].
    apply every_bind; [apply every_emit; exact I | intros _].
    apply every_bind; [apply every_world_call; [exact Hsafe | reflexivity] | intros _].
    apply every_bind;
      [apply every_world_call; [exact Hsafe | left; reflexivity] | intros present].
    destruct (negb present).
    + apply every_bind; [apply every_emit; exact I | intros _].
      apply loop_sleep. left. reflexivity.
    + apply every_bind; [apply every_emit; exact I | intros _].
      apply every_bind; [apply every_world_call; [exact Hsafe | reflexivity] | intros text].
      apply every_bind.
      * unfold for_rows, process_row, getitem.
        repeat every_step; apply loop_run_certbot.
      * intros _.
        apply every_bind; [apply every_emit; exact I | intros _].
        apply every_bind; [apply every_emit; exact I | intros _].
        apply loop_sleep. right. reflexivity.
  - intros e handler H. inversion H; subst.
    apply every_bind; [apply every_emit; exact I | intros _].
    apply loop_sleep. left. reflexivity.
Qed.

Lemma loop_service_loop n hook_script :
  shows (loop_event args)
        (service_loop args w n (PosixPath.of_string (csv args)) hook_script).
Proof.
  induction n as [| n IH]; simpl; [apply every_ret |].
  apply every_bind; [apply loop_cycle | intros _; exact IH].
Qed.

Lemma startup_verify_hook : shows (startup_event args) (verify_hook args w).
Proof.
  pose proof startup_event_safe as Hsafe.
  unfold verify_hook, path_exists, path_is_file, path_resolve.
  destruct (hook args) as [h |] eqn:Hh; [| apply every_ret].
  destruct (String.eqb h "") eqn:E; [apply every_ret |].
  assert (P : hook_path args (PosixPath.to_string (PosixPath.of_string h))).
  { exists h. repeat split; [exact Hh |]. intros ->. discriminate E. }
  apply every_bind; [apply every_world_call; [exact Hsafe | exact P] | intros [|]];
    [| apply every_ret].
  apply every_bind; [apply every_world_call; [exact Hsafe | exact P] | intros [|]];
    [| apply every_ret].
  apply every_bind; [apply every_world_call; [exact Hsafe | exact P] | intros r].
  apply every_ret.
Qed.

End Environment.

(** X5.  What the service asks of its environment.  After the three
    lines of the banner the hook is examined, and only there: the
    startup check asks nothing but whether the hook exists, whether it is
    a file and what it resolves to.  Everything after it, in any number
    of cycles, is of five kinds: the lookup of the ACME host, a test for
    the list of domains or for the credential file of a provider key,
    opening the list of domains, starting the tool on the command line
    of a job, and a sleep of [RETRY_DELAY] seconds or of the configured
    interval. *)
Theorem calls_of_the_service (args : Args) (w : World) (n : nat) :
  exists tr,
    fst (run_process args w n) =
    (Print PStars :: Print PLoaded :: Print PStars
       :: trace_of (verify_hook args w 0) ++ tr)%list /\
    Forall (startup_event args) (trace_of (verify_hook args w 0)) /\
    Forall (loop_event args) tr.
Proof.
  unfold run_process. destruct (main args w n 0) as [[tr t'] o] eqn:E.
  assert (F : exists tr2,
             tr = (Print PStars :: Print PLoaded :: Print PStars
                     :: trace_of (verify_hook args w 0) ++ tr2)%list /\
             Forall (startup_event args) (trace_of (verify_hook args w 0)) /\
             Forall (loop_event args) tr2).
  { apply main_inv in E.
    destruct E as (trh & th & [(x & V & _ & _ & ->) | (hk & tr2 & V & L & ->)]).
    - exists []. rewrite V. unfold trace_of. cbn [fst]. rewrite app_nil_r.
      split; [reflexivity |]. split; [| constructor].
      eapply startup_verify_hook; eauto.
    - exists tr2. rewrite V. unfold trace_of. cbn [fst].
      split; [reflexivity |]. split.
      + eapply startup_verify_hook; eauto.
      + eapply loop_service_loop; eauto. }
  destruct o as [a | [e | c]]; exact F.
Qed.

(* ================================================================= *)
(** ** Rows and columns *)

Section RowsAndColumns.

Import Csv.

Lemma dict_get_set d key value k :
  dict_get (dict_set d key value) k =
  if String.eqb key k then Some value else dict_get d k.
Proof.
  induction d as [| [k0 v0] d IH]; cbn [dict_set dict_get].
  - reflexivity.
  - destruct (String.eqb k0 key) eqn:E; cbn [dict_get].
    + apply String.eqb_eq in E. subst k0. destruct (String.eqb key k); reflexivity.
    + destruct (String.eqb k0 k) eqn:E2; [| exact IH].
      apply String.eqb_eq in E2. subst k0. now rewrite String.eqb_sym, E.
Qed.

Lemma make_row_get d fieldnames record k :
  dict_get (make_row d fieldnames record) k =
  match last_column fieldnames k with
  | Some i => Some (nth_error record i)
  | None => dict_get d k
  end.
Proof.
  revert d record. induction fieldnames as [| name rest IH]; intros d record.
  - reflexivity.
  - cbn [make_row last_column].
    destruct record as [| v vs]; rewrite IH, dict_get_set;
      destruct (last_column rest k) as [i |]; try reflexivity;
      try (destruct (String.eqb name k); reflexivity).
    destruct i; reflexivity.
Qed.

Lemma last_column_none fieldnames k :
  last_column fieldnames k = None <-> ~ In k fieldnames.
Proof.
  induction fieldnames as [| name rest IH]; cbn [last_column In].
  - tauto.
  - destruct (last_column rest k) as [i |].
    + split; [discriminate |]. intros H. exfalso. apply H. right.
      destruct (in_dec string_dec k rest) as [Hin | Hn]; [exact Hin |].
      apply IH in Hn. discriminate Hn.
    + destruct (String.eqb name k) eqn:E.
      * apply String.eqb_eq in E. split; [discriminate | intros H; elim H; now left].
      * apply String.eqb_neq in E. split; [| reflexivity].
        intros _ [H | H]; [exact (E H) | now apply (proj1 IH)].
Qed.

End RowsAndColumns.

(** X6.  The three values of a job are found by the names of the
    columns, not by their positions: for the row made of a header and a
    record, each value is the field of the record under the last column
    of that name, and [None] when the record is too short to have one;
    columns of other names are ignored.  When a column is missing from
    the header the row raises [KeyError] for the first of "fqdn",
    "dns_provider", "email" that is missing, before anything is shown
    and without entering [run_certbot]. *)
Theorem columns_are_found_by_name (w : World) (hook_script : option string)
    (fieldnames record : list string) (t : nat) :
  process_row w hook_script (Csv.make_row [] fieldnames record) t =
  match last_column fieldnames "fqdn" with
  | None => ([], t, Raised (PyExc (KeyError "fqdn")))
  | Some i =>
      match last_column fieldnames "dns_provider" with
      | None => ([], t, Raised (PyExc (KeyError "dns_provider")))
      | Some j =>
          match last_column fieldnames "email" with
          | None => ([], t, Raised (PyExc (KeyError "email")))
          | Some k =>
              run_certbot w (nth_error record i) (nth_error record j)
                          (nth_error record k) hook_script t
          end
      end
  end.
Proof.
  unfold process_row, getitem. rewrite !make_row_get. cbn [Csv.dict_get].
  destruct (last_column fieldnames "fqdn"); [| reflexivity].
  destruct (last_column fieldnames "dns_provider"); [| reflexivity].
  destruct (last_column fieldnames "email"); [| reflexivity].
  now rewrite 3 bind_ret.
Qed.

(** The columns in another order. *)
Example columns_in_another_order :
  process_row Ex.calm None
    (Csv.make_row [] ExR.other_order
       ["ops@example.com"; "renew in May"; "a.example.com"; "cloudflare"]) 0 =
  run_certbot Ex.calm (Some "a.example.com") (Some "cloudflare") (Some "ops@example.com")
              None 0.
Proof. vm_compute. reflexivity. Qed.

Lemma has_column_last fieldnames k :
  has_column fieldnames k = false <-> last_column fieldnames k = None.
Proof.
  rewrite last_column_none. unfold has_column. split.
  - intros H Hin. apply not_true_iff_false in H. apply H.
    apply existsb_exists. exists k. split; [exact Hin | apply String.eqb_refl].
  - intros H. apply not_true_iff_false. intros E. apply existsb_exists in E.
    destruct E as (x & Hin & E). apply String.eqb_eq in E. subst x. exact (H Hin).
Qed.

Lemma has_column_some fieldnames k :
  has_column fieldnames k = true -> exists i, last_column fieldnames k = Some i.
Proof.
  intros H. destruct (last_column fieldnames k) as [i |] eqn:E; [eauto |].
  apply has_column_last in E. congruence.
Qed.

(** A row of a list whose header lacks a column raises [KeyError] for
    the first column that is missing. *)
Lemma missing_column_raises (w : World) hook_script fieldnames record t k :
  first_missing fieldnames = Some k ->
  process_row w hook_script (Csv.make_row [] fieldnames record) t =
  ([], t, Raised (PyExc (KeyError k))).
Proof.
  unfold first_missing. cbn [find]. intros H.
  unfold process_row, getitem. rewrite !make_row_get. cbn [Csv.dict_get].
  destruct (has_column fieldnames "fqdn") eqn:E1; cbn [negb] in H.
  2: { inversion H; subst. apply has_column_last in E1. rewrite E1. reflexivity. }
  destruct (has_column_some _ _ E1) as [i ->]. rewrite bind_ret.
  destruct (has_column fieldnames "dns_provider") eqn:E2; cbn [negb] in H.
  2: { inversion H; subst. apply has_column_last in E2. rewrite E2. reflexivity. }
  destruct (has_column_some _ _ E2) as [j ->]. rewrite bind_ret.
  destruct (has_column fieldnames "email") eqn:E3; cbn [negb] in H; [discriminate H |].
  inversion H; subst. apply has_column_last in E3. rewrite E3. reflexivity.
Qed.

Lemma first_data_record records :
  (exists record, In record records /\ record <> []) ->
  exists record rest,
    filter (fun r => negb (Csv.is_blank r)) records = record :: rest.
Proof.
  intros (record & Hin & Hne).
  assert (F : In record (filter (fun r => negb (Csv.is_blank r)) records)).
  { apply filter_In. split; [exact Hin |]. destruct record; [now elim Hne | reflexivity]. }
  destruct (filter _ records) as [| r0 rest]; [elim F |]. eauto.
Qed.

(** X7.  A list of domains whose header lacks one of the columns
    "fqdn", "dns_provider", "email" stops every cycle at its first line
    of data: no job is entered, the cycle logs the [KeyError] that names
    the first of the three columns, in this order, that is missing, and
    sleeps [RETRY_DELAY] seconds. *)
Theorem missing_column_ends_the_cycle (args : Args) (w : World)
    (csv_file : PosixPath.Path) (hook_script : option string) (t : nat)
    (ip text : string) (fieldnames : list string) (records : list (list string))
    (err : option py_exception) (k : string) :
  w_signal w t = None -> w_signal w (S t) = None -> w_signal w (S (S t)) = None ->
  w_gethostbyname w t ACME_HOST = inr ip ->
  w_exists w (S t) (PosixPath.to_string csv_file) = inr true ->
  w_open w (S (S t)) (PosixPath.to_string csv_file) = inr (text, None) ->
  Csv.reader (PyStr.text_lines_from text false) = (fieldnames :: records, err) ->
  (exists record, In record records /\ record <> []) ->
  first_missing fieldnames = Some k ->
  cycle args w csv_file hook_script t =
  prepend (cycle_head args csv_file ++ [Log (LRuntimeException (KeyError k)) true])%list
          (sleep w RETRY_DELAY (S (S (S t)))) /\
  attempts (trace_of (cycle args w csv_file hook_script t)) = [].
Proof.
  intros S0 S1 S2 D X O R Hrec Hk.
  destruct (first_data_record records Hrec) as (record & rest & F).
  pose proof (missing_column_raises w hook_script fieldnames record (S (S (S t))) k Hk)
    as P.
  pose proof (cycle_body_csv_present args w csv_file hook_script t ip text
                S0 S1 S2 D X O) as B.
  fold (cycle_head args csv_file) in B.
  assert (E : process_file args w hook_script text (S (S (S t))) =
              ([], S (S (S t)), Raised (PyExc (KeyError k)))).
  { unfold process_file, for_rows, Csv.DictReader. rewrite R, F. cbn [map fst snd for_each].
    apply bind_raised. apply bind_raised. apply bind_raised. exact P. }
  rewrite E in B. unfold prepend in B. rewrite app_nil_r in B.
  rewrite (cycle_catches _ _ _ _ _ _ _ _ B), sleep_retry_delay.
  destruct (w_signal w (S (S (S t)))); unfold prepend, trace_of; cbn [fst];
    rewrite <- ?app_assoc; (split; [reflexivity |]);
    rewrite attempts_app; reflexivity.
Qed.

Example email_column_only_read :
  Csv.reader (PyStr.text_lines_from ExR.email_column_only false) =
  (["email"] :: [["ops@example.com"]], None).
Proof. vm_compute. reflexivity. Qed.

(** An instance: of the two columns that are missing, the error names
    "fqdn", which the loop asks for first. *)
Lemma missing_column_ends_the_cycle_witness :
  cycle Ex.args (ExR.holding ExR.email_column_only)
        (PosixPath.of_string "/data/domains.csv") None 0 =
  prepend (cycle_head Ex.args (PosixPath.of_string "/data/domains.csv")
             ++ [Log (LRuntimeException (KeyError "fqdn")) true])%list
          (sleep (ExR.holding ExR.email_column_only) RETRY_DELAY 3) /\
  attempts (trace_of (cycle Ex.args (ExR.holding ExR.email_column_only)
                        (PosixPath.of_string "/data/domains.csv") None 0)) = [].
Proof.
  refine (missing_column_ends_the_cycle Ex.args (ExR.holding ExR.email_column_only)
            (PosixPath.of_string "/data/domains.csv") None 0 "172.65.32.248"
            ExR.email_column_only ["email"]
            [["ops@example.com"]] None "fqdn"
            _ _ _ _ _ _ email_column_only_read _ _).
  - reflexivity.
  - reflexivity.
  - reflexivity.
  - reflexivity.
  - reflexivity.
  - reflexivity.
  - exists ["ops@example.com"]. split; [left; reflexivity | discriminate].
  - reflexivity.
Defined.

(** ** Rows that lack a value *)

Lemma run_certbot_without_provider (w : World) fqdn email hook_script t :
  run_certbot w fqdn None email hook_script t =
  ([Print (PProvisioning fqdn); Print PSeparator], t,
   Raised (PyExc (AttributeError "'NoneType' object has no attribute 'lower'"))).
Proof. reflexivity. Qed.

Lemma process_row_without_provider (w : World) hook_script row fqdn email t :
  Csv.dict_get row "fqdn" = Some fqdn ->
  Csv.dict_get row "dns_provider" = Some None ->
  Csv.dict_get row "email" = Some email ->
  process_row w hook_script row t =
  ([Print (PProvisioning fqdn); Print PSeparator], t,
   Raised (PyExc (AttributeError "'NoneType' object has no attribute 'lower'"))).
Proof.
  intros F P E. unfold process_row, getitem. rewrite F, P, E, 3 bind_ret.
  apply run_certbot_without_provider.
Qed.

Lemma process_file_row_raises (args : Args) (w : World) hook_script text
    before row after err t tr0 t0 tr1 t1 e :
  Csv.DictReader (PyStr.text_lines_from text false) = ((before ++ row :: after)%list, err) ->
  for_each before (process_row w hook_script) t = (tr0, t0, Normal tt) ->
  process_row w hook_script row t0 = (tr1, t1, Raised (PyExc e)) ->
  process_file args w hook_script text t = ((tr0 ++ tr1)%list, t1, Raised (PyExc e)).
Proof.
  intros R F P. unfold process_file, for_rows. rewrite R. cbn [fst snd].
  apply bind_raised. apply bind_raised.
  rewrite (for_each_app _ _ _ _ _ _ F). cbn [for_each].
  rewrite (bind_raised _ _ _ _ _ _ P). reflexivity.
Qed.

(** X8.  A line of the list that gives no value for the column
    "dns_provider" (a line with too few fields) ends the cycle where it
    stands: the job is announced, [provider_key.lower()] raises
    [AttributeError], the handler of the loop logs it and sleeps
    [RETRY_DELAY] seconds, and the lines after it are not processed in
    that cycle. *)
Theorem row_without_provider_ends_the_cycle (args : Args) (w : World)
    (csv_file : PosixPath.Path) (hook_script : option string) (t : nat)
    (ip text : string) (before : list Csv.Row) (row : Csv.Row) (after : list Csv.Row)
    (err : option py_exception) (fqdn email : option string)
    (tr0 : list event) (t0 : nat) :
  w_signal w t = None -> w_signal w (S t) = None -> w_signal w (S (S t)) = None ->
  w_gethostbyname w t ACME_HOST = inr ip ->
  w_exists w (S t) (PosixPath.to_string csv_file) = inr true ->
  w_open w (S (S t)) (PosixPath.to_string csv_file) = inr (text, None) ->
  Csv.DictReader (PyStr.text_lines_from text false) = ((before ++ row :: after)%list, err) ->
  for_each before (process_row w hook_script) (S (S (S t))) = (tr0, t0, Normal tt) ->
  Csv.dict_get row "fqdn" = Some fqdn ->
  Csv.dict_get row "dns_provider" = Some None ->
  Csv.dict_get row "email" = Some email ->
  cycle args w csv_file hook_script t =
  prepend (cycle_head args csv_file ++ tr0
             ++ [Print (PProvisioning fqdn); Print PSeparator;
                 Log (LRuntimeException
                        (AttributeError "'NoneType' object has no attribute 'lower'"))
                     true])%list
          (sleep w RETRY_DELAY t0) /\
  attempts (trace_of (cycle args w csv_file hook_script t)) = (attempts tr0 ++ [fqdn])%list.
Proof.
  intros S0 S1 S2 D X O R F Hf Hp He.
  pose proof (cycle_body_csv_present args w csv_file hook_script t ip text
                S0 S1 S2 D X O) as B.
  fold (cycle_head args csv_file) in B.
  rewrite (process_file_row_raises args w hook_script text before row after err _ _ _ _ _ _
             R F (process_row_without_provider w hook_script row fqdn email t0 Hf Hp He))
    in B.
  unfold prepend in B.
  rewrite (cycle_catches _ _ _ _ _ _ _ _ B), sleep_retry_delay.
  destruct (w_signal w t0); unfold prepend, trace_of; cbn [fst];
    rewrite <- ?app_assoc; (split; [reflexivity |]);
    rewrite !attempts_app; cbn [app attempts]; rewrite ?app_nil_r; reflexivity.
Qed.

(** A line of spaces is not a blank line: it is read as a row whose
    first value is empty and whose other values are missing. *)
Example line_of_spaces_read :
  Csv.DictReader (PyStr.text_lines_from ExR.line_of_spaces false) =
  (([Ex.row_a]
      ++ [("fqdn", Some ""); ("dns_provider", None); ("email", None)] :: [Ex.row_b])%list,
   None).
Proof. vm_compute. reflexivity. Qed.

Example first_row_processed :
  for_each [Ex.row_a] (process_row (ExR.holding ExR.line_of_spaces) None) 3 =
  ([Print (PProvisioning (Some "a.example.com")); Print PSeparator;
    Call (CExists "/etc/letsencrypt/secrets/cloudflare.ini");
    Call (CRun (job_argv "a.example.com" "cloudflare" "ops@example.com" None));
    Print PStatusValid; Print PSeparator], 5, Normal tt).
Proof. vm_compute. reflexivity. Qed.

Lemma row_without_provider_ends_the_cycle_witness :
  attempts (trace_of (cycle Ex.args (ExR.holding ExR.line_of_spaces)
                        (PosixPath.of_string "/data/domains.csv") None 0))
  = (attempts [Print (PProvisioning (Some "a.example.com")); Print PSeparator;
               Call (CExists "/etc/letsencrypt/secrets/cloudflare.ini");
               Call (CRun (job_argv "a.example.com" "cloudflare" "ops@example.com" None));
               Print PStatusValid; Print PSeparator]
       ++ [Some ""])%list.
Proof.
  refine (proj2 (row_without_provider_ends_the_cycle Ex.args
                   (ExR.holding ExR.line_of_spaces)
                   (PosixPath.of_string "/data/domains.csv") None 0 "172.65.32.248"
                   ExR.line_of_spaces [Ex.row_a]
                   [("fqdn", Some ""); ("dns_provider", None); ("email", None)]
                   [Ex.row_b] None (Some "") None _ 5
                   _ _ _ _ _ _ line_of_spaces_read first_row_processed _ _ _)).
  - reflexivity.
  - reflexivity.
  - reflexivity.
  - reflexivity.
  - reflexivity.
  - reflexivity.
  - reflexivity.
  - reflexivity.
  - reflexivity.
Defined.

(** The list of domains is read while its rows are processed: when the
    reading fails after the line of the first job, that job has been
    processed before the error ends the cycle. *)
Example read_error_after_a_row :
  cycle Ex.args ExR.cut_short (PosixPath.of_string "/data/domains.csv") None 0 =
  ((cycle_head Ex.args (PosixPath.of_string "/data/domains.csv")
      ++ [Print (PProvisioning (Some "a.example.com")); Print PSeparator;
          Call (CExists "/etc/letsencrypt/secrets/cloudflare.ini");
          Call (CRun (job_argv "a.example.com" "cloudflare" "ops@example.com" None));
          Print PStatusValid; Print PSeparator;
          Log (LRuntimeException
                 (EnvironmentError "UnicodeDecodeError"
                    "'utf-8' codec can't decode byte 0xff in position 8192: invalid start byte"))
              true;
          Call (CSleep 60)])%list, 6, Normal tt).
Proof. vm_compute. reflexivity. Qed.

(** ** Blank lines *)

Section BlankLines.

Import Csv.

Lemma written_line_parsed fs :
  written_line fs ->
  feed_line (render_record fs) parse_reset = inr (mkReader START_RECORD fs "").
Proof.
  intros [-> | T]; [reflexivity | apply line_parsed; exact T].
Qed.

Lemma reader_written records :
  Forall written_line records ->
  reader (map render_record records) = (records, None).
Proof.
  unfold reader. induction 1 as [| fs records T _ IH]; [reflexivity |].
  cbn [map records_from]. rewrite (written_line_parsed fs T). cbn [state fields].
  rewrite IH. reflexivity.
Qed.

Lemma written_unquoted fs : written_line fs -> unquoted (PyStr.join "," fs) = true.
Proof. intros [-> | T]; [reflexivity | apply tidy_unquoted; exact T]. Qed.

Lemma DictReader_written header records :
  tidy_record header -> Forall written_line records ->
  DictReader (PyStr.text_lines_from (render (header :: records)) false) =
  (map (make_row [] header) (filter data_record records), None).
Proof.
  intros Th T.
  assert (W : Forall written_line (header :: records))
    by (constructor; [right; exact Th | exact T]).
  unfold DictReader.
  rewrite text_lines_render
    by (eapply Forall_impl; [| exact W]; intros fs; apply written_unquoted).
  rewrite (reader_written _ W). reflexivity.
Qed.

Lemma written_data_tidy records :
  Forall written_line records -> Forall tidy_record (filter data_record records).
Proof.
  induction 1 as [| fs records [-> | T] _ IH]; [constructor | exact IH |].
  cbn [filter]. destruct (data_record fs); [constructor; assumption | exact IH].
Qed.

End BlankLines.

(** X9.  Blank lines below the header of the list of domains are passed
    over: the rows read from a list written with blank lines between its
    records are the rows of its records that are not blank, in order,
    the same as are read from the list without the blank lines. *)
Theorem blank_lines_are_passed_over (header : list string)
    (records : list (list string)) :
  tidy_record header -> Forall written_line records ->
  Csv.DictReader (PyStr.text_lines_from (render (header :: records)) false) =
  (map (Csv.make_row [] header) (filter data_record records), None) /\
  Csv.DictReader (PyStr.text_lines_from (render (header :: records)) false) =
  Csv.DictReader
    (PyStr.text_lines_from (render (header :: filter data_record records)) false).
Proof.
  intros Th T.
  pose proof (DictReader_written header records Th T) as E.
  split; [exact E |]. rewrite E. symmetry.
  apply DictReader_rendered. constructor; [exact Th |].
  apply written_data_tidy. exact T.
Qed.

Lemma blank_lines_are_passed_over_witness :
  Csv.DictReader (PyStr.text_lines_from (render (HEADER :: ExB.spaced_out)) false) =
  (map (Csv.make_row [] HEADER) (filter data_record ExB.spaced_out), None).
Proof.
  refine (proj1 (blank_lines_are_passed_over HEADER ExB.spaced_out _ _)).
  - split; [discriminate |]. split; [discriminate |]. unfold HEADER. tidy_fields.
  - unfold ExB.spaced_out.
    repeat (apply Forall_cons;
            [first [left; reflexivity
                   | right; split; [discriminate | split; [discriminate | tidy_fields]]] |]).
    apply Forall_nil.
Defined.

(** ** Line ends *)

Lemma text_lines_crlf s :
  PyStr.has_char PyStr.CR s = false ->
  PyStr.text_lines_from (to_crlf s) false = PyStr.text_lines_from s false.
Proof.
  induction s as [| c s IH]; [reflexivity |].
  cbn [PyStr.has_char to_crlf]. intros H.
  apply orb_false_iff in H. destruct H as [Hc Hs].
  destruct (Ascii.eqb c PyStr.LF) eqn:E.
  - cbn [PyStr.text_lines_from].
    change (Ascii.eqb PyStr.CR PyStr.LF) with false.
    change (Ascii.eqb PyStr.CR PyStr.CR) with true.
    change (Ascii.eqb PyStr.LF PyStr.LF) with true.
    cbv iota. rewrite E, (IH Hs). reflexivity.
  - cbn [PyStr.text_lines_from]. rewrite E, Hc, (IH Hs). reflexivity.
Qed.

(** X10.  The list of domains is opened in text mode with universal
    newlines, so a list saved with CR LF line ends is processed exactly
    as the same list with LF line ends: the same lines reach the reader,
    and the cycle does the same with them. *)
Theorem crlf_list_is_processed_alike (args : Args) (w : World)
    (hook_script : option string) (text : string) (t : nat) :
  PyStr.has_char PyStr.CR text = false ->
  PyStr.text_lines_from (to_crlf text) false = PyStr.text_lines_from text false /\
  process_file args w hook_script (to_crlf text) t =
  process_file args w hook_script text t.
Proof.
  intros H. split; [exact (text_lines_crlf text H) |].
  unfold process_file. rewrite (text_lines_crlf text H). reflexivity.
Qed.

Example two_rows_without_cr : PyStr.has_char PyStr.CR Ex.two_rows = false.
Proof. vm_compute. reflexivity. Qed.

Lemma crlf_list_is_processed_alike_witness :
  process_file Ex.args Ex.calm None (to_crlf Ex.two_rows) 3 =
  process_file Ex.args Ex.calm None Ex.two_rows 3.
Proof.
  exact (proj2 (crlf_list_is_processed_alike Ex.args Ex.calm None Ex.two_rows 3
                  two_rows_without_cr)).
Defined.

(** ** Errors of the reader *)

Section ReaderErrors.

Import Csv.

Lemma add_then_spec s c r :
  match add_then s (Some c) r with
  | inl e => e = limit_error /\ (field_limit <= N.of_nat (String.length (field r)))%N
  | inr r' => state r' = s /\ String.length (field r') = S (String.length (field r))
  end.
Proof.
  unfold add_then, parse_add_char.
  destruct (field_limit <=? N.of_nat (String.length (field r)))%N eqn:E.
  - split; [reflexivity | now apply N.leb_le].
  - cbn [set_state state field]. split; [reflexivity |].
    rewrite length_app. cbn [String.length]. lia.
Qed.

Ltac by_add_then s c r :=
  let H := fresh in
  pose proof (add_then_spec s c r) as H;
  destruct (add_then s (Some c) r);
  [exact H
  | destruct H as [H1 H2]; split; [unfold inside_a_line; rewrite H1; discriminate | lia]].

Lemma start_field_char c r :
  is_newline c = false -> inside_a_line r ->
  match start_field (Some c) r with
  | inl e => e = limit_error /\ (field_limit <= N.of_nat (String.length (field r)))%N
  | inr r' => inside_a_line r' /\ String.length (field r') <= S (String.length (field r))
  end.
Proof.
  intros N I. unfold start_field, is_line_end, is_char. rewrite N.
  destruct (Ascii.eqb quotechar c);
    [split; [unfold inside_a_line; cbn; discriminate | cbn; lia] |].
  destruct (Ascii.eqb " " c && skipinitialspace); [split; [exact I | lia] |].
  destruct (Ascii.eqb delimiter c); [split; [exact I | cbn; lia] |].
  by_add_then IN_FIELD c r.
Qed.

Lemma step_char c r :
  is_newline c = false -> inside_a_line r ->
  match parse_process_char (Some c) r with
  | inl e => e = limit_error /\ (field_limit <= N.of_nat (String.length (field r)))%N
  | inr r' => inside_a_line r' /\ String.length (field r') <= S (String.length (field r))
  end.
Proof.
  intros N I. unfold parse_process_char.
  destruct (state r) eqn:S.
  - rewrite N. apply (start_field_char c (set_state START_FIELD r) N). discriminate.
  - apply start_field_char; assumption.
  - unfold is_line_end, is_char. rewrite N.
    destruct (Ascii.eqb delimiter c);
      [split; [unfold inside_a_line; cbn; discriminate | cbn; lia] |].
    by_add_then IN_FIELD c r.
  - destruct (Ascii.eqb c quotechar);
      [split; [unfold inside_a_line; cbn; discriminate | cbn; lia] |].
    by_add_then IN_QUOTED_FIELD c r.
  - unfold is_line_end, is_char. rewrite N.
    destruct (Ascii.eqb quotechar c); [by_add_then IN_QUOTED_FIELD c r |].
    destruct (Ascii.eqb delimiter c);
      [split; [unfold inside_a_line; cbn; discriminate | cbn; lia] |].
    cbn [strict negb]. by_add_then IN_FIELD c r.
  - now elim I.
Qed.

Lemma step_line_feed r :
  match parse_process_char (Some PyStr.LF) r with
  | inl e => e = limit_error /\ (field_limit <= N.of_nat (String.length (field r)))%N
  | inr r' => String.length (field r') <= S (String.length (field r))
  end.
Proof.
  unfold parse_process_char.
  destruct (state r) eqn:S; try (cbn; lia).
  change (Ascii.eqb PyStr.LF quotechar) with false. cbv iota.
  pose proof (add_then_spec IN_QUOTED_FIELD PyStr.LF r) as H.
  destruct (add_then IN_QUOTED_FIELD (Some PyStr.LF) r); [exact H | lia].
Qed.

Lemma step_end_of_line r :
  exists r', parse_process_char None r = inr r' /\ inside_a_line r' /\
             String.length (field r') <= String.length (field r).
Proof.
  unfold parse_process_char, inside_a_line.
  destruct (state r) eqn:S; eexists; (split; [reflexivity |]); cbn; rewrite ?S;
    split; try discriminate; lia.
Qed.

Lemma feed_body body r :
  no_line_end body = true -> inside_a_line r ->
  match feed_chars body r with
  | inl e =>
      e = limit_error /\
      (field_limit <= N.of_nat (String.length (field r) + String.length body))%N
  | inr r' =>
      inside_a_line r' /\
      String.length (field r') <= String.length (field r) + String.length body
  end.
Proof.
  revert r. induction body as [| c body IH]; intros r Hb I.
  - cbn. split; [exact I | lia].
  - cbn [no_line_end] in Hb. apply andb_true_iff in Hb. destruct Hb as [Hc Hb].
    apply negb_true_iff in Hc.
    cbn [feed_chars String.length]. pose proof (step_char c r Hc I) as H.
    destruct (parse_process_char (Some c) r) as [e | r1].
    + destruct H as [-> H]. split; [reflexivity | lia].
    + destruct H as [I1 L1]. specialize (IH r1 Hb I1).
      destruct (feed_chars body r1) as [e | r2].
      * destruct IH as [-> IH]. split; [reflexivity | lia].
      * destruct IH as [I2 L2]. split; [exact I2 | lia].
Qed.

Lemma feed_text_line line r :
  text_line line -> inside_a_line r ->
  match feed_line line r with
  | inl e =>
      e = limit_error /\
      (field_limit <= N.of_nat (String.length (field r) + String.length line))%N
  | inr r' =>
      inside_a_line r' /\
      String.length (field r') <= String.length (field r) + String.length line
  end.
Proof.
  intros (body & Hb & [-> | ->]) I; unfold feed_line.
  - pose proof (feed_body body r Hb I) as H.
    destruct (feed_chars body r) as [e | r1]; [exact H |].
    destruct H as [I1 L1].
    destruct (step_end_of_line r1) as (r2 & -> & I2 & L2). split; [exact I2 | lia].
  - rewrite feed_chars_app, length_app. cbn [String.length].
    pose proof (feed_body body r Hb I) as H.
    destruct (feed_chars body r) as [e | r1].
    + destruct H as [-> H]. split; [reflexivity | lia].
    + destruct H as [I1 L1]. cbn [feed_chars].
      pose proof (step_line_feed r1) as H.
      destruct (parse_process_char (Some PyStr.LF) r1) as [e | r2].
      * destruct H as [-> H]. split; [reflexivity | lia].
      * destruct (step_end_of_line r2) as (r3 & -> & I3 & L3). split; [exact I3 | lia].
Qed.

Lemma records_from_errors lines r e :
  Forall text_line lines -> inside_a_line r ->
  snd (records_from lines r) = Some e ->
  e = limit_error /\
  (field_limit <= N.of_nat (String.length (field r) + total_length lines))%N.
Proof.
  intros T. revert r. induction T as [| line lines Hl _ IH]; intros r I.
  - cbn [records_from]. destruct (_ || _); discriminate.
  - cbn [records_from total_length]. pose proof (feed_text_line line r Hl I) as H.
    destruct (feed_line line r) as [e1 | r1].
    + cbn [snd]. intros E. inversion E; subst. destruct H as [-> H].
      split; [reflexivity | lia].
    + destruct H as [I1 L1].
      destruct (state r1) eqn:S1.
      1: { destruct (records_from lines parse_reset) as [recs err] eqn:R.
           cbn [snd]. intros ->.
           assert (I0 : inside_a_line parse_reset) by discriminate.
           specialize (IH parse_reset I0). rewrite R in IH.
           destruct (IH eq_refl) as [-> L]. cbn in L. split; [reflexivity | lia]. }
      all: intros E; destruct (IH r1 I1 E) as [-> L]; split; [reflexivity | lia].
Qed.

Lemma text_line_cons c line :
  is_newline c = false -> text_line line -> text_line (String c line).
Proof.
  intros N (body & Hb & [-> | ->]); exists (String c body); cbn [no_line_end];
    rewrite N, Hb; (split; [reflexivity |]); [left | right]; reflexivity.
Qed.

Lemma text_lines_shape s b :
  Forall text_line (PyStr.text_lines_from s b) /\
  total_length (PyStr.text_lines_from s b) <= String.length s.
Proof.
  revert b. induction s as [| c s IH]; intros b; [split; [constructor | reflexivity] |].
  assert (LFl : text_line (String PyStr.LF ""))
    by (exists ""; split; [reflexivity | right; reflexivity]).
  cbn [PyStr.text_lines_from String.length].
  destruct (Ascii.eqb c PyStr.LF) eqn:E1.
  - destruct b.
    + destruct (IH false) as [F L]. split; [exact F | lia].
    + destruct (IH false) as [F L]. split; [constructor; assumption |].
      cbn [total_length String.length]. lia.
  - destruct (Ascii.eqb c PyStr.CR) eqn:E2.
    + destruct (IH true) as [F L]. split; [constructor; assumption |].
      cbn [total_length String.length]. lia.
    + assert (N : is_newline c = false) by (unfold is_newline; now rewrite E1, E2).
      destruct (IH false) as [F L].
      destruct (PyStr.text_lines_from s false) as [| h t].
      * split; [| cbn; lia]. constructor; [| constructor].
        exists (String c ""). cbn [no_line_end]. rewrite N.
        split; [reflexivity | left; reflexivity].
      * inversion F; subst. split; [constructor; [now apply text_line_cons | assumption] |].
        cbn [total_length String.length] in *. lia.
Qed.

Lemma DictReader_error lines :
  snd (DictReader lines) = snd (reader lines).
Proof.
  unfold DictReader. destruct (reader lines) as [[| fieldnames records] err]; reflexivity.
Qed.

End ReaderErrors.

(** X11.  Once the text of the list of domains has been read, the
    reader can fail on it in one way only.  The lines of a text-mode
    file carry a line feed at their end and nowhere else, so the reader
    never raises "new-line character seen in unquoted field" (a NUL is
    an ordinary character for it, as since Python 3.11): the only
    exception the iteration over the rows can raise is the [csv.Error]
    of a field that outgrows the field size limit of 131072 characters,
    and a list of fewer characters than that is always read to its
    end. *)
Theorem reading_fails_only_on_the_field_limit (text : string) :
  ((N.of_nat (String.length text) < Csv.field_limit)%N ->
   snd (Csv.DictReader (PyStr.text_lines_from text false)) = None) /\
  (forall e,
     snd (Csv.DictReader (PyStr.text_lines_from text false)) = Some e ->
     e = limit_error).
Proof.
  assert (A : forall e,
             snd (Csv.DictReader (PyStr.text_lines_from text false)) = Some e ->
             e = limit_error /\ (Csv.field_limit <= N.of_nat (String.length text))%N).
  { intros e. rewrite DictReader_error. unfold Csv.reader. intros H.
    destruct (text_lines_shape text false) as [F L].
    assert (I : inside_a_line Csv.parse_reset) by discriminate.
    destruct (records_from_errors _ _ _ F I H) as [-> B].
    split; [reflexivity |]. cbn [Csv.parse_reset Csv.field String.length] in B. lia. }
  split.
  - intros Hlen.
    destruct (snd (Csv.DictReader (PyStr.text_lines_from text false))) as [e |] eqn:E;
      [| reflexivity].
    destruct (A e eq_refl) as [_ B]. lia.
  - intros e H. exact (proj1 (A e H)).
Qed.

Example two_rows_are_short :
  (N.of_nat (String.length Ex.two_rows) < Csv.field_limit)%N.
Proof. vm_compute. reflexivity. Qed.

Lemma reading_fails_only_on_the_field_limit_witness :
  snd (Csv.DictReader (PyStr.text_lines_from Ex.two_rows false)) = None.
Proof.
  exact (proj1 (reading_fails_only_on_the_field_limit Ex.two_rows) two_rows_are_short).
Defined.

Section FieldLimit.

Import Csv.

Lemma letters_plain n : plain_field (ExL.letters n) = true.
Proof. induction n as [| n IH]; [reflexivity | exact IH]. Qed.

Lemma letters_overflow k rest r :
  state r = IN_FIELD ->
  (N.of_nat (String.length (field r)) <= field_limit)%N ->
  (field_limit < N.of_nat (String.length (field r) + k))%N ->
  feed_chars (ExL.letters k ++ rest) r = inl limit_error.
Proof.
  revert r. induction k as [| k IH]; intros r S L0 L; [lia |].
  cbn [ExL.letters append feed_chars].
  destruct (N.eq_dec (N.of_nat (String.length (field r))) field_limit) as [E | E].
  - unfold parse_process_char. rewrite S. cbn [is_line_end is_char is_newline].
    change (Ascii.eqb "a" PyStr.LF || Ascii.eqb "a" PyStr.CR) with false.
    change (Ascii.eqb delimiter "a") with false. cbv iota.
    unfold add_then, parse_add_char. rewrite E, N.leb_refl. reflexivity.
  - rewrite (add_in_field "a" r eq_refl S) by lia.
    apply IH; cbn [state field]; [reflexivity | |];
      rewrite length_app; cbn [String.length]; lia.
Qed.

End FieldLimit.

(** The limit is met: a list whose first line is one field of more than
    131072 letters is not read. *)
Example oversize_field_fails (n : nat) :
  (Csv.field_limit < N.of_nat n)%N ->
  Csv.DictReader
    (PyStr.text_lines_from (ExL.letters n ++ String PyStr.LF "") false) =
  ([], Some limit_error).
Proof.
  intros H.
  rewrite text_lines_line by (apply plain_field_unquoted, letters_plain).
  destruct n as [| k]; [discriminate H |].
  unfold Csv.DictReader, Csv.reader. cbn [PyStr.text_lines_from Csv.records_from].
  unfold Csv.feed_line. cbn [ExL.letters append Csv.feed_chars].
  change (Csv.parse_process_char (Some "a"%char) Csv.parse_reset)
    with (@inr py_exception _ (Csv.mkReader Csv.IN_FIELD [] "a")).
  cbv iota beta.
  rewrite letters_overflow; [reflexivity | reflexivity | vm_compute; discriminate |].
  cbn [Csv.field String.length]. lia.
Qed.

(* ================================================================= *)
(** ** The credential file of any provider key *)

Section CredentialPaths.

Lemma split_last_segment key :
  exists segments segment,
    PyStr.split "/" (key ++ ".ini") = app segments [segment ++ ".ini"].
Proof.
  induction key as [| c key (segments & segment & IH)].
  - exists [], "". reflexivity.
  - cbn [append PyStr.split]. rewrite IH.
    destruct (Ascii.eqb c "/").
    + exists ("" :: segments), segment. reflexivity.
    + destruct segments as [| h t].
      * exists [], (String c segment). reflexivity.
      * exists (String c h :: t), segment. reflexivity.
Qed.

Lemma parts_of_key_not_empty key :
  filter PosixPath.is_part (PyStr.split "/" (key ++ ".ini")) <> [].
Proof.
  destruct (split_last_segment key) as (segments & segment & ->).
  rewrite filter_app. cbn [filter]. rewrite is_part_ini.
  intros H. apply app_eq_nil in H. destruct H as [_ H]. discriminate H.
Qed.

Lemma startswith_slash_ini key :
  PyStr.startswith "/" (key ++ ".ini") = PyStr.startswith "/" key.
Proof.
  unfold PyStr.startswith. destruct key as [| c key]; [reflexivity |].
  cbn [append String.prefix]. destruct (Ascii.ascii_dec "/" c); [| reflexivity].
  destruct key; reflexivity.
Qed.

Lemma creds_path_of_relative key :
  PyStr.startswith "/" key = false ->
  creds_path_of key =
  "/etc/letsencrypt/secrets/"
    ++ PyStr.join "/" (filter PosixPath.is_part (PyStr.split "/" (key ++ ".ini"))).
Proof.
  intros H. unfold creds_path_of, PosixPath.truediv.
  change (PosixPath.to_string SECRETS_DIR) with "/etc/letsencrypt/secrets".
  unfold PosixPath.posixpath_join. rewrite startswith_slash_ini, H.
  cbn [String.eqb PyStr.endswith_char Ascii.eqb Bool.eqb orb].
  unfold PosixPath.parse. cbn [append String.eqb PosixPath.splitroot].
  pose proof (parts_of_key_not_empty key) as N.
  assert (S : PyStr.split "/" ("etc/letsencrypt/secrets/" ++ key ++ ".ini")
              = "etc" :: "letsencrypt" :: "secrets" :: PyStr.split "/" (key ++ ".ini")).
  { cbn [append PyStr.split Ascii.eqb Bool.eqb]. reflexivity. }
  cbn [append] in S. rewrite S. cbn [filter].
  change (PosixPath.is_part "etc") with true.
  change (PosixPath.is_part "letsencrypt") with true.
  change (PosixPath.is_part "secrets") with true.
  cbv iota.
  destruct (filter PosixPath.is_part (PyStr.split "/" (key ++ ".ini"))) as [| p ps];
    [now elim N |].
  reflexivity.
Qed.

Lemma creds_path_of_absolute key :
  PyStr.startswith "/" key = true ->
  creds_path_of key = PosixPath.to_string (PosixPath.parse (key ++ ".ini")).
Proof.
  intros H. unfold creds_path_of, PosixPath.truediv, PosixPath.posixpath_join.
  rewrite startswith_slash_ini, H. reflexivity.
Qed.

End CredentialPaths.

(** X12.  The credential file of any provider key.  For a key that does
    not begin with a slash it lies, as written, below the secrets
    directory: the path is "/etc/letsencrypt/secrets/" followed by the
    components of "<key>.ini", of which empty ones and "." are dropped
    and ".." is kept.  For a key that begins with a slash the secrets
    directory plays no part: the path is "<key>.ini" as a path of its
    own. *)
Theorem credential_file_of_any_key (key : string) :
  (PyStr.startswith "/" key = false ->
   creds_path_of key =
   "/etc/letsencrypt/secrets/"
     ++ PyStr.join "/" (filter PosixPath.is_part (PyStr.split "/" (key ++ ".ini")))) /\
  (PyStr.startswith "/" key = true ->
   creds_path_of key = PosixPath.to_string (PosixPath.parse (key ++ ".ini"))).
Proof.
  split; [apply creds_path_of_relative | apply creds_path_of_absolute].
Qed.

Lemma credential_file_of_any_key_witness :
  creds_path_of "dns//./../cloudflare" =
  "/etc/letsencrypt/secrets/" ++ PyStr.join "/" ["dns"; ".."; "cloudflare.ini"].
Proof.
  exact (proj1 (credential_file_of_any_key "dns//./../cloudflare") eq_refl).
Defined.

(* ================================================================= *)
(** ** The sleeps of a run *)

Lemma sleeps_app a b : sleeps (a ++ b) = (sleeps a ++ sleeps b)%list.
Proof.
  induction a as [| e a IH]; [reflexivity |].
  destruct e as [p | m b0 | c | s]; try exact IH.
  destruct c; try exact IH. simpl. now rewrite IH.
Qed.

Lemma sleeps_none tr : Forall no_sleep tr -> sleeps tr = [].
Proof.
  induction 1 as [| e tr He _ IH]; [reflexivity |].
  destruct e as [p | m b0 | c | s]; try exact IH.
  destruct c; try exact IH. elim He.
Qed.

Section SleepsOfARun.

Variable args : Args.
Variable w : World.
Hypothesis Hquiet : never_signalled w.

Lemma never_exits_by_signal t tr t' : ~ exits_by_signal w t tr t'.
Proof. intros (u & s & _ & _ & _ & _ & _ & H & _). now rewrite Hquiet in H. Qed.

Lemma cycle_ends_normally csv_file hook_script t :
  exists tr t' secs,
    cycle args w csv_file hook_script t = (tr, t', Normal tt) /\
    sleeps tr = [secs] /\ service_sleep args secs.
Proof.
  destruct (cycle args w csv_file hook_script t) as [[tr t'] o] eqn:H.
  destruct o as [[] | [e | c]].
  - destruct (sleeps_last_cycle args w csv_file hook_script _ _ _ _ H)
      as (tr0 & secs & -> & F & S).
    exists (tr0 ++ [Call (CSleep secs)])%list, t', secs.
    split; [reflexivity |]. split; [| exact S].
    rewrite sleeps_app, (sleeps_none _ F). reflexivity.
  - exfalso. eapply cycle_contained; eauto.
  - exfalso. destruct (tame_cycle args w csv_file hook_script _ _ _ _ H) as [_ [_ E]].
    exact (never_exits_by_signal _ _ _ E).
Qed.

Lemma service_loop_sleeps n csv_file hook_script t :
  exists tr t',
    service_loop args w n csv_file hook_script t = (tr, t', Normal tt) /\
    List.length (sleeps tr) = n /\ Forall (service_sleep args) (sleeps tr).
Proof.
  revert t. induction n as [| n IH]; intros t.
  - exists [], t. repeat split. constructor.
  - destruct (cycle_ends_normally csv_file hook_script t) as (tr1 & t1 & secs & C & S1 & Hs).
    destruct (IH t1) as (tr2 & t2 & L & N & F).
    exists (tr1 ++ tr2)%list, t2. cbn [service_loop].
    rewrite (bind_prepend _ _ _ _ _ _ C), L. split; [reflexivity |].
    rewrite sleeps_app, S1. cbn [app List.length]. split; [now rewrite N |].
    constructor; assumption.
Qed.

Lemma verify_hook_ends_normally :
  startup_passes args w ->
  exists tr t' hook_script,
    verify_hook args w 0 = (tr, t', Normal hook_script) /\ sleeps tr = [].
Proof.
  intros Hstart.
  destruct (verify_hook args w 0) as [[tr t'] o] eqn:H.
  assert (F : sleeps tr = []).
  { apply sleeps_none.
    pose proof (startup_verify_hook args w _ _ _ _ H) as F.
    eapply Forall_impl; [| exact F].
    intros e He. destruct e as [p | m b0 | c | s]; try exact I.
    destruct c; try exact I. exact He. }
  destruct o as [hk | [e | c]].
  - exists tr, t', hk. split; [reflexivity | exact F].
  - exfalso. eapply Hstart; eauto.
  - exfalso. destruct (tame_verify_hook args w _ _ _ _ H) as [_ [_ E]].
    exact (never_exits_by_signal _ _ _ E).
Qed.

End SleepsOfARun.

(** X13.  The loop does not end by itself and sleeps once per turn:
    when no signal arrives and the startup check of the hook has raised
    nothing, the process is still running after any number [n] of turns
    of the loop, whatever the world answered in them, and it has slept
    exactly [n] times by then, each time for [RETRY_DELAY] seconds or
    for the configured interval. *)
Theorem one_sleep_per_turn_of_the_loop (args : Args) (w : World) (n : nat) :
  never_signalled w -> startup_passes args w ->
  snd (run_process args w n) = Running /\
  List.length (sleeps (fst (run_process args w n))) = n /\
  Forall (service_sleep args) (sleeps (fst (run_process args w n))).
Proof.
  intros Hq Hs.
  destruct (verify_hook_ends_normally args w Hq Hs) as (trh & th & hk & V & Sh).
  destruct (service_loop_sleeps args w Hq n (PosixPath.of_string (csv args)) hk th)
    as (tr & t' & L & N & F).
  assert (E : main args w n 0 =
              ((Print PStars :: Print PLoaded :: Print PStars :: trh ++ tr)%list,
               t', Normal tt)).
  { unfold main, main_service, print.
    rewrite 3 bind_emit, (bind_prepend _ _ _ _ _ _ V), L. reflexivity. }
  unfold run_process. rewrite E. cbn [fst snd sleeps].
  rewrite sleeps_app, Sh. cbn [app]. auto.
Qed.

Lemma one_sleep_per_turn_of_the_loop_witness :
  snd (run_process Ex.args Ex.calm 3) = Running /\
  List.length (sleeps (fst (run_process Ex.args Ex.calm 3))) = 3 /\
  Forall (service_sleep Ex.args) (sleeps (fst (run_process Ex.args Ex.calm 3))).
Proof.
  apply (one_sleep_per_turn_of_the_loop Ex.args Ex.calm 3).
  - intros u. reflexivity.
  - intros tr t e H. discriminate H.
Defined.
